(** * PDF compressor for architectural drawings: a shallow embedding

    The development follows [pdf_compressor.py]: the page classifier
    ([classify_page]), the image recompressor ([_resample_image]), the two
    external-tool transforms ([ghostscript_compress], [pikepdf_optimize]),
    the job pipeline ([process_job]) and the HTTP-facing job registry
    ([compress], [status], [download], [cleanup_old_jobs]).

    Conventions.
    - Python [str] values are Rocq strings; the text handled here is taken
      in the ASCII range, where [\d] is [0-9], [\w] is [[A-Za-z0-9_]] and
      [str.upper] only touches [a-z].
    - Python integers are [Z].
    - A call that may raise returns an [outcome]; the exception keeps its
      class as far as the code distinguishes it ([ValueError] or not). *)

From Stdlib Require Import ZArith Lia Ascii String List Bool.
From Stdlib Require Import QArith Qround Qpower Lqa.
From Stdlib Require SpecFloat.
From stdpp Require Import base option list sorting gmap strings pretty.

Local Open Scope string_scope.
Local Open Scope Z_scope.

(* ===================================================================== *)
(** * Part I: definitions                                                 *)
(* ===================================================================== *)

(** ** Characters and strings *)

Definition code (c : ascii) : N := N_of_ascii c.

Definition in_range (lo hi : N) (c : ascii) : bool :=
  (N.leb lo (code c)) && (N.leb (code c) hi).

(** [\d] on ASCII text. *)
Definition is_digit (c : ascii) : bool := in_range 48 57 c.

(** [\w] on ASCII text: letters, digits and the underscore. *)
Definition is_word (c : ascii) : bool :=
  is_digit c || in_range 65 90 c || in_range 97 122 c || N.eqb (code c) 95.

(** Python's [str.isspace] on ASCII: TAB..CR, FS..US and the blank. *)
Definition is_space (c : ascii) : bool :=
  in_range 9 13 c || in_range 28 32 c.

Definition upper_char (c : ascii) : ascii :=
  if in_range 97 122 c then ascii_of_N (code c - 32) else c.

(** [s.upper()] *)
Fixpoint upper (s : string) : string :=
  match s with
  | EmptyString => EmptyString
  | String c s' => String (upper_char c) (upper s')
  end.

(** The character [a] occurs in [s]. *)
Fixpoint string_has (a : ascii) (s : string) : bool :=
  match s with
  | EmptyString => false
  | String c s' => Ascii.eqb a c || string_has a s'
  end.

(** [w in s] for strings: [w] occurs as a contiguous substring of [s]. *)
Fixpoint str_in (w s : string) : bool :=
  String.prefix w s ||
  match s with
  | EmptyString => false
  | String _ s' => str_in w s'
  end.

(** ** The regular expressions of the classifier

    The sheet-number patterns only use a word boundary, one-character
    classes and optional one-character classes, so a pattern is a list of
    such atoms.  [match_here] is a backtracking matcher anchored at the
    current position; [prev] is the character just before it ([None] at
    the start of the text), which [\b] needs. *)

Inductive atom : Type :=
| WordBoundary                       (* \b      *)
| One (cls : ascii -> bool)          (* [...]   *)
| Maybe (cls : ascii -> bool).       (* [...]?  *)

Definition regex : Type := list atom.

Definition word_at (o : option ascii) : bool :=
  match o with Some c => is_word c | None => false end.

Definition first_char (s : string) : option ascii :=
  match s with EmptyString => None | String c _ => Some c end.

Definition at_boundary (prev : option ascii) (s : string) : bool :=
  xorb (word_at prev) (word_at (first_char s)).

Fixpoint match_here (r : regex) (prev : option ascii) (s : string) : bool :=
  match r with
  | [] => true
  | WordBoundary :: r' => at_boundary prev s && match_here r' prev s
  | One cls :: r' =>
      match s with
      | EmptyString => false
      | String c s' => cls c && match_here r' (Some c) s'
      end
  | Maybe cls :: r' =>
      match s with
      | EmptyString => match_here r' prev s
      | String c s' =>
          (cls c && match_here r' (Some c) s') || match_here r' prev s
      end
  end.

Fixpoint search_from (r : regex) (prev : option ascii) (s : string) : bool :=
  match_here r prev s ||
  match s with
  | EmptyString => false
  | String c s' => search_from r (Some c) s'
  end.

(** [re.search(pat, text)] as a truth value. *)
Definition re_search (r : regex) (text : string) : bool :=
  search_from r None text.

Definition is_char (a : ascii) (c : ascii) : bool := Ascii.eqb a c.

(** The class [[ -.]]: a range from the blank (32) to the full stop (46). *)
Definition is_sep (c : ascii) : bool := in_range 32 46 c.

(** [\b[X][ -.]?\d] *)
Definition sheet_pattern (letter : ascii) : regex :=
  [WordBoundary; One (is_char letter); Maybe is_sep; One is_digit].

(** [\b[F][P]?[ -.]?\d] *)
Definition fire_pattern : regex :=
  [WordBoundary; One (is_char "F"); Maybe (is_char "P"); Maybe is_sep;
   One is_digit].

(** ** Page classification *)

(** A dict literal iterated with [.items()]: keys in insertion order. *)
Definition patterns : list (string * regex) :=
  [ ("cover_title",   sheet_pattern "G");
    ("architectural", sheet_pattern "A");
    ("structural",    sheet_pattern "S");
    ("mechanical",    sheet_pattern "M");
    ("electrical",    sheet_pattern "E");
    ("plumbing",      sheet_pattern "P");
    ("landscape",     sheet_pattern "L");
    ("civil",         sheet_pattern "C");
    ("fire_safety",   fire_pattern) ].

Definition discipline_keywords : list (string * list string) :=
  [ ("fire_safety",   ["FIRE PROTECTION"; "FIRE ALARM"; "SPRINKLER"; "EGRESS"]);
    ("mechanical",    ["HVAC"; "MECHANICAL"; "DUCTWORK"]);
    ("electrical",    ["ELECTRICAL"; "LIGHTING"; "PANEL"; "ONE-LINE"]);
    ("plumbing",      ["PLUMBING"; "SANITARY"; "STORM DRAIN"; "RISER DIAGRAM"]);
    ("civil",         ["CIVIL"; "GRADING"; "UTILITIES"; "SITE PLAN"]);
    ("architectural", ["FLOOR PLAN"; "ELEVATION"; "ARCHITECTURAL"]);
    ("structural",    ["STRUCTURAL"; "FOUNDATION"; "FRAMING"]);
    ("landscape",     ["LANDSCAPE"; "PLANTING"; "IRRIGATION"]) ].

Definition general : list (string * list string) :=
  [ ("cover_title", ["COVER"; "SHEET INDEX"; "GENERAL NOTES"; "LEGEND";
                     "ABBREVIATIONS"]);
    ("schedules",   ["SCHEDULE"; "DOOR SCHEDULE"; "WINDOW SCHEDULE";
                     "FINISH SCHEDULE"]);
    ("details",     ["DETAIL"; "CONNECTION"; "ASSEMBLY"; "SECTION DETAIL"]) ].

(** [for k, v in table.items(): if hit(v): return k] *)
Fixpoint first_key {A : Type} (hit : A -> bool) (table : list (string * A))
  : option string :=
  match table with
  | [] => None
  | (k, v) :: rest => if hit v then Some k else first_key hit rest
  end.

(** [any(w in text for w in words)] *)
Definition any_in (text : string) (words : list string) : bool :=
  existsb (fun w => str_in w text) words.

(** What the classifier reads from a [fitz.Page]: the text of the
    bottom-right corner (clip rectangle from 70% of the width and height)
    and the text of the whole page.  [None] stands for a call that raises. *)
Record Page : Type := mkPage {
  get_text_clip : option string;
  get_text_full : option string
}.

(** The [try ... except Exception] block at the head of [classify_page]:
    both texts are uppercased; if either extraction raises, both are empty. *)
Definition page_texts (p : Page) : string * string :=
  match get_text_clip p, get_text_full p with
  | Some c, Some f => (upper c, upper f)
  | _, _ => ("", "")
  end.

Definition corner_text (p : Page) : string := fst (page_texts p).
Definition full_text (p : Page) : string := snd (page_texts p).

Definition classify_page (p : Page) : string :=
  let corner_text := corner_text p in
  let full_text := full_text p in
  match first_key (fun pat => re_search pat corner_text) patterns with
  | Some k => k
  | None =>
  match first_key (fun pat => re_search pat full_text) patterns with
  | Some k => k
  | None =>
  match first_key (any_in full_text) discipline_keywords with
  | Some k => k
  | None =>
  match first_key (any_in full_text) general with
  | Some k => k
  | None => "other"
  end end end end.

(** ** Page analysis *)

(** The [sections] dict of an analysis, keys in insertion order. *)
Definition empty_sections : list (string * list Z) :=
  [ ("architectural", []); ("structural", []); ("mechanical", []);
    ("electrical", []); ("plumbing", []); ("landscape", []); ("civil", []);
    ("fire_safety", []); ("cover_title", []); ("details", []);
    ("schedules", []); ("other", []) ].

(** [sections[ptype].append(page_num)]; [None] is the [KeyError]. *)
Fixpoint append_page (ptype : string) (page_num : Z)
    (sections : list (string * list Z)) : option (list (string * list Z)) :=
  match sections with
  | [] => None
  | (k, pages) :: rest =>
      if String.eqb k ptype then Some ((k, (pages ++ [page_num])%list) :: rest)
      else match append_page ptype page_num rest with
           | Some rest' => Some ((k, pages) :: rest')
           | None => None
           end
  end.

(** [for page_num, page in enumerate(doc, start=1)] *)
Fixpoint classify_pages (pages : list Page) (page_num : Z)
    (sections : list (string * list Z)) : option (list (string * list Z)) :=
  match pages with
  | [] => Some sections
  | page :: rest =>
      match append_page (classify_page page) page_num sections with
      | Some sections' => classify_pages rest (page_num + 1) sections'
      | None => None
      end
  end.

Record Analysis : Type := mkAnalysis {
  total_pages : Z;
  sections : list (string * list Z)
}.

(** [analyze_pdf_pages], on the pages of the document ([None] when the
    document cannot be opened); any exception makes the result [None]. *)
Definition analyze_pdf_pages (doc : option (list Page)) : option Analysis :=
  match doc with
  | None => None
  | Some pages =>
      match classify_pages pages 1 empty_sections with
      | Some sections =>
          Some {| total_pages := Z.of_nat (length pages);
                  sections := sections |}
      | None => None
      end
  end.

(** ** Exceptions

    The code only ever distinguishes [ValueError] from the other
    subclasses of [Exception]; [str_exn] is [str(e)]. *)

Inductive exn : Type :=
| ValueError (msg : string)
| OtherError (msg : string).

Definition str_exn (e : exn) : string :=
  match e with ValueError m => m | OtherError m => m end.

Definition is_ValueError (e : exn) : bool :=
  match e with ValueError _ => true | OtherError _ => false end.

Inductive outcome (A : Type) : Type :=
| Returns (a : A)
| Raises (e : exn).
Arguments Returns {A} a.
Arguments Raises {A} e.

Definition bytes : Type := list Byte.byte.

(** ** Binary64 arithmetic

    The progress of the image loop and the age test of the sweep are
    written with Python floats.  A float is a rational; an operation is the
    exact operation followed by rounding to nearest, ties to even, with 53
    bits of precision and gradual underflow (least exponent -1074).  The
    values met here stay far below the overflow threshold, so the exponent
    is not bounded above. *)

Definition pow2 (e : Z) : Q := Qpower 2 e.

(** The integer [k] with [2^(k-1) <= q < 2^k], for [q > 0]. *)
Definition mag (q : Q) : Z :=
  let k0 := Z.log2 (Qnum q) - Z.log2 (Zpos (Qden q)) in
  match Qcompare q (pow2 k0) with Lt => k0 | _ => k0 + 1 end.

Definition prec : Z := 53.
Definition emin : Z := -1074.

(** Exponent of the last place of the float nearest to [q]. *)
Definition cexp (q : Q) : Z := Z.max (mag q - prec) emin.

(** Nearest integer, ties to even. *)
Definition rne (x : Q) : Z :=
  let f := Qfloor x in
  match Qcompare (x - inject_Z f) (1 # 2) with
  | Lt => f
  | Gt => f + 1
  | Eq => if Z.even f then f else f + 1
  end.

Definition round_pos (q : Q) : Q :=
  (inject_Z (rne (q / pow2 (cexp q))) * pow2 (cexp q))%Q.

Definition rn64 (q : Q) : Q :=
  match Qcompare q 0 with
  | Eq => 0%Q
  | Gt => round_pos q
  | Lt => Qopp (round_pos (Qopp q))
  end.

(** [a / b] on two ints ([b] non-zero): correctly rounded quotient. *)
Definition py_truediv (a b : Z) : Q := rn64 (inject_Z a / inject_Z b).
(** [x * y] and [x - y] on floats. *)
Definition py_fmul (x y : Q) : Q := rn64 (x * y).
Definition py_fsub (x y : Q) : Q := rn64 (x - y).
(** [int(x)]: truncation toward zero. *)
Definition py_int (x : Q) : Z := Z.quot (Qnum x) (Zpos (Qden x)).

(** The same quantities computed with the reference binary64 operations
    of the standard library ([SpecFloat], precision 53, [emax] 1024), to
    compare the rounding above with. *)
Definition ieee_of_Z (z : Z) : SpecFloat.spec_float :=
  SpecFloat.binary_normalize 53 1024 z 0 false.

Definition ieee_value (x : SpecFloat.spec_float) : Q :=
  match x with
  | SpecFloat.S754_finite s m e =>
      ((if s then -1 else 1) * inject_Z (Zpos m) * pow2 e)%Q
  | _ => 0%Q
  end.

(** [(a / b) * 60] with the reference operations. *)
Definition ieee_fraction (a b : Z) : Q :=
  ieee_value
    (SpecFloat.SFmul 53 1024
       (SpecFloat.SFdiv 53 1024 (ieee_of_Z a) (ieee_of_Z b))
       (ieee_of_Z 60)).

(** All pairs [(idx, total)] with [1 <= idx <= total <= n]. *)
Definition index_pairs (n : nat) : list (Z * Z) :=
  flat_map (fun t => map (fun i => (Z.of_nat i, Z.of_nat t)) (seq 1 t))
    (seq 1 n).

(** ** Image recompression *)

(** A decoded [PIL.Image]: its size and its pixel mode. *)
Record Image : Type := mkImage {
  width : Z;
  height : Z;
  im_mode : string
}.

(** What [Image.save] is asked to write. *)
Inductive Encoding : Type :=
| TIFF (compression : string)
| JPEG (optimize : bool) (quality : Z).

(** The encoded stream, described by the image that was saved and the
    format arguments of the [save] call. *)
Record Encoded : Type := mkEncoded {
  enc_image : Image;
  enc_format : Encoding
}.

(** [img.convert(m)] keeps the size and changes the pixel mode. *)
Definition convert (img : Image) (m : string) : Image :=
  {| width := width img; height := height img; im_mode := m |}.

Definition save (img : Image) (fmt : Encoding) : Encoded :=
  {| enc_image := img; enc_format := fmt |}.

(** The two calls into Pillow whose result the code does not control:
    [ImageOps.exif_transpose] and the in-place [Image.thumbnail]. *)
Record Pil : Type := mkPil {
  exif_transpose : Image -> outcome Image;
  thumbnail : Image -> Z * Z -> outcome Image
}.

Definition _resample_image (pil : Pil) (pil_img : Image) (max_dim : Z)
    (mode : string) (quality : Z) (extreme : bool) : outcome Encoded :=
  (* Ensure exif transforms applied *)
  let pil_img :=
    match exif_transpose pil pil_img with
    | Returns t => t
    | Raises _ => pil_img
    end in
  (* Downscale *)
  let resized :=
    if Z.max (width pil_img) (height pil_img) >? max_dim
    then thumbnail pil pil_img (max_dim, max_dim)
    else Returns pil_img in
  match resized with
  | Raises e => Raises e
  | Returns pil_img =>
      (* Choose encoding *)
      if extreme || String.eqb mode "line_art" then
        let img_mono := convert pil_img "1" in
        Returns (save img_mono (TIFF "group4"))
      else
        let pil_img :=
          if String.eqb mode "general" then convert pil_img "L"
          else convert pil_img "RGB" in
        Returns (save pil_img (JPEG true (Z.max 20 (Z.min 95 quality))))
  end.

(** A resize that fits the image in the requested box, keeping the ratio
    of the sides up to rounding; it raises on an empty box, as a division
    by zero does.  It is one implementation of the contract the theorems
    on [_resample_image] assume of [thumbnail]. *)
Definition box_fit (img : Image) (box : Z * Z) : outcome Image :=
  let '(x, y) := box in
  if (x <=? 0) || (y <=? 0) then Raises (OtherError "division by zero")
  else if (x >=? width img) && (y >=? height img) then Returns img
  else if x * height img <=? y * width img
  then Returns {| width := x;
                  height := Z.max 1 (height img * x / width img);
                  im_mode := im_mode img |}
  else Returns {| width := Z.max 1 (width img * y / height img);
                  height := y;
                  im_mode := im_mode img |}.

(** ** External tools *)

(** The process environment seen by the two transforms. *)
Record Tools : Type := mkTools {
  (** [shutil.which] *)
  which : string -> option string;
  (** [subprocess.Popen(cmd, ...)] followed by [communicate(input)]:
      return code, standard output and standard error, or an exception. *)
  run : list string -> bytes -> outcome (Z * bytes * bytes);
  (** the pikepdf pass: open, [remove_unreferenced_resources], save with
      [optimize_streams], [compress_streams] and [linearize]. *)
  pikepdf_pass : bytes -> outcome bytes
}.

Fixpoint first_path (which : string -> option string) (candidates : list string)
  : option string :=
  match candidates with
  | [] => None
  | c :: rest =>
      match which c with
      | Some path => if String.eqb path "" then first_path which rest
                     else Some path
      | None => first_path which rest
      end
  end.

Definition _find_ghostscript_exe (t : Tools) : option string :=
  first_path (which t) ["gs"; "gswin64c"; "gswin32c"].

Definition gs_base_flags : list string :=
  [ "-sDEVICE=pdfwrite"; "-dNOPAUSE"; "-dQUIET"; "-dBATCH";
    "-sOutputFile=%stdout"; "-dDetectDuplicateImages=true";
    "-dColorImageDownsampleType=/Bicubic";
    "-dGrayImageDownsampleType=/Bicubic";
    "-dMonoImageDownsampleType=/Subsample" ].

Definition gs_extreme_flags : list string :=
  [ "-dCompatibilityLevel=1.6"; "-dPDFSETTINGS=/screen";
    "-dSubsetFonts=true"; "-dCompressFonts=true";
    "-dAutoFilterMonoImages=false"; "-sMonoImageFilter=/JBIG2Encode";
    "-dDownsampleColorImages=true"; "-dDownsampleGrayImages=true";
    "-dDownsampleMonoImages=true"; "-dColorImageResolution=72";
    "-dGrayImageResolution=72"; "-dMonoImageResolution=300" ].

Definition gs_balanced_flags : list string :=
  [ "-dCompatibilityLevel=1.6"; "-dPDFSETTINGS=/ebook";
    "-dSubsetFonts=true"; "-dCompressFonts=true";
    "-dDownsampleColorImages=true"; "-dDownsampleGrayImages=true";
    "-dDownsampleMonoImages=true"; "-dColorImageResolution=150";
    "-dGrayImageResolution=150"; "-dMonoImageResolution=600" ].

Definition gs_cmd (gs_exe : string) (extreme : bool) : list string :=
  (gs_exe :: gs_base_flags)
    ++ (if extreme then gs_extreme_flags else gs_balanced_flags).

Definition ghostscript_compress (t : Tools) (input_bytes : bytes)
    (extreme : bool) : bytes :=
  match _find_ghostscript_exe t with
  | None => input_bytes
  | Some gs_exe =>
      match run t (gs_cmd gs_exe extreme ++ ["-"]) input_bytes with
      | Raises _ => input_bytes
      | Returns (returncode, out, _) =>
          if negb (returncode =? 0) then input_bytes
          else match out with [] => input_bytes | _ => out end
      end
  end.

Definition pikepdf_optimize (t : Tools) (input_bytes : bytes) : bytes :=
  match pikepdf_pass t input_bytes with
  | Returns optimized => optimized
  | Raises _ => input_bytes
  end.

(** ** Jobs and the pipeline *)

(** A job record: the dict stored in [jobs].  An absent ["output_buffer"]
    key and the value [None] of ["error"] are both [None] here. *)
Record Job : Type := mkJob {
  status : string;
  progress : Z;
  created_at : Q;
  input_path : string;
  error : option string;
  output_buffer : option bytes
}.

(** The working document built by [process_job]: the pages it holds
    (source index, and whether the copy of the links completed), whether
    the extreme-mode cleanup ran on it, and the image streams replaced. *)
Record WorkDoc : Type := mkWorkDoc {
  doc_pages : list (Z * bool);
  doc_cleaned : bool;
  doc_streams : list (Z * Encoded)
}.

Definition empty_doc : WorkDoc :=
  {| doc_pages := []; doc_cleaned := false; doc_streams := [] |}.

(** The calls into PyMuPDF (and [Image.open]) whose result the code does
    not control. *)
Record Fitz : Type := mkFitz {
  (** [fitz.open(input_pdf)]: the page count of the source. *)
  fitz_open : string -> outcome Z;
  (** [work.insert_pdf(src, from_page=p, to_page=p)], with [links=False]
      when the flag is [false]. *)
  insert_pdf : Z -> bool -> outcome unit;
  (** Whether a call of [insert_pdf] that raises has appended the page to
      [work] before raising: PyMuPDF copies the page first and its links
      afterwards, so an exception from the links leaves the page, without
      them, in the document. *)
  leaves_page : Z -> bool -> bool;
  (** [page.get_images(full=True)] on a page of [work], as xrefs. *)
  get_images : Z * bool -> outcome (list Z);
  (** [work.extract_image(xref).get("image")] *)
  extract_image : Z -> outcome (option bytes);
  (** [Image.open(io.BytesIO(img_bytes))] *)
  image_open : bytes -> outcome Image;
  (** [work.update_stream(xref, new_bytes)] *)
  update_stream : Z -> Encoded -> outcome unit;
  (** [work.save(interm, garbage=4, deflate=True, clean=True)] *)
  doc_save : WorkDoc -> outcome bytes
}.

Record World : Type := mkWorld {
  fitz : Fitz;
  pil : Pil;
  tools : Tools
}.

(** What the theorems on page copying observe of a run. *)
Inductive Event : Type :=
| InsertPdf (p : Z) (links : bool)     (* a call of [work.insert_pdf] *)
| LinkWarning (page_number : Z) (e : exn).   (* the [logger.warning] *)

(** State of a run of [process_job]: the job record, every value the
    record has had (latest first, down to the record the run found), the
    working document and the events (latest first). *)
Record RunState : Type := mkRunState {
  current : Job;
  history : list Job;
  work : WorkDoc;
  events : list Event
}.

(** Computations of the pipeline: they may raise, and keep the state
    reached when they do. *)
Definition M (A : Type) : Type := RunState -> outcome A * RunState.

#[global] Instance M_ret : MRet M := fun A a s => (Returns a, s).

#[global] Instance M_bind : MBind M := fun A B f m s =>
  match m s with
  | (Returns a, s') => f a s'
  | (Raises e, s') => (Raises e, s')
  end.

Definition call {A : Type} (o : outcome A) : M A := fun s => (o, s).

(** [try: m except Exception as e: h e] *)
Definition try_except {A : Type} (m : M A) (h : exn -> M A) : M A := fun s =>
  match m s with
  | (Returns a, s') => (Returns a, s')
  | (Raises e, s') => h e s'
  end.

(** [try: m except ValueError as e: h e] *)
Definition try_except_ValueError {A : Type} (m : M A) (h : exn -> M A)
  : M A := fun s =>
  match m s with
  | (Returns a, s') => (Returns a, s')
  | (Raises e, s') => if is_ValueError e then h e s' else (Raises e, s')
  end.

(** One write to the job record. *)
Definition write (f : Job -> Job) : M unit := fun s =>
  (Returns (),
   {| current := f (current s); history := f (current s) :: history s;
      work := work s; events := events s |}).

Definition emit (ev : Event) : M unit := fun s =>
  (Returns (),
   {| current := current s; history := history s; work := work s;
      events := ev :: events s |}).

Definition update_work (f : WorkDoc -> WorkDoc) : M unit := fun s =>
  (Returns (),
   {| current := current s; history := history s; work := f (work s);
      events := events s |}).

Definition get_work : M WorkDoc := fun s => (Returns (work s), s).

Definition with_status (v : string) (j : Job) : Job :=
  {| status := v; progress := progress j; created_at := created_at j;
     input_path := input_path j; error := error j;
     output_buffer := output_buffer j |}.

Definition with_progress (v : Z) (j : Job) : Job :=
  {| status := status j; progress := v; created_at := created_at j;
     input_path := input_path j; error := error j;
     output_buffer := output_buffer j |}.

(** [job.update({"status": "done", "progress": 100,
                 "output_buffer": io.BytesIO(final_bytes), "error": None})].
    A [dict.update] with a dict of string keys runs without giving the
    interpreter lock away, so it is one write of the record. *)
Definition update_done (final_bytes : bytes) (j : Job) : Job :=
  {| status := "done"; progress := 100; created_at := created_at j;
     input_path := input_path j; error := None;
     output_buffer := Some final_bytes |}.

(** [job.update({"status": "error", "error": str(e)})] *)
Definition update_error (e : exn) (j : Job) : Job :=
  {| status := "error"; progress := progress j; created_at := created_at j;
     input_path := input_path j; error := Some (str_exn e);
     output_buffer := output_buffer j |}.

(** [jobs[job_id]["status"] = v] and [jobs[job_id]["progress"] = v] *)
Definition set_status (v : string) : M unit := write (with_status v).
Definition set_progress (v : Z) : M unit := write (with_progress v).

(** Truth value of the [extract_pages] argument: [None] and the empty
    list are both false. *)
Definition pages_given (extract_pages : option (list Z)) : option (list Z) :=
  match extract_pages with
  | Some (p :: l) => Some (p :: l)
  | _ => None
  end.

(** [list(range(n))] *)
Definition range (n : Z) : list Z := map Z.of_nat (seq 0 (Z.to_nat n)).

(** Page selection: the pages to keep (0-based) and the status label. *)
Definition select_pages (extract_pages : option (list Z)) (page_count : Z)
  : outcome (list Z * string) :=
  match pages_given extract_pages with
  | Some pages =>
      let keep := map (fun p => p - 1) pages in
      let keep := List.filter (fun p => (0 <=? p) && (p <? page_count)) keep in
      match keep with
      | [] => Raises (ValueError "No valid pages selected.")
      | _ => Returns (keep, "Extracting " +:+ pretty (length keep)
                              +:+ " selected pages...")
      end
  | None => Returns (range page_count, "Processing all pages...")
  end.

Definition add_page (p : Z) (links : bool) (d : WorkDoc) : WorkDoc :=
  {| doc_pages := doc_pages d ++ [(p, links)]; doc_cleaned := doc_cleaned d;
     doc_streams := doc_streams d |}.

(** One call of [work.insert_pdf]: the page enters the document when the
    call returns; when it raises, the page it may have appended before
    raising stays in the document. *)
Definition insert_page (f : Fitz) (p : Z) (links : bool) : M unit := fun s =>
  match insert_pdf f p links with
  | Returns _ => update_work (add_page p links) s
  | Raises e =>
      (Raises e,
       if leaves_page f p links then snd (update_work (add_page p false) s)
       else s)
  end.

(** The body of [for p in keep]: copy with links, and on [ValueError]
    warn and copy without links. *)
Definition copy_page (f : Fitz) (p : Z) : M unit :=
  try_except_ValueError
    (emit (InsertPdf p true);;
     insert_page f p true)
    (fun e =>
     emit (LinkWarning (p + 1) e);;
     emit (InsertPdf p false);;
     insert_page f p false).

Fixpoint copy_pages (f : Fitz) (keep : list Z) : M unit :=
  match keep with
  | [] => mret ()
  | p :: rest => copy_page f p;; copy_pages f rest
  end.

(** The two cleanup passes of the extreme mode (annotations, embedded
    [.js] files).  Each sits in its own [try ... except Exception] that only
    logs, so the stage cannot raise; its effect on the document is recorded
    as a flag. *)
Definition extreme_cleanup : M unit :=
  update_work (fun d =>
    {| doc_pages := doc_pages d; doc_cleaned := true;
       doc_streams := doc_streams d |}).

(** [_collect_unique_image_xrefs]: the xrefs of all pages gathered in a
    set, then listed in the order of the set. *)
Fixpoint collect_xrefs (f : Fitz) (pages : list (Z * bool)) (xrefs : gset Z)
  : outcome (gset Z) :=
  match pages with
  | [] => Returns xrefs
  | page :: rest =>
      match get_images f page with
      | Raises e => Raises e
      | Returns infos => collect_xrefs f rest (list_to_set infos ∪ xrefs)
      end
  end.

Definition _collect_unique_image_xrefs (f : Fitz) (doc : WorkDoc)
  : outcome (list Z) :=
  match collect_xrefs f (doc_pages doc) ∅ with
  | Raises e => Raises e
  | Returns xrefs => Returns (elements xrefs)
  end.

(** [20 + int((idx / max(1, total)) * 60)] *)
Definition image_progress (idx total : Z) : Z :=
  20 + py_int (py_fmul (py_truediv idx (Z.max 1 total)) 60).

Definition set_stream (xref : Z) (e : Encoded) (d : WorkDoc) : WorkDoc :=
  {| doc_pages := doc_pages d; doc_cleaned := doc_cleaned d;
     doc_streams := (xref, e) :: doc_streams d |}.

(** The [try] block of the image loop for one xref.  The result is [false]
    when the block leaves through [continue] (no image bytes), which skips
    the progress update; an exception is logged and the loop goes on. *)
Definition recompress_image (w : World) (xref : Z) (max_dimension : Z)
    (drawing_mode : string) (quality : Z) (extreme_compression : bool)
  : M bool :=
  try_except
    (img_bytes ← call (extract_image (fitz w) xref);
     match img_bytes with
     | None | Some [] => mret false
     | Some img_bytes =>
         im ← call (image_open (fitz w) img_bytes);
         new_bytes ← call (_resample_image (pil w) im max_dimension
                             drawing_mode quality extreme_compression);
         call (update_stream (fitz w) xref new_bytes);;
         update_work (set_stream xref new_bytes);;
         mret true
     end)
    (fun _ => mret true).

(** [for idx, xref in enumerate(xrefs, start=1)] *)
Fixpoint image_loop (w : World) (total idx : Z) (xrefs : list Z)
    (max_dimension : Z) (drawing_mode : string) (quality : Z)
    (extreme_compression : bool) : M unit :=
  match xrefs with
  | [] => mret ()
  | xref :: rest =>
      updated ← recompress_image w xref max_dimension drawing_mode quality
                  extreme_compression;
      (if updated : bool then set_progress (image_progress idx total)
       else mret ());;
      image_loop w total (idx + 1) rest max_dimension drawing_mode quality
        extreme_compression
  end.

(** Stages 3 and 4 past the checkpoint 20: the image loop and the
    structural save; it yields [pymupdf_bytes]. *)
Definition images_and_save (w : World) (quality : Z) (max_dimension : Z)
    (drawing_mode : string) (extreme_compression : bool) : M bytes :=
  doc ← get_work;
  xrefs ← call (_collect_unique_image_xrefs (fitz w) doc);
  image_loop w (Z.of_nat (length xrefs)) 1 xrefs max_dimension drawing_mode
    quality extreme_compression;;
  (* 4) Save intermediate bytes *)
  set_status "Saving (PyMuPDF)...";;
  set_progress 82;;
  doc ← get_work;
  call (doc_save (fitz w) doc).

(** Stages 2 to 4, on the working document once the pages are copied. *)
Definition recompress_and_save (w : World) (quality : Z) (max_dimension : Z)
    (drawing_mode : string) (extreme_compression : bool) : M bytes :=
  (* 2) Optional cleanup in extreme mode *)
  (if extreme_compression then
     set_status "Cleaning annotations & attachments...";;
     set_progress 15;;
     extreme_cleanup
   else mret ());;
  (* 3) Image recompression *)
  set_status "Recompressing images...";;
  set_progress 20;;
  images_and_save w quality max_dimension drawing_mode extreme_compression.

(** The body of [with fitz.open() as work]: the page copy loop, then
    stages 2 to 4. *)
Definition build_work (w : World) (keep : list Z) (quality : Z)
    (max_dimension : Z) (drawing_mode : string) (extreme_compression : bool)
  : M bytes :=
  copy_pages (fitz w) keep;;
  recompress_and_save w quality max_dimension drawing_mode
    extreme_compression.

(** The body of [with fitz.open(input_pdf) as src]. *)
Definition assemble (w : World) (input_pdf : string) (quality : Z)
    (max_dimension : Z) (drawing_mode : string)
    (extract_pages : option (list Z)) (extreme_compression : bool)
  : M bytes :=
  (* 1) Open source and subset pages if requested *)
  page_count ← call (fitz_open (fitz w) input_pdf);
  '(keep, status_label) ← call (select_pages extract_pages page_count);
  set_status status_label;;
  set_progress 10;;
  build_work w keep quality max_dimension drawing_mode extreme_compression.

(** Stages 5 and 6 and the final update, from [pymupdf_bytes] on. *)
Definition distill_and_finish (t : Tools) (pymupdf_bytes : bytes)
    (extreme_compression : bool) : M unit :=
  (* 5) Ghostscript re-distill *)
  set_status "Applying Ghostscript compression...";;
  set_progress 90;;
  let gs_bytes := ghostscript_compress t pymupdf_bytes extreme_compression in
  (* 6) PikePDF optimize and linearize *)
  set_status "Optimizing final PDF structure...";;
  set_progress 95;;
  let final_bytes := pikepdf_optimize t gs_bytes in
  write (update_done final_bytes).

(** The [try] block of [process_job]. *)
Definition process_job_body (w : World) (input_pdf : string) (quality : Z)
    (max_dimension : Z) (drawing_mode : string)
    (extract_pages : option (list Z)) (extreme_compression : bool)
  : M unit :=
  set_status "Initializing...";;
  set_progress 5;;
  pymupdf_bytes ← assemble w input_pdf quality max_dimension drawing_mode
                    extract_pages extreme_compression;
  distill_and_finish (tools w) pymupdf_bytes extreme_compression.

Definition start_run (job : Job) : RunState :=
  {| current := job; history := [job]; work := empty_doc; events := [] |}.

(** A run of [process_job] on the record of the job: the [try] block, and
    the [except Exception] handler that records the error. *)
Definition run_job (w : World) (job : Job) (input_pdf : string) (quality : Z)
    (max_dimension : Z) (drawing_mode : string)
    (extract_pages : option (list Z)) (extreme_compression : bool)
  : RunState :=
  snd (try_except
         (process_job_body w input_pdf quality max_dimension drawing_mode
            extract_pages extreme_compression)
         (fun e => write (update_error e))
         (start_run job)).

(** Every value the job record takes during the run, in time order,
    starting with the record the run found. *)
Definition lifetime (w : World) (job : Job) (input_pdf : string)
    (quality : Z) (max_dimension : Z) (drawing_mode : string)
    (extract_pages : option (list Z)) (extreme_compression : bool)
  : list Job :=
  reverse (history (run_job w job input_pdf quality max_dimension
                      drawing_mode extract_pages extreme_compression)).

(** [process_job] on the registry.  Every access is [jobs[job_id]]: with
    no such job the first write raises [KeyError], and so does the handler,
    so the registry is left as it is. *)
Definition process_job (w : World) (jobs : gmap string Job) (job_id : string)
    (input_pdf : string) (quality : Z) (max_dimension : Z)
    (drawing_mode : string) (extract_pages : option (list Z))
    (extreme_compression : bool) : gmap string Job :=
  match jobs !! job_id with
  | None => jobs
  | Some job =>
      <[job_id := current (run_job w job input_pdf quality max_dimension
                             drawing_mode extract_pages extreme_compression)]>
        jobs
  end.

(** ** Form parsing *)

Definition lower_char (c : ascii) : ascii :=
  if in_range 65 90 c then ascii_of_N (code c + 32) else c.

(** [s.lower()] *)
Fixpoint lower (s : string) : string :=
  match s with
  | EmptyString => EmptyString
  | String c s' => String (lower_char c) (lower s')
  end.

Fixpoint lstrip (s : string) : string :=
  match s with
  | EmptyString => EmptyString
  | String c s' => if is_space c then lstrip s' else s
  end.

Fixpoint rstrip (s : string) : string :=
  match s with
  | EmptyString => EmptyString
  | String c s' =>
      let t := rstrip s' in
      if is_space c && String.eqb t "" then "" else String c t
  end.

(** [s.strip()] *)
Definition strip (s : string) : string := rstrip (lstrip s).

(** [s.split(sep)] for a one-character separator. *)
Fixpoint split (sep : ascii) (s : string) : list string :=
  match s with
  | EmptyString => [""]
  | String c s' =>
      if Ascii.eqb c sep then "" :: split sep s'
      else match split sep s' with
           | t :: ts => String c t :: ts
           | [] => [String c ""]
           end
  end.

Fixpoint all_digits (s : string) : bool :=
  match s with
  | EmptyString => true
  | String c s' => is_digit c && all_digits s'
  end.

(** [s.isdigit()]: at least one character, and digits only. *)
Definition isdigit (s : string) : bool :=
  negb (String.eqb s "") && all_digits s.

(** [s.endswith(suffix)] *)
Definition endswith (s suffix : string) : bool :=
  let n := String.length s in
  let k := String.length suffix in
  (k <=? n)%nat && String.eqb (String.substring (n - k) k s) suffix.

(** Decimal digits, with single underscores allowed between two digits;
    [seen] tells that the previous character was a digit. *)
Fixpoint digits_value (acc : Z) (seen : bool) (s : string) : option Z :=
  match s with
  | EmptyString => if seen then Some acc else None
  | String c s' =>
      if is_digit c
      then digits_value (10 * acc + (Z.of_N (code c) - 48)) true s'
      else if Ascii.eqb c "_" && seen then digits_value acc false s'
      else None
  end.

(** The blanks [int] skips around the digits of an ASCII string: TAB..CR
    and the blank.  FS..US, which [str.strip] removes, are not among
    them. *)
Definition is_int_space (c : ascii) : bool :=
  in_range 9 13 c || N.eqb (code c) 32.

Fixpoint int_lstrip (s : string) : string :=
  match s with
  | EmptyString => EmptyString
  | String c s' => if is_int_space c then int_lstrip s' else s
  end.

(** The longest prefix of digits and underscores, and what follows it. *)
Fixpoint scan_digits (s : string) : string * string :=
  match s with
  | EmptyString => ("", "")
  | String c s' =>
      if is_digit c || Ascii.eqb c "_"
      then let '(lit, rest) := scan_digits s' in (String c lit, rest)
      else ("", s)
  end.

(** The number of digits of a literal, underscores not counted. *)
Fixpoint digit_count (s : string) : nat :=
  match s with
  | EmptyString => 0%nat
  | String c s' => ((if is_digit c then 1 else 0) + digit_count s')%nat
  end.

(** The default of [sys.get_int_max_str_digits()]. *)
Definition max_str_digits : nat := 4300.

Definition hex_digit (n : N) : ascii :=
  if N.ltb n 10 then ascii_of_N (48 + n) else ascii_of_N (87 + n).

(** [repr(s)] on ASCII text: single quotes unless the text holds one and
    no double quote; the quote and the backslash are escaped, TAB, LF and
    CR are written with their letter, the other control characters in
    hexadecimal. *)
Definition repr_char (quote c : ascii) : string :=
  if Ascii.eqb c quote || N.eqb (code c) 92 then String (ascii_of_N 92) (String c "")
  else if N.eqb (code c) 9 then String (ascii_of_N 92) "t"
  else if N.eqb (code c) 10 then String (ascii_of_N 92) "n"
  else if N.eqb (code c) 13 then String (ascii_of_N 92) "r"
  else if N.ltb (code c) 32 || N.ltb 126 (code c)
  then String (ascii_of_N 92)
         (String "x" (String (hex_digit (code c / 16))
                        (String (hex_digit (code c mod 16)) "")))
  else String c "".

Fixpoint repr_body (quote : ascii) (s : string) : string :=
  match s with
  | EmptyString => EmptyString
  | String c s' => repr_char quote c +:+ repr_body quote s'
  end.

Definition py_repr (s : string) : string :=
  let quote :=
    if string_has (ascii_of_N 39) s && negb (string_has (ascii_of_N 34) s)
    then ascii_of_N 34 else ascii_of_N 39 in
  String quote (repr_body quote s +:+ String quote "").

(** [int(s)] on a string, in the order of the conversion: blanks are
    skipped, then an optional sign; the digits are scanned, with single
    underscores between them; a literal of more digits than the conversion
    limit is refused; and only blanks may follow.  A refused literal is
    named by its [repr], cut to 200 characters. *)
Definition int_of_str (s : string) : outcome Z :=
  let invalid :=
    Raises (ValueError
              ("invalid literal for int() with base 10: "
               +:+ String.substring 0 200 (py_repr s))) in
  let t := int_lstrip s in
  let '(negative, body) :=
    match t with
    | String "-" r => (true, r)
    | String "+" r => (false, r)
    | _ => (false, t)
    end in
  let '(lit, rest) := scan_digits body in
  match digits_value 0 false lit with
  | Some v =>
      if (max_str_digits <? digit_count lit)%nat
      then Raises (ValueError
             ("Exceeds the limit (4300 digits) for integer string conversion: value has "
              +:+ pretty (digit_count lit)
              +:+ " digits; use sys.set_int_max_str_digits() to increase the limit"))
      else if String.eqb (int_lstrip rest) ""
      then Returns (if negative : bool then - v else v)
      else invalid
  | None => invalid
  end.

(** [[int(p) for p in tokens if p.strip().isdigit()]] *)
Fixpoint int_tokens (tokens : list string) : outcome (list Z) :=
  match tokens with
  | [] => Returns []
  | p :: rest =>
      if isdigit (strip p) then
        match int_of_str p with
        | Raises e => Raises e
        | Returns v =>
            match int_tokens rest with
            | Raises e => Raises e
            | Returns vs => Returns (v :: vs)
            end
        end
      else int_tokens rest
  end.

(** The page list read from the [extract_pages] field, the argument being
    the field already stripped. *)
Definition parse_extract_pages (extract_pages_str : string)
  : outcome (list Z) :=
  if String.eqb extract_pages_str "" then Returns []
  else int_tokens (split "," extract_pages_str).

(** ** Files *)

(** The file system as the cleanup code sees it: the paths that exist, and
    those whose removal the system refuses ([os.remove] raises). *)
Record FileSystem : Type := mkFileSystem {
  existing : gset string;
  undeletable : gset string
}.

Definition os_remove (fs : FileSystem) (path : string) : outcome FileSystem :=
  if decide (path ∈ undeletable fs)
  then Raises (OtherError "PermissionError")
  else Returns {| existing := existing fs ∖ {[path]};
                  undeletable := undeletable fs |}.

Definition cleanup_temp_file (fs : FileSystem) (filepath : option string)
  : FileSystem :=
  match filepath with
  | None => fs
  | Some path =>
      if String.eqb path "" then fs
      else if decide (path ∈ existing fs) then
        match os_remove fs path with
        | Returns fs' => fs'
        | Raises _ => fs       (* logged as a warning *)
        end
      else fs
  end.

(** ** The registry and its routes *)

Record Server : Type := mkServer {
  jobs : gmap string Job;
  disk : FileSystem
}.

Record Upload : Type := mkUpload {
  filename : string
}.

Record Request : Type := mkRequest {
  files : gmap string Upload;
  form : gmap string string
}.

(** What a submission takes from its environment: the name of the
    temporary file, the outcome of writing the upload to it, the fresh
    token, the clock, and the outcome of [th.start()] (which raises when
    the system cannot start another thread). *)
Record SubmitEnv : Type := mkSubmitEnv {
  tmp_name : string;
  save_upload : outcome unit;
  uuid4_hex : string;
  time_now : Q;
  thread_start : outcome unit
}.

(** The arguments of the thread started by [compress]. *)
Record JobArgs : Type := mkJobArgs {
  arg_job_id : string;
  arg_input_pdf : string;
  arg_quality : Z;
  arg_max_dimension : Z;
  arg_drawing_mode : string;
  arg_extract_pages : list Z;
  arg_extreme_compression : bool
}.

Inductive Response : Type :=
| JsonError (http_code : Z) (msg : string)
| JsonJobId (job_id : string)
| JsonStatus (st : string) (prog : Z) (err : option string)
| JsonJobNotFound
| SendFile (data : bytes).

(** The record [compress] registers. *)
Definition new_job (now : Q) (inp_path : string) : Job :=
  {| status := "queued"; progress := 0; created_at := now;
     input_path := inp_path; error := None; output_buffer := None |}.

(** [int(request.form.get(key, default))] *)
Definition int_field (form : gmap string string) (key : string) (default : Z)
  : outcome Z :=
  match form !! key with
  | Some v => int_of_str v
  | None => Returns default
  end.

Definition add_file (path : string) (fs : FileSystem) : FileSystem :=
  {| existing := {[path]} ∪ existing fs; undeletable := undeletable fs |}.

Module Routes.

(** The form fields of [compress], in the order the code reads them. *)
Definition read_form (form : gmap string string)
  : outcome (Z * Z * string * list Z * bool) :=
  match int_field form "quality" 60 with
  | Raises e => Raises e
  | Returns quality =>
  match int_field form "max_dimension" 1000 with
  | Raises e => Raises e
  | Returns max_dimension =>
      let drawing_mode := default "general" (form !! "drawing_mode") in
      let extract_pages_str :=
        strip (default "" (form !! "extract_pages")) in
      let extreme_flag :=
        lower (default "false" (form !! "extreme_compression")) in
      let extreme_compression :=
        existsb (String.eqb extreme_flag) ["1"; "true"; "yes"; "on"] in
      match parse_extract_pages extract_pages_str with
      | Raises e => Raises e
      | Returns extract_pages =>
          Returns (quality, max_dimension, drawing_mode, extract_pages,
                   extreme_compression)
      end
  end end.

(** [POST /compress]: the response, the server afterwards, and the
    thread it started, if any. *)
Definition compress (env : SubmitEnv) (srv : Server) (req : Request)
  : Response * Server * option JobArgs :=
  match files req !! "file" with
  | None => (JsonError 400 "No file part", srv, None)
  | Some f =>
      if String.eqb (filename f) "" || negb (endswith (lower (filename f)) ".pdf")
      then (JsonError 400 "Please upload a PDF file", srv, None)
      else
        match read_form (form req) with
        | Raises e => (JsonError 500 (str_exn e), srv, None)
        | Returns (quality, max_dimension, drawing_mode, extract_pages,
                   extreme_compression) =>
            let inp_path := tmp_name env in
            let disk1 := add_file inp_path (disk srv) in
            match save_upload env with
            | Raises e =>
                (JsonError 500 (str_exn e),
                 {| jobs := jobs srv;
                    disk := cleanup_temp_file disk1 (Some inp_path) |},
                 None)
            | Returns _ =>
                let job_id := uuid4_hex env in
                let registered :=
                  <[job_id := new_job (time_now env) inp_path]> (jobs srv) in
                match thread_start env with
                | Raises e =>
                    (* the record is registered already, and stays *)
                    (JsonError 500 (str_exn e),
                     {| jobs := registered;
                        disk := cleanup_temp_file disk1 (Some inp_path) |},
                     None)
                | Returns _ =>
                    (JsonJobId job_id,
                     {| jobs := registered; disk := disk1 |},
                     Some {| arg_job_id := job_id; arg_input_pdf := inp_path;
                             arg_quality := quality;
                             arg_max_dimension := max_dimension;
                             arg_drawing_mode := drawing_mode;
                             arg_extract_pages := extract_pages;
                             arg_extreme_compression :=
                               extreme_compression |})
                end
            end
        end
  end.

(** [GET /download/<job_id>] *)
Definition download (srv : Server) (job_id : string) : Response :=
  match jobs srv !! job_id with
  | None => JsonError 404 "File not ready or found"
  | Some job =>
      match output_buffer job with
      | Some buf =>
          if String.eqb (status job) "done" then SendFile buf
          else JsonError 404 "File not ready or found"
      | None => JsonError 404 "File not ready or found"
      end
  end.

(** [GET /status/<job_id>] *)
Definition status (srv : Server) (job_id : string) : Response :=
  match jobs srv !! job_id with
  | None => JsonJobNotFound
  | Some job => JsonStatus (status job) (progress job) (error job)
  end.

End Routes.

(** The thread started by [compress], run to its end. *)
Definition run_thread (w : World) (srv : Server) (a : JobArgs) : Server :=
  {| jobs := process_job w (jobs srv) (arg_job_id a) (arg_input_pdf a)
               (arg_quality a) (arg_max_dimension a) (arg_drawing_mode a)
               (Some (arg_extract_pages a)) (arg_extreme_compression a);
     disk := disk srv |}.

(** ** The eviction sweep *)

(** [now - j["created_at"] > max_age_sec] *)
Definition expired (now : Q) (max_age_sec : Z) (j : Job) : bool :=
  match Qcompare (py_fsub now (created_at j)) (inject_Z max_age_sec) with
  | Gt => true
  | _ => false
  end.

(** The body of [for jid in to_remove]. *)
Definition evict (srv : Server) (jid : string) : Server :=
  match jobs srv !! jid with
  | None => srv
  | Some job =>
      {| jobs := delete jid (jobs srv);
         disk := cleanup_temp_file (disk srv) (Some (input_path job)) |}
  end.

Definition to_remove (jobs : gmap string Job) (now : Q) (max_age_sec : Z)
  : list string :=
  map fst (List.filter (fun kv => expired now max_age_sec (snd kv))
             (map_to_list jobs)).

Definition cleanup_old_jobs (now : Q) (max_age_sec : Z) (srv : Server)
  : Server :=
  foldl evict srv (to_remove (jobs srv) now max_age_sec).

(** ** Vocabulary of the statements *)

(** No entry of a table is hit. *)
Definition no_hit {A : Type} (hit : A -> bool) (table : list (string * A))
  : Prop :=
  Forall (fun kv => hit (snd kv) = false) table.

(** The character before the position that follows [s], [prev] being the
    one before [s]. *)
Fixpoint last_char (prev : option ascii) (s : string) : option ascii :=
  match s with
  | EmptyString => prev
  | String c s' => last_char (Some c) s'
  end.


(** A job record in the middle of a run: a stage label as status, no
    error, no output, progress at most 95. *)
Definition Running (j : Job) : Prop :=
  status j <> "done" /\ status j <> "error" /\
  error j = None /\ output_buffer j = None /\ progress j <= 95.

(** Progress never decreases along a history (latest first). *)
Fixpoint chain (l : list Job) : Prop :=
  match l with
  | [] => True
  | j' :: rest =>
      match rest with
      | [] => True
      | j :: _ => progress j <= progress j' /\ chain rest
      end
  end.

(** A state in the middle of a run, with the progress of the record
    between [lb] and [ub]. *)
Definition Good (lb ub : Z) (s : RunState) : Prop :=
  (exists older, history s = current s :: older) /\
  chain (history s) /\ Forall Running (history s) /\
  lb <= progress (current s) <= ub.

(** From a [Good lb ub] state, [m] returns in a [Good lb' ub'] state, or
    raises in a state that is still in the middle of a run. *)
Definition triple {A : Type} (lb ub : Z) (m : M A) (lb' ub' : Z) : Prop :=
  forall s, Good lb ub s ->
    match m s with
    | (Returns _, s') => Good lb' ub' s'
    | (Raises _, s') => Good lb 95 s'
    end.

(** The state after the final update of a successful run. *)
Definition Finished (s : RunState) : Prop :=
  exists s0 final_bytes,
    Good 0 95 s0 /\ s = snd (write (update_done final_bytes) s0).

Definition finishes {A : Type} (lb ub : Z) (m : M A) : Prop :=
  forall s, Good lb ub s ->
    match m s with
    | (Returns _, s') => Finished s'
    | (Raises _, s') => Good lb 95 s'
    end.

(** A computation that leaves the job record alone. *)
Definition silent {A : Type} (m : M A) : Prop :=
  forall s, history (snd (m s)) = history s /\ current (snd (m s)) = current s.

(** A chronological sequence of records whose progress never decreases:
    every record has at most the progress of every later one. *)
Definition nondecreasing (l : list Job) : Prop :=
  StronglySorted (fun a b => progress a <= progress b) l.

(** ** Sample environments

    Concrete environments on which the statements below are exercised. *)

(** A three-page source whose second page has a malformed link target;
    every page shows image 7, which has no bytes, and an image of its own,
    a 2000 x 1500 colour picture. *)
Definition sample_fitz : Fitz :=
  {| fitz_open := fun _ => Returns 3;
     insert_pdf := fun p links =>
       if (p =? 1) && links then Raises (ValueError "bad page number(s)")
       else Returns ();
     leaves_page := fun p links => links;
     get_images := fun page => Returns [10 + fst page; 7];
     extract_image := fun xref =>
       if xref =? 7 then Returns None else Returns (Some [Byte.x89]);
     image_open := fun _ => Returns (mkImage 2000 1500 "RGB");
     update_stream := fun _ _ => Returns ();
     doc_save := fun doc => Returns [Byte.x25; Byte.x50; Byte.x44; Byte.x46] |}.

Definition sample_pil : Pil :=
  {| exif_transpose := fun img => Returns img; thumbnail := box_fit |}.

(** No Ghostscript on the search path, and a pikepdf pass that fails. *)
Definition no_tools : Tools :=
  {| which := fun _ => None;
     run := fun _ _ => Raises (OtherError "No such file or directory");
     pikepdf_pass := fun _ => Raises (OtherError "pikepdf failure") |}.

Definition sample_world : World :=
  {| fitz := sample_fitz; pil := sample_pil; tools := no_tools |}.

(** The same source, but the plain copy of its first page fails with an
    exception that is not a [ValueError]; the copy without links of every
    page would succeed. *)
Definition broken_copy_world : World :=
  {| fitz :=
       {| fitz_open := fun _ => Returns 3;
          insert_pdf := fun p links =>
            if (p =? 0) && links then Raises (OtherError "cannot copy page")
            else Returns ();
          leaves_page := leaves_page sample_fitz;
          get_images := get_images sample_fitz;
          extract_image := extract_image sample_fitz;
          image_open := image_open sample_fitz;
          update_stream := update_stream sample_fitz;
          doc_save := doc_save sample_fitz |};
     pil := sample_pil; tools := no_tools |}.

(** A computation that only adds records to the history. *)
Definition grows {A : Type} (m : M A) : Prop :=
  forall s, exists added, history (snd (m s)) = (added ++ history s)%list.

(** The state in which page selection takes place. *)
Definition selecting (job : Job) : RunState :=
  snd (set_progress 5 (snd (set_status "Initializing..." (start_run job)))).

(** The state in which page copy starts. *)
Definition copying (job : Job) (status_label : string) : RunState :=
  snd (set_progress 10 (snd (set_status status_label (selecting job)))).

(** The final state of a job that fails at page selection: the handler
    runs in the state of the selection, on the error of [select_pages]. *)
Definition invalid_selection_failure (job : Job) : RunState :=
  snd (write (update_error (ValueError "No valid pages selected."))
         (selecting job)).

(** ** Vocabulary of page copying *)

Definition raises {A : Type} (o : outcome A) : bool :=
  match o with Raises _ => true | Returns _ => false end.

(** A page fails both copies. *)
Definition fails_both (f : Fitz) (p : Z) : bool :=
  raises (insert_pdf f p true) && raises (insert_pdf f p false).

(** The copy of a page escapes the loop body: the plain copy raises
    something else than [ValueError], or it raises [ValueError] and the
    copy without links raises too. *)
Definition copy_fails (f : Fitz) (p : Z) : bool :=
  match insert_pdf f p true with
  | Returns _ => false
  | Raises (ValueError _) => raises (insert_pdf f p false)
  | Raises (OtherError _) => true
  end.

(** What is expected of the loop body on one page, in time order: a
    plain copy, and after a [ValueError] a warning and a copy without
    links. *)
Definition page_events (f : Fitz) (p : Z) : list Event :=
  match insert_pdf f p true with
  | Raises (ValueError m) =>
      [InsertPdf p true; LinkWarning (p + 1) (ValueError m);
       InsertPdf p false]
  | _ => [InsertPdf p true]
  end.

(** The pages the loop reaches: all of them up to the first whose copy
    fails, included. *)
Fixpoint attempted (f : Fitz) (keep : list Z) : list Z :=
  match keep with
  | [] => []
  | p :: rest => if copy_fails f p then [p] else p :: attempted f rest
  end.

(** The page as it enters the working document. *)
Definition copied (f : Fitz) (p : Z) : Z * bool :=
  (p, negb (raises (insert_pdf f p true))).

(** What the loop body leaves in the working document for a page whose
    copy does not fail: the page left behind by a plain copy that raised
    after appending it, if any, and then the page as copied. *)
Definition copies (f : Fitz) (p : Z) : list (Z * bool) :=
  ((if raises (insert_pdf f p true) && leaves_page f p true
    then [(p, false)] else []) ++ [copied f p])%list.

(** A computation that emits no event, one that never raises, and one
    that can only raise once the progress of the record is at least [b]. *)
Definition eventless {A : Type} (m : M A) : Prop :=
  forall s, events (snd (m s)) = events s.

Definition total {A : Type} (m : M A) : Prop :=
  forall s, exists a, fst (m s) = Returns a.

Definition raises_above {A : Type} (b lb ub : Z) (m : M A) : Prop :=
  forall s, Good lb ub s ->
    match m s with
    | (Returns _, _) => True
    | (Raises _, s') => b <= progress (current s')
    end.

(** ** Vocabulary of image recompression *)


(** The image after the orientation step: transposed, or as it was when
    the transposition raises. *)
Definition normalized (pil : Pil) (img : Image) : Image :=
  match exif_transpose pil img with
  | Returns t => t
  | Raises _ => img
  end.

(** A registry with one job, submitted at time 0, whose input file the
    system refuses to remove (as for a file that is still open). *)
Definition locked_server : Server :=
  {| jobs := {[ "5f0c" := new_job 0 "/tmp/tmpa1.pdf" ]};
     disk := {| existing := {[ "/tmp/tmpa1.pdf" ]};
                undeletable := {[ "/tmp/tmpa1.pdf" ]} |} |}.

(** ** Vocabulary of the further properties *)

(** The twelve labels of the classifier. *)
Definition labels : list string :=
  [ "cover_title"; "architectural"; "structural"; "mechanical";
    "electrical"; "plumbing"; "landscape"; "civil"; "fire_safety";
    "details"; "schedules"; "other" ].

(** Some character of [s] satisfies [f]. *)
Fixpoint string_exists (f : ascii -> bool) (s : string) : bool :=
  match s with
  | EmptyString => false
  | String c s' => f c || string_exists f s'
  end.

(** The numbers, counted from [start], of the pages labelled [k]. *)
Fixpoint pages_labelled (k : string) (pages : list Page) (start : Z)
  : list Z :=
  match pages with
  | [] => []
  | page :: rest =>
      if String.eqb k (classify_page page)
      then start :: pages_labelled k rest (start + 1)
      else pages_labelled k rest (start + 1)
  end.

(** The administrative table without the keywords that contain another
    keyword of their own category. *)
Definition general_core : list (string * list string) :=
  [ ("cover_title", ["COVER"; "SHEET INDEX"; "GENERAL NOTES"; "LEGEND";
                     "ABBREVIATIONS"]);
    ("schedules",   ["SCHEDULE"]);
    ("details",     ["DETAIL"; "CONNECTION"; "ASSEMBLY"]) ].

(** The record left by the error handler for the exception [e], the
    progress being [p]. *)
Definition failed_at (j : Job) (e : exn) (p : Z) : Prop :=
  status j = "error" /\ error j = Some (str_exn e) /\ progress j = p.

(** The exception [e] is the one that escapes the copy of page [p]. *)
Definition copy_error (f : Fitz) (p : Z) (e : exn) : Prop :=
  (insert_pdf f p true = Raises e /\ is_ValueError e = false) \/
  (exists m, insert_pdf f p true = Raises (ValueError m) /\
             insert_pdf f p false = Raises e).

(** The working document when the image stage starts: what the copy loop
    left for the selected pages, the cleanup done in extreme mode, no
    stream replaced yet. *)
Definition assembled (f : Fitz) (keep : list Z) (ex : bool) : WorkDoc :=
  {| doc_pages := flat_map (copies f) keep; doc_cleaned := ex;
     doc_streams := [] |}.

(** The stream [enc] is what the image loop writes for [xref]: the image
    has bytes, opens, is recompressed to [enc], and the document accepts
    the new stream. *)
Definition recompressed (w : World) (max_dimension : Z) (drawing_mode : string)
    (quality : Z) (extreme_compression : bool) (xref : Z) (enc : Encoded)
  : Prop :=
  exists img_bytes im,
    extract_image (fitz w) xref = Returns (Some img_bytes) /\
    img_bytes <> [] /\
    image_open (fitz w) img_bytes = Returns im /\
    _resample_image (pil w) im max_dimension drawing_mode quality
      extreme_compression = Returns enc /\
    update_stream (fitz w) xref enc = Returns ().

(** A computation that leaves the observation [f] of the job record as
    it was. *)
Definition keeps {A X : Type} (f : Job -> X) (m : M A) : Prop :=
  forall s, f (current (snd (m s))) = f (current s).

(** The text has no character outside the ASCII range. *)
Definition is_ascii (s : string) : bool :=
  negb (string_exists (fun c => N.leb 128 (code c)) s).

(** ** The analysis route *)

Inductive AnalyzeResponse : Type :=
| AnalysisJson (a : Analysis)
| AnalyzeError (http_code : Z) (msg : string).

(** [POST /analyze]: the response, or the exception that leaves the view,
    and the server afterwards.  [open_doc] is what [fitz.open] finds at a
    path ([None] when the document cannot be read); an upload without a
    file name counts as no upload. *)
Definition analyze (env : SubmitEnv) (open_doc : string -> option (list Page))
    (srv : Server) (req : Request) : outcome AnalyzeResponse * Server :=
  match files req !! "file" with
  | None => (Returns (AnalyzeError 400 "Please upload a PDF file"), srv)
  | Some f =>
      if String.eqb (filename f) "" || negb (endswith (lower (filename f)) ".pdf")
      then (Returns (AnalyzeError 400 "Please upload a PDF file"), srv)
      else
        let tmp := tmp_name env in
        let disk1 := add_file tmp (disk srv) in
        let result :=
          match save_upload env with
          | Raises e => Raises e
          | Returns _ =>
              match analyze_pdf_pages (open_doc tmp) with
              | None => Returns (AnalyzeError 500 "Failed to analyze PDF")
              | Some analysis => Returns (AnalysisJson analysis)
              end
          end in
        (* finally: cleanup_temp_file(tmp) *)
        (result,
         {| jobs := jobs srv; disk := cleanup_temp_file disk1 (Some tmp) |})
  end.

(** The upload of a request has a name that ends in ".pdf", whatever the
    case. *)
Definition pdf_upload (req : Request) : bool :=
  match files req !! "file" with
  | None => false
  | Some f => endswith (lower (filename f)) ".pdf"
  end.

(** Successive calls of [cleanup_old_jobs], as the cleanup worker makes
    them, at the given readings of the clock, the registry being changed by
    nothing else in between. *)
Definition sweeps (times : list Q) (max_age_sec : Z) (srv : Server) : Server :=
  foldl (fun s now => cleanup_old_jobs now max_age_sec s) srv times.

(** The one-letter sheet prefixes with their labels, and the prefix of
    the fire-safety pattern. *)
Definition sheet_letters : list (string * ascii) :=
  [ ("cover_title", "G"%char); ("architectural", "A"%char);
    ("structural", "S"%char); ("mechanical", "M"%char);
    ("electrical", "E"%char); ("plumbing", "P"%char);
    ("landscape", "L"%char); ("civil", "C"%char);
    ("fire_safety", "F"%char) ].

(** A title block that reads [letter], [sep], [d]. *)
Definition sheet_number (letter sep d : ascii) : string :=
  String letter (String sep (String d "")).

(** A token that [int] reads as [str.strip] leaves it: it holds none of
    the characters FS..US, which only [str.strip] takes for blanks, and
    has no more characters, once stripped, than the conversion limit. *)
Definition plain_token (p : string) : bool :=
  negb (string_exists (in_range 28 31) p) &&
  (String.length (strip p) <=? max_str_digits)%nat.

(* ===================================================================== *)
(** * Part II: theorems                                                   *)
(* ===================================================================== *)

Example classify_A101 :
  classify_page (mkPage (Some "Sheet a-101") (Some "FLOOR PLAN S-2 a-101"))
  = "architectural".
Proof. reflexivity. Qed.

Example classify_structural :
  classify_page (mkPage (Some "") (Some "Structural foundation plan"))
  = "structural".
Proof. reflexivity. Qed.

Example classify_other :
  classify_page (mkPage (Some "") (Some "nothing here")) = "other".
Proof. reflexivity. Qed.

Example analysis_of_three_pages :
  analyze_pdf_pages
    (Some [ mkPage (Some "A-101") (Some "GROUND FLOOR A-101");
            mkPage (Some "") (Some "STRUCTURAL FOUNDATION PLAN");
            mkPage (Some "") (Some "nothing to see") ])
  = Some {| total_pages := 3;
            sections :=
              [ ("architectural", [1]); ("structural", [2]);
                ("mechanical", []); ("electrical", []); ("plumbing", []);
                ("landscape", []); ("civil", []); ("fire_safety", []);
                ("cover_title", []); ("details", []); ("schedules", []);
                ("other", [3]) ] |}.
Proof. reflexivity. Qed.

(** When one of the two extractions raises, both texts are empty: a sheet
    number in the corner is then not seen. *)
Example classify_extraction_failure :
  classify_page (mkPage (Some "A-101") None) = "other" /\
  classify_page (mkPage None (Some "FIRE ALARM")) = "other".
Proof. split; reflexivity. Qed.

Example search_needs_boundary :
  re_search (sheet_pattern "A") "DATA1" = false /\
  re_search (sheet_pattern "A") "DAT A.1" = true /\
  re_search (sheet_pattern "A") "A--1" = false /\
  re_search fire_pattern "FP-2" = true /\
  re_search fire_pattern "F2" = true /\
  re_search (sheet_pattern "P") "FP-2" = false.
Proof. repeat split; reflexivity. Qed.

(** ** The classifier *)

Section FirstKey.
Context {A : Type} (hit : A -> bool).

Lemma first_key_None table :
  first_key hit table = None <-> no_hit hit table.
Proof.
  unfold no_hit. induction table as [|[k v] rest IH]; simpl.
  - split; [constructor | reflexivity].
  - destruct (hit v) eqn:Hv.
    + split; [discriminate|]. inversion 1; simpl in *; congruence.
    + rewrite IH. split; [intros; constructor; assumption | inversion 1; assumption].
Qed.

Lemma first_key_Some table pre k v post :
  table = (pre ++ (k, v) :: post)%list ->
  no_hit hit pre ->
  hit v = true ->
  first_key hit table = Some k.
Proof.
  intros -> Hpre Hv. induction Hpre as [|[k' v'] pre Hkv _ IH]; simpl.
  - rewrite Hv. reflexivity.
  - simpl in Hkv. rewrite Hkv. exact IH.
Qed.

Lemma first_key_Some_inv table k :
  first_key hit table = Some k ->
  exists pre v post,
    table = (pre ++ (k, v) :: post)%list /\ no_hit hit pre /\ hit v = true.
Proof.
  induction table as [|[k' v'] rest IH]; simpl; [discriminate|].
  destruct (hit v') eqn:Hv.
  - intros [= ->]. exists [], v', rest. repeat split; [constructor | assumption].
  - intros H. destruct (IH H) as (pre & v & post & -> & Hpre & Hhit).
    exists ((k', v') :: pre), v, post. repeat split; [|assumption].
    constructor; assumption.
Qed.
End FirstKey.

Lemma append_nil_l (s : string) : "" +:+ s = s.
Proof. reflexivity. Qed.

Lemma append_cons (c : ascii) (s t : string) :
  String c s +:+ t = String c (s +:+ t).
Proof. reflexivity. Qed.

Ltac str_simpl :=
  repeat (rewrite ?append_nil_l, ?append_cons in *; simpl in * ).

(** The matcher against the text: [re_search] succeeds exactly when the
    pattern matches at some position of the text, the word boundary being
    decided by the character before that position. *)
Lemma search_from_spec (r : regex) (s : string) (prev : option ascii) :
  search_from r prev s = true <->
  exists before after,
    s = before +:+ after /\ match_here r (last_char prev before) after = true.
Proof.
  revert prev. induction s as [|c s IH]; intros prev; simpl.
  - rewrite orb_false_r. split.
    + intros H. exists "", "". split; [reflexivity | exact H].
    + intros (b & a & Heq & H). destruct b; [|discriminate].
      rewrite append_nil_l in Heq. subst a. exact H.
  - rewrite orb_true_iff, IH. split.
    + intros [H | (b & a & -> & H)].
      * exists "", (String c s). split; [reflexivity | exact H].
      * exists (String c b), a. split; [reflexivity | exact H].
    + intros (b & a & Heq & H). destruct b as [|c' b].
      * left. rewrite append_nil_l in Heq. subst a. exact H.
      * right. rewrite append_cons in Heq. injection Heq as -> ->.
        exists b, a. split; [reflexivity | exact H].
Qed.

(** A sheet-number pattern [\b[X][ -.]?\d] for a letter [X] finds the
    letter, not preceded by a word character, followed by a digit with at
    most one separator in between. *)
Lemma sheet_pattern_spec (letter : ascii) (text : string) :
  is_word letter = true ->
  re_search (sheet_pattern letter) text = true <->
  exists before d after,
    word_at (last_char None before) = false /\ is_digit d = true /\
    (text = before +:+ String letter (String d after) \/
     exists sep, is_sep sep = true /\
       text = before +:+ String letter (String sep (String d after))).
Proof.
  intros Hw. unfold re_search. rewrite search_from_spec. split.
  - intros (b & a & -> & H). simpl in H.
    apply andb_true_iff in H as [Hb H].
    destruct a as [|c1 a]; [discriminate|].
    apply andb_true_iff in H as [Hc1 H].
    apply Ascii.eqb_eq in Hc1. subst c1.
    unfold at_boundary in Hb. simpl in Hb. rewrite Hw in Hb.
    destruct (word_at (last_char None b)) eqn:Hl; [discriminate|].
    destruct a as [|c2 a]; [discriminate|].
    apply orb_true_iff in H as [H | H].
    + apply andb_true_iff in H as [Hsep H].
      destruct a as [|c3 a]; [discriminate|].
      apply andb_true_iff in H as [Hd _].
      exists b, c3, a. repeat split; try assumption.
      right. exists c2. split; [assumption | reflexivity].
    + apply andb_true_iff in H as [Hd _].
      exists b, c2, a. repeat split; try assumption. left. reflexivity.
  - intros (b & d & a & Hl & Hd & [-> | (sep & Hsep & ->)]).
    + exists b, (String letter (String d a)). split; [reflexivity|].
      simpl. unfold at_boundary. simpl. rewrite Hl, Hw, Hd.
      unfold is_char. rewrite Ascii.eqb_refl. simpl.
      destruct (is_sep d), a; simpl; try reflexivity; apply orb_true_r.
    + exists b, (String letter (String sep (String d a))). split; [reflexivity|].
      simpl. unfold at_boundary. simpl. rewrite Hl, Hw, Hd, Hsep.
      unfold is_char. rewrite Ascii.eqb_refl. reflexivity.
Qed.

(** [w in s]: [s] is [w] with something before and something after. *)
Lemma prefix_spec (w s : string) :
  String.prefix w s = true <-> exists after, s = w +:+ after.
Proof.
  revert w. induction s as [|c' s IH]; intros [|c w]; simpl.
  - split; [intros _; exists ""; reflexivity | reflexivity].
  - split; [discriminate | intros [a H]; discriminate].
  - split; [intros _; exists (String c' s); reflexivity | reflexivity].
  - destruct (ascii_dec c c') as [->|Hne].
    + rewrite IH. split; intros [a H]; exists a.
      * rewrite H. reflexivity.
      * rewrite append_cons in H. injection H as ->. reflexivity.
    + split; [discriminate|]. intros [a H]. rewrite append_cons in H.
      injection H as -> _. contradiction.
Qed.

Lemma str_in_spec (w s : string) :
  str_in w s = true <-> exists before after, s = before +:+ w +:+ after.
Proof.
  induction s as [|c s IH].
  - change (str_in w "") with (String.prefix w "" || false).
    rewrite orb_false_r, prefix_spec. split.
    + intros [a H]. exists "", a. exact H.
    + intros (b & a & H). destruct b; [exists a; exact H | discriminate].
  - change (str_in w (String c s))
      with (String.prefix w (String c s) || str_in w s).
    rewrite orb_true_iff, IH, prefix_spec. split.
    + intros [[a H] | (b & a & ->)].
      * exists "", a. exact H.
      * exists (String c b), a. reflexivity.
    + intros (b & a & H). destruct b as [|c' b].
      * left. exists a. exact H.
      * right. rewrite append_cons in H. injection H as -> ->.
        exists b, a. reflexivity.
Qed.

Lemma any_in_spec (text : string) (words : list string) :
  any_in text words = true <->
  exists w before after, In w words /\ text = before +:+ w +:+ after.
Proof.
  unfold any_in. rewrite existsb_exists. split.
  - intros (w & Hin & H). apply str_in_spec in H as (b & a & H). eauto 6.
  - intros (w & b & a & Hin & H). exists w. split; [assumption|].
    apply str_in_spec. eauto.
Qed.

(** C1. The sheet-number patterns are tried on the title-block text first,
    in the order cover_title, architectural, structural, mechanical,
    electrical, plumbing, landscape, civil, fire_safety, and the label of
    the first pattern that matches there is returned whatever the full-page
    text is; the same patterns are tried in the same order on the full-page
    text only when none matches the title-block text. *)
Theorem classify_page_title_block_first (p : Page) :
  map fst patterns =
    ["cover_title"; "architectural"; "structural"; "mechanical";
     "electrical"; "plumbing"; "landscape"; "civil"; "fire_safety"] /\
  (forall pre k pat post,
     patterns = (pre ++ (k, pat) :: post)%list ->
     no_hit (fun r => re_search r (corner_text p)) pre ->
     re_search pat (corner_text p) = true ->
     classify_page p = k /\
     forall q, corner_text q = corner_text p -> classify_page q = k) /\
  (no_hit (fun r => re_search r (corner_text p)) patterns ->
   forall pre k pat post,
     patterns = (pre ++ (k, pat) :: post)%list ->
     no_hit (fun r => re_search r (full_text p)) pre ->
     re_search pat (full_text p) = true ->
     classify_page p = k).
Proof.
  split; [reflexivity|]. split.
  - intros pre k pat post Hpat Hpre Hhit.
    assert (H : forall q, corner_text q = corner_text p -> classify_page q = k).
    { intros q Hq. unfold classify_page. rewrite Hq.
      rewrite (first_key_Some _ _ _ _ _ _ Hpat Hpre Hhit). reflexivity. }
    split; [apply H; reflexivity | exact H].
  - intros Hnone pre k pat post Hpat Hpre Hhit. unfold classify_page.
    apply first_key_None in Hnone. rewrite Hnone.
    rewrite (first_key_Some _ _ _ _ _ _ Hpat Hpre Hhit). reflexivity.
Qed.

Lemma classify_page_title_block_first_witness :
  classify_page (mkPage (Some "Sheet a-101") (Some "S-2 FIRE ALARM PLAN"))
    = "architectural" /\
  classify_page (mkPage (Some "no number") (Some "see s.2 and A1"))
    = "architectural".
Proof.
  split.
  - refine (proj1 (proj1 (proj2 (classify_page_title_block_first
             (mkPage (Some "Sheet a-101") (Some "S-2 FIRE ALARM PLAN"))))
             [("cover_title", sheet_pattern "G")] "architectural"
             (sheet_pattern "A") (skipn 2 patterns) _ _ _));
      [reflexivity | repeat constructor | reflexivity].
  - apply (proj2 (proj2 (classify_page_title_block_first
             (mkPage (Some "no number") (Some "see s.2 and A1")))))
      with (pre := [("cover_title", sheet_pattern "G")])
           (pat := sheet_pattern "A") (post := skipn 2 patterns);
      [repeat constructor | reflexivity | repeat constructor | reflexivity].
Defined.

(** C7. With no sheet-number pattern matching the title-block text or the
    full-page text, the label is the first discipline, in the order
    fire_safety, mechanical, electrical, plumbing, civil, architectural,
    structural, landscape, one of whose keywords occurs in the full-page
    text; failing that the first of cover_title, schedules, details with
    such a keyword; failing that "other". *)
Theorem classify_page_keywords (p : Page) :
  no_hit (fun r => re_search r (corner_text p)) patterns ->
  no_hit (fun r => re_search r (full_text p)) patterns ->
  map fst discipline_keywords =
    ["fire_safety"; "mechanical"; "electrical"; "plumbing"; "civil";
     "architectural"; "structural"; "landscape"] /\
  map fst general = ["cover_title"; "schedules"; "details"] /\
  (forall pre k words post,
     discipline_keywords = (pre ++ (k, words) :: post)%list ->
     no_hit (any_in (full_text p)) pre ->
     (exists w before after,
        In w words /\ full_text p = before +:+ w +:+ after) ->
     classify_page p = k) /\
  (no_hit (any_in (full_text p)) discipline_keywords ->
   forall pre k words post,
     general = (pre ++ (k, words) :: post)%list ->
     no_hit (any_in (full_text p)) pre ->
     (exists w before after,
        In w words /\ full_text p = before +:+ w +:+ after) ->
     classify_page p = k) /\
  (no_hit (any_in (full_text p)) discipline_keywords ->
   no_hit (any_in (full_text p)) general ->
   classify_page p = "other").
Proof.
  intros Hc Hf. apply first_key_None in Hc, Hf.
  split; [reflexivity|]. split; [reflexivity|].
  unfold classify_page. rewrite Hc, Hf. repeat split.
  - intros pre k words post Htab Hpre Hhit. apply any_in_spec in Hhit.
    rewrite (first_key_Some _ _ _ _ _ _ Htab Hpre Hhit). reflexivity.
  - intros Hd pre k words post Htab Hpre Hhit. apply any_in_spec in Hhit.
    apply first_key_None in Hd. rewrite Hd.
    rewrite (first_key_Some _ _ _ _ _ _ Htab Hpre Hhit). reflexivity.
  - intros Hd Hg. apply first_key_None in Hd, Hg. rewrite Hd, Hg. reflexivity.
Qed.

Lemma classify_page_keywords_witness :
  classify_page (mkPage (Some "") (Some "Structural foundation plan"))
    = "structural" /\
  classify_page (mkPage (Some "") (Some "door schedule and details"))
    = "schedules" /\
  classify_page (mkPage None (Some "A-101")) = "other".
Proof.
  split; [|split].
  - apply (proj1 (proj2 (proj2 (classify_page_keywords
             (mkPage (Some "") (Some "Structural foundation plan"))
             ltac:(repeat constructor) ltac:(repeat constructor)))))
      with (pre := firstn 6 discipline_keywords)
           (words := ["STRUCTURAL"; "FOUNDATION"; "FRAMING"])
           (post := skipn 7 discipline_keywords);
      [reflexivity | repeat constructor |].
    exists "STRUCTURAL", "", " FOUNDATION PLAN". split; [left|]; reflexivity.
  - apply (proj1 (proj2 (proj2 (proj2 (classify_page_keywords
             (mkPage (Some "") (Some "door schedule and details"))
             ltac:(repeat constructor) ltac:(repeat constructor))))))
      with (pre := firstn 1 general)
           (words := ["SCHEDULE"; "DOOR SCHEDULE"; "WINDOW SCHEDULE";
                      "FINISH SCHEDULE"])
           (post := skipn 2 general);
      [repeat constructor | reflexivity | repeat constructor |].
    exists "SCHEDULE", "DOOR ", " AND DETAILS". split; [left|]; reflexivity.
  - apply (proj2 (proj2 (proj2 (proj2 (classify_page_keywords
             (mkPage None (Some "A-101"))
             ltac:(repeat constructor) ltac:(repeat constructor))))));
      repeat constructor.
Defined.

(** ** Binary64 rounding is monotone *)

Section Rounding.
Local Open Scope Q_scope.

Lemma pow2_pos e : 0 < pow2 e.
Proof. apply Qpower_0_lt. reflexivity. Qed.

Lemma pow2_add a b : pow2 (a + b) == pow2 a * pow2 b.
Proof. apply Qpower_plus. discriminate. Qed.

Lemma pow2_le a b : (a <= b)%Z -> pow2 a <= pow2 b.
Proof. intros H. apply Qpower_le_compat_l; [exact H | discriminate]. Qed.

Lemma pow2_lt_inv a b : pow2 a < pow2 b -> (a < b)%Z.
Proof.
  intros H. destruct (Z_lt_le_dec a b) as [|Hle]; [assumption|].
  apply pow2_le in Hle. lra.
Qed.

Lemma pow2_inject k : (0 <= k)%Z -> pow2 k == inject_Z (2 ^ k).
Proof.
  intros H. unfold pow2. rewrite Zpower_Qpower by assumption. reflexivity.
Qed.

Lemma Q_as_div (q : Q) : q == inject_Z (Qnum q) / inject_Z (Zpos (Qden q)).
Proof. destruct q as [n d]. simpl. apply Qmake_Qdiv. Qed.

Lemma log2_bounds (n : Z) :
  (0 < n)%Z ->
  pow2 (Z.log2 n) <= inject_Z n /\ inject_Z n < pow2 (Z.log2 n + 1).
Proof.
  intros Hn. destruct (Z.log2_spec n Hn) as [Hlo Hhi].
  pose proof (Z.log2_nonneg n) as Hnn.
  rewrite !pow2_inject by lia. rewrite <- Zle_Qle, <- Zlt_Qlt.
  replace (Z.log2 n + 1)%Z with (Z.succ (Z.log2 n)) by lia.
  split; assumption.
Qed.

(** [mag q] is the binary order of magnitude of [q]. *)
Lemma mag_spec (q : Q) : 0 < q -> pow2 (mag q - 1) <= q /\ q < pow2 (mag q).
Proof.
  intros Hq.
  assert (Hn : (0 < Qnum q)%Z).
  { destruct q as [n d]. unfold Qlt in Hq. simpl in *. lia. }
  destruct (log2_bounds (Qnum q) Hn) as [Hn1 Hn2].
  destruct (log2_bounds (Zpos (Qden q)) eq_refl) as [Hd1 Hd2].
  set (ln := Z.log2 (Qnum q)) in *.
  set (ld := Z.log2 (Zpos (Qden q))) in *.
  assert (HD : 0 < inject_Z (Zpos (Qden q))) by (rewrite <- (Zlt_Qlt 0); lia).
  pose proof (Q_as_div q) as Hdiv.
  set (N := inject_Z (Qnum q)) in *.
  set (D := inject_Z (Zpos (Qden q))) in *.
  assert (Hup : q < pow2 (ln - ld + 1)).
  { rewrite Hdiv. apply Qlt_shift_div_r; [exact HD|].
    assert (E : pow2 (ln + 1) == pow2 (ln - ld + 1) * pow2 ld).
    { rewrite <- pow2_add.
      replace (ln - ld + 1 + ld)%Z with (ln + 1)%Z by lia. reflexivity. }
    pose proof (pow2_pos (ln - ld + 1)). pose proof (pow2_pos ld).
    rewrite E in Hn2. nra. }
  assert (Hlow : pow2 (ln - ld - 1) < q).
  { rewrite Hdiv. apply Qlt_shift_div_l; [exact HD|].
    assert (E : pow2 (ln - ld - 1) * pow2 (ld + 1) == pow2 ln).
    { rewrite <- pow2_add.
      replace (ln - ld - 1 + (ld + 1))%Z with ln by lia. reflexivity. }
    pose proof (pow2_pos (ln - ld - 1)). pose proof (pow2_pos (ld + 1)).
    rewrite <- E in Hn1. nra. }
  unfold mag. fold ln. fold ld.
  destruct (Qcompare q (pow2 (ln - ld))) eqn:C.
  - apply Qeq_alt in C. replace (ln - ld + 1 - 1)%Z with (ln - ld)%Z by lia.
    split; [rewrite C; apply Qle_refl | exact Hup].
  - apply Qlt_alt in C. split; [apply Qlt_le_weak; exact Hlow | exact C].
  - apply Qgt_alt in C. replace (ln - ld + 1 - 1)%Z with (ln - ld)%Z by lia.
    split; [apply Qlt_le_weak; exact C | exact Hup].
Qed.

Lemma mag_mono (p q : Q) : 0 < p -> p <= q -> (mag p <= mag q)%Z.
Proof.
  intros Hp Hpq.
  destruct (mag_spec p Hp) as [Hp1 _].
  destruct (mag_spec q) as [_ Hq2]; [lra|].
  assert (H : pow2 (mag p - 1) < pow2 (mag q)) by lra.
  apply pow2_lt_inv in H. lia.
Qed.

Ltac qcmp :=
  match goal with
  | H : Qcompare _ _ = Eq |- _ => apply Qeq_alt in H
  | H : Qcompare _ _ = Lt |- _ => apply Qlt_alt in H
  | H : Qcompare _ _ = Gt |- _ => apply Qgt_alt in H
  end.

Lemma rne_bounds x : (Qfloor x <= rne x <= Qfloor x + 1)%Z.
Proof.
  unfold rne. destruct (Qcompare _ _); [destruct (Z.even _)| |]; lia.
Qed.

Lemma rne_mono x y : x <= y -> (rne x <= rne y)%Z.
Proof.
  intros Hxy. pose proof (Qfloor_resp_le x y Hxy) as Hf.
  pose proof (rne_bounds x). pose proof (rne_bounds y).
  destruct (Z.eq_dec (Qfloor x) (Qfloor y)) as [E|NE]; [|lia].
  unfold rne in *. rewrite <- E in *.
  destruct (Qcompare (x - inject_Z (Qfloor x)) (1#2)) eqn:Cx;
  destruct (Qcompare (y - inject_Z (Qfloor x)) (1#2)) eqn:Cy;
    try (destruct (Z.even (Qfloor x))); try lia;
    repeat qcmp; exfalso; lra.
Qed.

Lemma rne_inject z : rne (inject_Z z) = z.
Proof.
  unfold rne. rewrite Qfloor_Z.
  destruct (Qcompare (inject_Z z - inject_Z z) (1#2)) eqn:C;
    [qcmp; exfalso; lra | reflexivity | qcmp; exfalso; lra].
Qed.

Lemma scaled_lt_pow2 q : 0 < q -> q / pow2 (cexp q) < pow2 prec.
Proof.
  intros Hq. destruct (mag_spec q Hq) as [_ H].
  apply Qlt_shift_div_r; [apply pow2_pos|].
  rewrite <- pow2_add.
  eapply Qlt_le_trans; [exact H|]. apply pow2_le. unfold cexp. lia.
Qed.

Lemma scaled_ge_pow2 q :
  0 < q -> (emin < cexp q)%Z -> pow2 (prec - 1) <= q / pow2 (cexp q).
Proof.
  intros Hq He. destruct (mag_spec q Hq) as [H _].
  apply Qle_shift_div_l; [apply pow2_pos|].
  rewrite <- pow2_add.
  eapply Qle_trans; [|exact H]. apply pow2_le. unfold cexp in *. lia.
Qed.

(** Rounding keeps the order: within one binade the scaled values are
    rounded to integers in order, and across binades the power of two
    between them separates the results. *)
Lemma round_pos_mono p q : 0 < p -> p <= q -> round_pos p <= round_pos q.
Proof.
  intros Hp Hpq. assert (Hq : 0 < q) by lra.
  pose proof (mag_mono p q Hp Hpq) as Hm.
  assert (He : (cexp p <= cexp q)%Z) by (unfold cexp; lia).
  unfold round_pos.
  destruct (Z.eq_dec (cexp p) (cexp q)) as [E|NE].
  - rewrite E. apply Qmult_le_compat_r; [|apply Qlt_le_weak, pow2_pos].
    rewrite <- Zle_Qle. apply rne_mono.
    apply Qmult_le_compat_r; [exact Hpq|].
    apply Qlt_le_weak, Qinv_lt_0_compat, pow2_pos.
  - assert (H1 : (rne (p / pow2 (cexp p)) <= 2 ^ prec)%Z).
    { rewrite <- (rne_inject (2 ^ prec)). apply rne_mono.
      rewrite <- pow2_inject by (unfold prec; lia).
      apply Qlt_le_weak, scaled_lt_pow2, Hp. }
    assert (H2 : (2 ^ (prec - 1) <= rne (q / pow2 (cexp q)))%Z).
    { rewrite <- (rne_inject (2 ^ (prec - 1))). apply rne_mono.
      rewrite <- pow2_inject by (unfold prec; lia).
      apply scaled_ge_pow2; [exact Hq|]. unfold cexp in *. lia. }
    apply Qle_trans with (pow2 prec * pow2 (cexp p)).
    { apply Qmult_le_compat_r; [|apply Qlt_le_weak, pow2_pos].
      setoid_rewrite (pow2_inject prec); [|unfold prec; lia].
      rewrite <- Zle_Qle. exact H1. }
    apply Qle_trans with (pow2 (prec - 1) * pow2 (cexp q)).
    { rewrite <- !pow2_add. apply pow2_le. lia. }
    apply Qmult_le_compat_r; [|apply Qlt_le_weak, pow2_pos].
    setoid_rewrite (pow2_inject (prec - 1)); [|unfold prec; lia].
    rewrite <- Zle_Qle. exact H2.
Qed.

Lemma round_pos_nonneg q : 0 < q -> 0 <= round_pos q.
Proof.
  intros Hq. unfold round_pos.
  apply Qmult_le_0_compat; [|apply Qlt_le_weak, pow2_pos].
  rewrite <- (Zle_Qle 0). pose proof (rne_bounds (q / pow2 (cexp q))).
  assert (0 <= Qfloor (q / pow2 (cexp q)))%Z; [|lia].
  rewrite <- (Qfloor_Z 0). apply Qfloor_resp_le.
  apply Qle_shift_div_l; [apply pow2_pos|].
  change (inject_Z 0) with 0%Q. rewrite Qmult_0_l. lra.
Qed.

Lemma rn64_nonneg q : 0 <= q -> 0 <= rn64 q.
Proof.
  intros Hq. unfold rn64. destruct (Qcompare q 0) eqn:C; qcmp.
  - apply Qle_refl.
  - exfalso; lra.
  - apply round_pos_nonneg. exact C.
Qed.

Lemma rn64_mono p q : 0 <= p -> p <= q -> rn64 p <= rn64 q.
Proof.
  intros Hp Hpq. unfold rn64 at 1. destruct (Qcompare p 0) eqn:C; qcmp.
  - apply rn64_nonneg. lra.
  - exfalso; lra.
  - unfold rn64. destruct (Qcompare q 0) eqn:C'; qcmp; try (exfalso; lra).
    apply round_pos_mono; assumption.
Qed.

Lemma py_int_floor x : 0 <= x -> py_int x = Qfloor x.
Proof.
  destruct x as [n d]. unfold Qle, py_int. simpl. intros H.
  apply Z.quot_div_nonneg; lia.
Qed.

Lemma py_int_mono x y : 0 <= x -> x <= y -> (py_int x <= py_int y)%Z.
Proof.
  intros Hx Hxy. rewrite !py_int_floor by lra. apply Qfloor_resp_le, Hxy.
Qed.

Lemma py_int_nonneg x : 0 <= x -> (0 <= py_int x)%Z.
Proof.
  intros Hx. rewrite py_int_floor by assumption.
  rewrite <- (Qfloor_Z 0). apply Qfloor_resp_le. exact Hx.
Qed.
End Rounding.

(** ** Progress of the image loop *)

Section ImageProgress.
Local Open Scope Q_scope.

Lemma rn64_one : rn64 1 <= 1.
Proof. apply Qle_bool_iff. vm_compute. reflexivity. Qed.

Lemma rn64_sixty : rn64 60 <= 60.
Proof. apply Qle_bool_iff. vm_compute. reflexivity. Qed.

Lemma quotient_mono (i j t : Z) :
  (0 <= i <= j)%Z -> (1 <= t)%Z ->
  0 <= inject_Z i / inject_Z t /\
  inject_Z i / inject_Z t <= inject_Z j / inject_Z t.
Proof.
  intros Hij Ht.
  assert (H0 : 0 < inject_Z t) by (rewrite <- (Zlt_Qlt 0); lia).
  assert (Hi : 0 <= inject_Z i) by (rewrite <- (Zle_Qle 0); lia).
  assert (Hle : inject_Z i <= inject_Z j) by (rewrite <- Zle_Qle; lia).
  split.
  - apply Qle_shift_div_l; [exact H0|]. rewrite Qmult_0_l. exact Hi.
  - apply Qmult_le_compat_r; [exact Hle|].
    apply Qlt_le_weak, Qinv_lt_0_compat, H0.
Qed.

Lemma py_truediv_mono (i j t : Z) :
  (0 <= i <= j)%Z -> (1 <= t)%Z ->
  0 <= py_truediv i t /\ py_truediv i t <= py_truediv j t.
Proof.
  intros Hij Ht. destruct (quotient_mono i j t Hij Ht) as [H0 H1].
  unfold py_truediv. split; [apply rn64_nonneg | apply rn64_mono]; assumption.
Qed.

Lemma py_truediv_le_one (i t : Z) :
  (0 <= i <= t)%Z -> (1 <= t)%Z -> py_truediv i t <= 1.
Proof.
  intros Hi Ht. eapply Qle_trans; [|exact rn64_one].
  destruct (quotient_mono i t t Hi Ht) as [H0 H1].
  unfold py_truediv. apply rn64_mono; [exact H0|].
  eapply Qle_trans; [exact H1|].
  assert (H : ~ inject_Z t == 0).
  { intros E. assert (0 < inject_Z t) by (rewrite <- (Zlt_Qlt 0); lia). lra. }
  unfold Qdiv. rewrite Qmult_inv_r by exact H. apply Qle_refl.
Qed.
End ImageProgress.

Lemma image_progress_mono (i j total : Z) :
  1 <= i <= j -> image_progress i total <= image_progress j total.
Proof.
  intros Hij. unfold image_progress, py_fmul.
  destruct (py_truediv_mono i j (Z.max 1 total)) as [H0 H1]; [lia | lia |].
  assert (H : py_int (rn64 (py_truediv i (Z.max 1 total) * 60))
              <= py_int (rn64 (py_truediv j (Z.max 1 total) * 60))).
  { apply py_int_mono.
    - apply rn64_nonneg. lra.
    - apply rn64_mono; lra. }
  lia.
Qed.

Lemma image_progress_bounds (idx total : Z) :
  1 <= idx <= total -> 20 <= image_progress idx total <= 80.
Proof.
  intros Hi. unfold image_progress, py_fmul.
  destruct (py_truediv_mono idx idx (Z.max 1 total)) as [H0 _]; [lia | lia |].
  pose proof (py_truediv_le_one idx (Z.max 1 total)) as H1.
  assert (0 <= py_int (rn64 (py_truediv idx (Z.max 1 total) * 60)) <= 60).
  { split.
    - apply py_int_nonneg, rn64_nonneg. lra.
    - change 60 with (py_int 60) at 2. apply py_int_mono.
      + apply rn64_nonneg. lra.
      + eapply Qle_trans; [|exact rn64_sixty].
        apply rn64_mono; [lra|]. assert (py_truediv idx (Z.max 1 total) <= 1)%Q by (apply H1; lia). lra. }
  lia.
Qed.

(** The rounding model agrees with the reference binary64 operations on
    every image count up to 40. *)
Example rounding_agrees_with_reference :
  forallb (fun it => Qeq_bool (py_fmul (py_truediv (fst it) (snd it)) 60)
                       (ieee_fraction (fst it) (snd it)))
    (index_pairs 40) = true.
Proof. vm_compute. reflexivity. Qed.

Example image_progress_values :
  map (fun idx => image_progress idx 3) [1; 2; 3] = [40; 60; 80] /\
  map (fun idx => image_progress idx 7) [1; 2; 3; 4; 5; 6; 7]
    = [28; 37; 45; 54; 62; 71; 80].
Proof. split; vm_compute; reflexivity. Qed.

(** ** A program logic for the runs *)

Lemma bind_unfold {A B : Type} (m : M A) (f : A -> M B) (s : RunState) :
  (m ≫= f) s =
  match m s with
  | (Returns a, s') => f a s'
  | (Raises e, s') => (Raises e, s')
  end.
Proof. reflexivity. Qed.

Lemma Good_weaken lb ub lb' ub' s :
  Good lb ub s -> lb' <= lb -> ub <= ub' -> Good lb' ub' s.
Proof. intros (H1 & H2 & H3 & H4) ? ?. repeat split; try assumption; lia. Qed.

Lemma Good_le_95 lb ub s : Good lb ub s -> Good lb 95 s.
Proof.
  intros (H1 & H2 & H3 & H4). repeat split; try assumption; try lia.
  destruct H1 as [older E]. rewrite E in H3. inversion H3 as [|? ? Hr _]; subst.
  destruct Hr as (_ & _ & _ & _ & Hr). exact Hr.
Qed.

Lemma Good_current_Running lb ub s : Good lb ub s -> Running (current s).
Proof.
  intros ([older E] & _ & H3 & _). rewrite E in H3. inversion H3; assumption.
Qed.

Lemma silent_ret {A : Type} (a : A) : silent (mret a : M A).
Proof. intros s. split; reflexivity. Qed.

Lemma silent_call {A : Type} (o : outcome A) : silent (call o).
Proof. intros s. split; reflexivity. Qed.

Lemma silent_emit ev : silent (emit ev).
Proof. intros s. split; reflexivity. Qed.

Lemma silent_update_work f : silent (update_work f).
Proof. intros s. split; reflexivity. Qed.

Lemma silent_get_work : silent get_work.
Proof. intros s. split; reflexivity. Qed.

Lemma silent_bind {A B : Type} (m : M A) (f : A -> M B) :
  silent m -> (forall a, silent (f a)) -> silent (m ≫= f).
Proof.
  intros Hm Hf s. rewrite bind_unfold. specialize (Hm s).
  destruct (m s) as [[a|e] s']; simpl in *; [|exact Hm].
  destruct (Hf a s') as [H1 H2]. destruct Hm as [H3 H4].
  split; congruence.
Qed.

Lemma silent_try_except {A : Type} (m : M A) (h : exn -> M A) :
  silent m -> (forall e, silent (h e)) -> silent (try_except m h).
Proof.
  intros Hm Hh s. unfold try_except. specialize (Hm s).
  destruct (m s) as [[a|e] s']; simpl in *; [exact Hm|].
  destruct (Hh e s') as [H1 H2]. destruct Hm as [H3 H4].
  split; congruence.
Qed.

Lemma silent_try_except_ValueError {A : Type} (m : M A) (h : exn -> M A) :
  silent m -> (forall e, silent (h e)) -> silent (try_except_ValueError m h).
Proof.
  intros Hm Hh s. unfold try_except_ValueError. specialize (Hm s).
  destruct (m s) as [[a|e] s']; simpl in *; [exact Hm|].
  destruct (is_ValueError e); [|exact Hm].
  destruct (Hh e s') as [H1 H2]. destruct Hm as [H3 H4].
  split; congruence.
Qed.

Create HintDb silent.

Lemma silent_insert_page f p links : silent (insert_page f p links).
Proof.
  intros s. unfold insert_page.
  destruct (insert_pdf f p links); [split; reflexivity|].
  destruct (leaves_page f p links); split; reflexivity.
Qed.

#[local] Hint Resolve silent_ret silent_call silent_emit silent_update_work
  silent_get_work silent_insert_page : silent.

Ltac silent_tac :=
  repeat match goal with
    | |- silent (mbind _ _) => apply silent_bind; [|intros ?]
    | |- silent (try_except_ValueError _ _) =>
        apply silent_try_except_ValueError; [|intros ?]
    | |- silent (try_except _ _) => apply silent_try_except; [|intros ?]
    | |- silent _ => solve [auto with silent]
    end.

Lemma silent_copy_page f p : silent (copy_page f p).
Proof. unfold copy_page. silent_tac. Qed.

Lemma silent_copy_pages f keep : silent (copy_pages f keep).
Proof.
  induction keep as [|p rest IH]; simpl; [apply silent_ret|].
  apply silent_bind; [apply silent_copy_page | intros _; exact IH].
Qed.

Lemma silent_extreme_cleanup : silent extreme_cleanup.
Proof. apply silent_update_work. Qed.

Lemma silent_recompress_image w xref d mode q ex :
  silent (recompress_image w xref d mode q ex).
Proof.
  unfold recompress_image. apply silent_try_except; [|intros; apply silent_ret].
  apply silent_bind; [apply silent_call|]. intros [[|b bs]|]; silent_tac.
Qed.

Lemma silent_Good {A : Type} (m : M A) lb ub s :
  silent m -> Good lb ub s -> Good lb ub (snd (m s)).
Proof.
  intros Hm (H1 & H2 & H3 & H4). destruct (Hm s) as [Hh Hc].
  unfold Good. rewrite Hh, Hc. repeat split; try assumption; apply H4.
Qed.

Lemma triple_silent {A : Type} (m : M A) lb ub :
  silent m -> triple lb ub m lb ub.
Proof.
  intros Hm s Hs. pose proof (silent_Good m lb ub s Hm Hs) as H.
  destruct (m s) as [[a|e] s']; simpl in H; [exact H|].
  eapply Good_le_95; exact H.
Qed.

Lemma triple_bind {A B : Type} (m : M A) (f : A -> M B) lb ub lb1 ub1 lb2 ub2 :
  triple lb ub m lb1 ub1 -> lb <= lb1 ->
  (forall a, triple lb1 ub1 (f a) lb2 ub2) ->
  triple lb ub (m ≫= f) lb2 ub2.
Proof.
  intros Hm Hle Hf s Hs. rewrite bind_unfold. specialize (Hm s Hs).
  destruct (m s) as [[a|e] s']; [|exact Hm].
  specialize (Hf a s' Hm). destruct (f a s') as [[b|e] s'']; [exact Hf|].
  eapply Good_weaken; [exact Hf | exact Hle | lia].
Qed.

Lemma triple_post {A : Type} (m : M A) lb ub lb1 ub1 lb2 ub2 :
  triple lb ub m lb1 ub1 -> lb2 <= lb1 -> ub1 <= ub2 ->
  triple lb ub m lb2 ub2.
Proof.
  intros Hm H1 H2 s Hs. specialize (Hm s Hs).
  destruct (m s) as [[a|e] s']; [|exact Hm].
  eapply Good_weaken; eassumption.
Qed.

Lemma Good_write lb ub v (f : Job -> Job) s :
  Good lb ub s ->
  Running (f (current s)) ->
  progress (current s) <= progress (f (current s)) ->
  progress (f (current s)) = v ->
  Good v v (snd (write f s)).
Proof.
  intros ([older E] & Hc & Hr & Hb) Hrun Hle Hv. unfold write, Good. simpl.
  split; [eexists; reflexivity|]. split; [|split; [constructor; assumption | lia]].
  rewrite E in *. simpl. split; [exact Hle | exact Hc].
Qed.

Lemma triple_set_status v lb ub :
  v <> "done" -> v <> "error" -> triple lb ub (set_status v) lb ub.
Proof.
  intros Hd He s Hs. unfold set_status.
  pose proof (Good_current_Running _ _ _ Hs) as (R1 & R2 & R3 & R4 & R5).
  assert (Hb : lb <= progress (current s) <= ub) by apply Hs.
  change (write (with_status v) s) with
    (Returns (), snd (write (with_status v) s)).
  eapply Good_weaken.
  - eapply (Good_write lb ub (progress (current s))); try exact Hs;
      [repeat split; assumption | simpl; lia | reflexivity].
  - lia.
  - lia.
Qed.

Lemma triple_set_progress v lb ub :
  ub <= v <= 95 -> triple lb ub (set_progress v) v v.
Proof.
  intros Hv s Hs. unfold set_progress.
  pose proof (Good_current_Running _ _ _ Hs) as (R1 & R2 & R3 & R4 & R5).
  assert (Hb : lb <= progress (current s) <= ub) by apply Hs.
  change (write (with_progress v) s) with
    (Returns (), snd (write (with_progress v) s)).
  eapply (Good_write lb ub v); try exact Hs;
    [repeat split; simpl; try assumption; lia | simpl; lia | reflexivity].
Qed.

Lemma triple_call_bind {A B : Type} (o : outcome A) (f : A -> M B)
    lb ub lb2 ub2 :
  (forall a, o = Returns a -> triple lb ub (f a) lb2 ub2) ->
  triple lb ub (call o ≫= f) lb2 ub2.
Proof.
  intros Hf s Hs. rewrite bind_unfold. unfold call.
  destruct o as [a|e]; [apply (Hf a eq_refl s Hs)|].
  eapply Good_le_95; exact Hs.
Qed.

Ltac triple_tac :=
  repeat match goal with
    | |- triple _ _ (mbind _ (call _)) _ _ =>
        apply triple_call_bind; intros ? ?
    | |- triple _ _ (mbind _ _) _ _ =>
        eapply triple_bind; [ | | intros ?]
    | |- triple _ _ (set_status _) _ _ =>
        apply triple_set_status; discriminate
    | |- triple _ _ (set_progress _) _ _ =>
        apply triple_set_progress; lia
    | |- triple _ _ _ _ _ => apply triple_silent; silent_tac
    | |- _ <= _ => lia
    end.

Lemma triple_image_loop w total d mode q ex xrefs :
  forall idx lb ub,
    1 <= idx -> idx + Z.of_nat (length xrefs) - 1 <= total ->
    (xrefs <> [] -> ub <= image_progress idx total) -> lb <= ub <= 80 ->
    triple lb ub (image_loop w total idx xrefs d mode q ex) lb 80.
Proof.
  induction xrefs as [|xref rest IH]; intros idx lb ub Hidx Hlen Hub H80.
  - simpl. eapply triple_post; [apply triple_silent, silent_ret | lia | lia].
  - simpl image_loop. simpl length in Hlen.
    assert (Hv : ub <= image_progress idx total) by (apply Hub; discriminate).
    assert (Hb : 20 <= image_progress idx total <= 80)
      by (apply image_progress_bounds; lia).
    eapply triple_bind;
      [apply triple_silent, silent_recompress_image | lia |].
    intros [|].
    + eapply triple_post with (lb1 := image_progress idx total) (ub1 := 80);
        [|lia|lia].
      eapply triple_bind; [apply triple_set_progress; lia | lia | intros _].
      apply IH; try lia. intros _. apply image_progress_mono. lia.
    + eapply triple_bind; [apply triple_silent, silent_ret | lia | intros _].
      apply IH; try lia. intros _.
      pose proof (image_progress_mono idx (idx + 1) total). lia.
Qed.

Lemma select_pages_label extract_pages page_count keep label :
  select_pages extract_pages page_count = Returns (keep, label) ->
  label <> "done" /\ label <> "error".
Proof.
  unfold select_pages. destruct (pages_given extract_pages).
  - destruct (List.filter _ _); [discriminate|].
    intros [= _ <-]. split; discriminate.
  - intros [= _ <-]. split; discriminate.
Qed.

Lemma triple_images_and_save w q d mode ex :
  triple 20 20 (images_and_save w q d mode ex) 82 82.
Proof.
  unfold images_and_save.
  eapply triple_bind; [apply triple_silent, silent_get_work | lia | intros doc].
  apply triple_call_bind. intros xrefs _.
  eapply triple_bind with (lb1 := 20) (ub1 := 80); [|lia|intros _].
  { apply triple_image_loop; try lia. intros Hne.
    destruct xrefs as [|x xs]; [congruence|].
    apply image_progress_bounds. simpl length. lia. }
  triple_tac.
Qed.

Lemma triple_cleanup_stage (ex : bool) :
  triple 10 10
    (if ex then
       set_status "Cleaning annotations & attachments...";;
       set_progress 15;;
       extreme_cleanup
     else mret ()) 10 15.
Proof.
  destruct ex.
  - eapply triple_post with (lb1 := 15) (ub1 := 15); [|lia|lia].
    triple_tac.
  - eapply triple_post; [apply triple_silent, silent_ret | lia | lia].
Qed.

Lemma triple_recompress_and_save w q d mode ex :
  triple 10 10 (recompress_and_save w q d mode ex) 82 82.
Proof.
  unfold recompress_and_save.
  eapply triple_bind; [apply triple_cleanup_stage | lia | intros _].
  eapply triple_bind; [apply triple_set_status; discriminate | lia | intros _].
  eapply triple_bind; [apply triple_set_progress; lia | lia | intros _].
  apply triple_images_and_save.
Qed.

Lemma triple_build_work w keep q d mode ex :
  triple 10 10 (build_work w keep q d mode ex) 82 82.
Proof.
  unfold build_work.
  eapply triple_bind;
    [apply triple_silent, silent_copy_pages | lia | intros _].
  apply triple_recompress_and_save.
Qed.

Lemma triple_assemble w input_pdf q d mode extract_pages ex :
  triple 5 5 (assemble w input_pdf q d mode extract_pages ex) 82 82.
Proof.
  unfold assemble. apply triple_call_bind. intros page_count _.
  apply triple_call_bind. intros [keep label] Hsel.
  apply select_pages_label in Hsel as [Hd He].
  eapply triple_bind; [apply triple_set_status; assumption | lia | intros _].
  eapply triple_bind; [apply triple_set_progress; lia | lia | intros _].
  apply triple_build_work.
Qed.

Lemma finishes_bind {A B : Type} (m : M A) (f : A -> M B) lb ub lb1 ub1 :
  triple lb ub m lb1 ub1 -> lb <= lb1 ->
  (forall a, finishes lb1 ub1 (f a)) ->
  finishes lb ub (m ≫= f).
Proof.
  intros Hm Hle Hf s Hs. rewrite bind_unfold. specialize (Hm s Hs).
  destruct (m s) as [[a|e] s']; [|exact Hm].
  specialize (Hf a s' Hm). destruct (f a s') as [[b|e] s'']; [exact Hf|].
  eapply Good_weaken; [exact Hf | exact Hle | lia].
Qed.

Lemma finishes_write_done final_bytes lb ub :
  0 <= lb -> finishes lb ub (write (update_done final_bytes)).
Proof.
  intros Hlb s Hs. exists s, final_bytes. split; [|reflexivity].
  eapply Good_weaken; [eapply Good_le_95; exact Hs | lia | lia].
Qed.

Lemma finishes_distill t pymupdf_bytes ex :
  finishes 82 82 (distill_and_finish t pymupdf_bytes ex).
Proof.
  unfold distill_and_finish.
  eapply finishes_bind;
    [apply triple_set_status; discriminate | lia | intros _].
  eapply finishes_bind; [apply triple_set_progress; lia | lia | intros _].
  cbv zeta.
  eapply finishes_bind;
    [apply triple_set_status; discriminate | lia | intros _].
  eapply finishes_bind; [apply triple_set_progress; lia | lia | intros _].
  apply finishes_write_done. lia.
Qed.

Lemma finishes_body w input_pdf q d mode extract_pages ex :
  finishes 0 0 (process_job_body w input_pdf q d mode extract_pages ex).
Proof.
  unfold process_job_body.
  eapply finishes_bind;
    [apply triple_set_status; discriminate | lia | intros _].
  eapply finishes_bind; [apply triple_set_progress; lia | lia | intros _].
  eapply finishes_bind; [apply triple_assemble | lia | intros b].
  apply finishes_distill.
Qed.

Lemma new_job_Good now inp_path : Good 0 0 (start_run (new_job now inp_path)).
Proof.
  unfold Good, start_run, new_job. simpl. split; [exists []; reflexivity|].
  split; [exact I|]. split; [|lia].
  constructor; [|constructor].
  unfold Running. simpl. repeat split; try discriminate; lia.
Qed.

(** Shape of a run: it goes through states of the middle of a run, and
    ends with the final update or with the update of the handler. *)
Lemma run_job_shape w now inp_path input_pdf q d mode extract_pages ex :
  exists s0,
    Good 0 95 s0 /\
    ((exists final_bytes,
        run_job w (new_job now inp_path) input_pdf q d mode extract_pages ex
        = snd (write (update_done final_bytes) s0)) \/
     (exists e,
        run_job w (new_job now inp_path) input_pdf q d mode extract_pages ex
        = snd (write (update_error e) s0))).
Proof.
  unfold run_job, try_except.
  pose proof (finishes_body w input_pdf q d mode extract_pages ex _
                (new_job_Good now inp_path)) as H.
  destruct (process_job_body _ _ _ _ _ _ _ _) as [[[]|e] s'].
  - destruct H as (s0 & fb & Hs0 & ->). exists s0. split; [exact Hs0|].
    left. exists fb. reflexivity.
  - exists s'. split; [exact H|]. right. exists e. reflexivity.
Qed.

Lemma chain_head_max l h :
  chain l -> head l = Some h -> Forall (fun j => progress j <= progress h) l.
Proof.
  revert h. induction l as [|j' rest IH]; intros h Hc Hh; [constructor|].
  simpl in Hh. injection Hh as ->. constructor; [lia|].
  destruct rest as [|j rest]; [constructor|].
  destruct Hc as [Hle Hc]. specialize (IH j Hc eq_refl).
  eapply Forall_impl; [exact IH|]. simpl. intros; lia.
Qed.

Lemma chain_nondecreasing l : chain l -> nondecreasing (reverse l).
Proof.
  unfold nondecreasing. induction l as [|j' rest IH]; intros Hc.
  - constructor.
  - rewrite reverse_cons. apply StronglySorted_app_2.
    + intros x1 x2 H1 H2. rewrite elem_of_reverse in H1.
      apply list_elem_of_singleton in H2. subst x2.
      destruct rest as [|j rest]; [inversion H1|].
      destruct Hc as [Hle Hc].
      pose proof (chain_head_max (j :: rest) j Hc eq_refl) as Hmax.
      rewrite Forall_forall in Hmax. specialize (Hmax x1 H1). simpl in Hmax. lia.
    + apply IH. destruct rest; [exact I | apply Hc].
    + repeat constructor.
Qed.

Lemma chain_cons j' l h :
  chain l -> head l = Some h -> progress h <= progress j' -> chain (j' :: l).
Proof.
  intros Hc Hh Hle. destruct l as [|j rest]; [exact I|].
  injection Hh as ->. split; assumption.
Qed.

Lemma grows_silent {A : Type} (m : M A) : silent m -> grows m.
Proof. intros H s. exists []. apply H. Qed.

Lemma grows_write f : grows (write f).
Proof. intros s. exists [f (current s)]. reflexivity. Qed.

Lemma grows_bind {A B : Type} (m : M A) (f : A -> M B) :
  grows m -> (forall a, grows (f a)) -> grows (m ≫= f).
Proof.
  intros Hm Hf s. rewrite bind_unfold. destruct (Hm s) as [l1 H1].
  destruct (m s) as [[a|e] s']; simpl in *; [|exists l1; exact H1].
  destruct (Hf a s') as [l2 H2]. exists (l2 ++ l1)%list.
  rewrite H2, H1. apply app_assoc.
Qed.

Lemma grows_try_except {A : Type} (m : M A) (h : exn -> M A) :
  grows m -> (forall e, grows (h e)) -> grows (try_except m h).
Proof.
  intros Hm Hh s. unfold try_except. destruct (Hm s) as [l1 H1].
  destruct (m s) as [[a|e] s']; simpl in *; [exists l1; exact H1|].
  destruct (Hh e s') as [l2 H2]. exists (l2 ++ l1)%list.
  rewrite H2, H1. apply app_assoc.
Qed.

Ltac grows_tac :=
  repeat match goal with
    | |- grows (mbind _ _) => apply grows_bind; [|intros ?]
    | |- grows (set_status _) => apply grows_write
    | |- grows (set_progress _) => apply grows_write
    | |- grows (write _) => apply grows_write
    | |- grows (match ?x with _ => _ end) => destruct x
    | |- grows _ => solve [apply grows_silent; silent_tac]
    end.

Lemma grows_image_loop w total d mode q ex xrefs :
  forall idx, grows (image_loop w total idx xrefs d mode q ex).
Proof.
  induction xrefs as [|xref rest IH]; intros idx; simpl.
  - apply grows_silent, silent_ret.
  - apply grows_bind; [apply grows_silent, silent_recompress_image|].
    intros updated. apply grows_bind; [|intros _; apply IH].
    destruct updated; [apply grows_write | apply grows_silent, silent_ret].
Qed.

Lemma grows_body w input_pdf q d mode extract_pages ex :
  grows (process_job_body w input_pdf q d mode extract_pages ex).
Proof.
  unfold process_job_body, assemble, build_work, recompress_and_save,
    images_and_save, distill_and_finish.
  cbv zeta. grows_tac;
    first [apply grows_image_loop | apply grows_silent, silent_copy_pages].
Qed.

Lemma run_job_first w job input_pdf q d mode extract_pages ex :
  head (lifetime w job input_pdf q d mode extract_pages ex) = Some job.
Proof.
  unfold lifetime. rewrite head_reverse.
  assert (H : grows (try_except
            (process_job_body w input_pdf q d mode extract_pages ex)
            (fun e => write (update_error e)))).
  { apply grows_try_except; [apply grows_body | intros; apply grows_write]. }
  destruct (H (start_run job)) as [added E]. unfold run_job. rewrite E.
  simpl. rewrite last_app. reflexivity.
Qed.

(** The records of a run, in time order: records of the middle of a run,
    the first being the one the run found, then the record written by the
    final update or by the handler. *)
Lemma lifetime_shape w now inp_path input_pdf q d mode extract_pages ex :
  exists s0 final,
    Good 0 95 s0 /\
    lifetime w (new_job now inp_path) input_pdf q d mode extract_pages ex
      = (reverse (history s0) ++ [final])%list /\
    current (run_job w (new_job now inp_path) input_pdf q d mode
               extract_pages ex) = final /\
    ((exists final_bytes, final = update_done final_bytes (current s0)) \/
     (exists e, final = update_error e (current s0))).
Proof.
  destruct (run_job_shape w now inp_path input_pdf q d mode extract_pages ex)
    as (s0 & Hs0 & [[fb E] | [e E]]); unfold lifetime; rewrite E; simpl;
    rewrite reverse_cons.
  - exists s0, (update_done fb (current s0)).
    split; [exact Hs0|]. split; [reflexivity|]. split; [reflexivity|].
    left. exists fb. reflexivity.
  - exists s0, (update_error e (current s0)).
    split; [exact Hs0|]. split; [reflexivity|]. split; [reflexivity|].
    right. exists e. reflexivity.
Qed.

(** ** The job record along a run *)

Lemma Running_below_100 j : Running j -> progress j < 100 /\ status j <> "done".
Proof. intros (H1 & _ & _ & _ & H5). split; [lia | exact H1]. Qed.

(** C2. Along the life of a job the progress values never decrease; a
    record shows progress 100 exactly when its status is "done"; the life
    ends in status "done" or "error", and a job that ends in "error" keeps
    the progress it had just before, which is below 100. *)
Theorem progress_nondecreasing_100_iff_done
    w now inp_path input_pdf q d mode extract_pages ex :
  let l := lifetime w (new_job now inp_path) input_pdf q d mode
             extract_pages ex in
  nondecreasing l /\
  (forall j, j ∈ l -> (progress j = 100 <-> status j = "done")) /\
  (forall j, j ∈ l -> 100 <= progress j -> status j = "done") /\
  (forall j, last l = Some j -> status j = "done" \/ status j = "error") /\
  (forall j, last l = Some j -> status j = "error" ->
     progress j < 100 /\
     exists earlier prev,
       l = (earlier ++ [prev; j])%list /\ progress j = progress prev).
Proof.
  intros l. subst l.
  destruct (lifetime_shape w now inp_path input_pdf q d mode extract_pages ex)
    as (s0 & final & Hg & -> & _ & Hfin).
  destruct Hg as ([older E] & Hc & Hr & Hb).
  assert (Hcur : Running (current s0)).
  { rewrite E in Hr. inversion Hr; assumption. }
  assert (Hmax : forall j, j ∈ history s0 -> progress j <= progress (current s0)).
  { apply Forall_forall, chain_head_max; [exact Hc | rewrite E; reflexivity]. }
  assert (Hrun : forall j, j ∈ history s0 -> Running j).
  { apply Forall_forall, Hr. }
  assert (Hf : (status final = "done" /\ progress final = 100) \/
               (status final = "error" /\
                progress final = progress (current s0))).
  { destruct Hfin as [[fb ->] | [e ->]]; [left | right]; split; reflexivity. }
  assert (Hmem : forall j, j ∈ (reverse (history s0) ++ [final])%list ->
                           (j ∈ history s0) \/ j = final).
  { intros j Hj. apply elem_of_app in Hj as [Hj | Hj].
    - left. apply elem_of_reverse, Hj.
    - right. apply list_elem_of_singleton, Hj. }
  destruct (Running_below_100 _ Hcur) as [Hc100 _].
  repeat split.
  - apply StronglySorted_app_2.
    + intros x1 x2 H1 H2. rewrite elem_of_reverse in H1.
      apply list_elem_of_singleton in H2. subst x2.
      specialize (Hmax x1 H1). destruct Hf as [[_ ->] | [_ ->]]; lia.
    + apply chain_nondecreasing, Hc.
    + repeat constructor.
  - intros H100. destruct (Hmem j H) as [Hj | ->].
    + destruct (Running_below_100 _ (Hrun j Hj)). lia.
    + destruct Hf as [[Hs _] | [_ Hp]]; [exact Hs | lia].
  - intros Hdone. destruct (Hmem j H) as [Hj | ->].
    + destruct (Running_below_100 _ (Hrun j Hj)). contradiction.
    + destruct Hf as [[_ Hp] | [Hs _]]; [exact Hp | congruence].
  - intros j Hj H100. destruct (Hmem j Hj) as [Hj' | ->].
    + destruct (Running_below_100 _ (Hrun j Hj')). lia.
    + destruct Hf as [[Hs _] | [_ Hp]]; [exact Hs | lia].
  - intros j Hj. rewrite last_snoc in Hj. injection Hj as <-.
    destruct Hf as [[Hs _] | [Hs _]]; [left | right]; exact Hs.
  - rewrite last_snoc in H. injection H as <-.
    destruct Hf as [[Hs _] | [_ Hp]]; [congruence | lia].
  - rewrite last_snoc in H. injection H as <-.
    exists (reverse older), (current s0). split.
    + rewrite E, reverse_cons, <- app_assoc. reflexivity.
    + destruct Hf as [[Hs _] | [_ Hp]]; [congruence | exact Hp].
Qed.

Lemma progress_nondecreasing_100_iff_done_witness :
  let l := lifetime broken_copy_world (new_job 0 "/tmp/in.pdf") "/tmp/in.pdf"
             60 1000 "general" None false in
  exists j, last l = Some j /\ status j = "error" /\ progress j < 100.
Proof.
  intros l. eexists. split; [vm_compute; reflexivity|].
  split; [reflexivity|].
  apply (proj2 (proj2 (proj2 (proj2
    (progress_nondecreasing_100_iff_done broken_copy_world 0 "/tmp/in.pdf"
       "/tmp/in.pdf" 60 1000 "general" None false)))) _ eq_refl eq_refl).
Defined.

Lemma compress_registers env srv req job_id srv' args :
  Routes.compress env srv req = (JsonJobId job_id, srv', Some args) ->
  jobs srv' !! job_id = Some (new_job (time_now env) (tmp_name env)) /\
  arg_job_id args = job_id /\ arg_input_pdf args = tmp_name env.
Proof.
  unfold Routes.compress. destruct (files req !! "file"); [|discriminate].
  destruct (_ || _); [discriminate|].
  destruct (Routes.read_form (form req)) as [[[[[? ?] ?] ?] ?]|]; [|discriminate].
  destruct (save_upload env); [|discriminate].
  destruct (thread_start env); [|discriminate].
  intros [= <- <- <-]. simpl. rewrite lookup_insert_eq. repeat split.
Qed.

(** C8. At every point of the life of a job its record has an output
    buffer exactly when its status is "done", and an error message exactly
    when its status is "error": the record registered by [compress] has
    neither, the final update sets the buffer and clears the error, and the
    update of the handler sets the message and leaves the buffer alone. *)
Theorem output_iff_done_and_error_iff_error
    w now inp_path input_pdf q d mode extract_pages ex :
  let job := new_job now inp_path in
  let l := lifetime w job input_pdf q d mode extract_pages ex in
  (forall env srv req job_id srv' args,
     Routes.compress env srv req = (JsonJobId job_id, srv', Some args) ->
     jobs srv' !! job_id = Some (new_job (time_now env) (tmp_name env))) /\
  (head l = Some job /\ output_buffer job = None /\ error job = None) /\
  (forall j, j ∈ l ->
     (is_Some (output_buffer j) <-> status j = "done") /\
     (is_Some (error j) <-> status j = "error")) /\
  (forall final_bytes j,
     status (update_done final_bytes j) = "done" /\
     output_buffer (update_done final_bytes j) = Some final_bytes /\
     error (update_done final_bytes j) = None) /\
  (forall e j,
     status (update_error e j) = "error" /\
     error (update_error e j) = Some (str_exn e) /\
     output_buffer (update_error e j) = output_buffer j) /\
  (exists prev final,
     last l = Some final /\ Running prev /\
     forall jobs job_id, jobs !! job_id = Some job ->
       process_job w jobs job_id input_pdf q d mode extract_pages ex !! job_id
         = Some final /\
       ((exists final_bytes, final = update_done final_bytes prev) \/
        (exists e, final = update_error e prev))).
Proof.
  intros job l. subst job l.
  split.
  { intros env srv req job_id srv' args H.
    apply (compress_registers env srv req job_id srv' args H). }
  split.
  { split; [apply run_job_first | split; reflexivity]. }
  destruct (lifetime_shape w now inp_path input_pdf q d mode extract_pages ex)
    as (s0 & final & Hg & -> & Hcur & Hfin).
  pose proof (Good_current_Running _ _ _ Hg) as Hrun0.
  destruct Hg as (_ & _ & Hr & _).
  split.
  { intros j Hj. apply elem_of_app in Hj as [Hj | Hj].
    - rewrite elem_of_reverse in Hj. rewrite Forall_forall in Hr.
      destruct (Hr j Hj) as (H1 & H2 & H3 & H4 & _). rewrite H3, H4.
      split; (split; [intros [? [=]] | intros; contradiction]).
    - apply list_elem_of_singleton in Hj. subst j.
      destruct Hrun0 as (H1 & H2 & H3 & H4 & _).
      destruct Hfin as [[fb ->] | [e ->]]; simpl.
      + split; (split; [reflexivity || intros [? [=]] | eauto; discriminate]).
      + rewrite H4.
        split; (split; [reflexivity || intros [? [=]] | eauto; discriminate]). }
  split; [intros; repeat split|]. split; [intros; repeat split|].
  exists (current s0), final. split; [apply last_snoc|].
  split; [exact Hrun0|]. intros jobs job_id Hjob.
  unfold process_job. rewrite Hjob, lookup_insert_eq, Hcur.
  split; [reflexivity | exact Hfin].
Qed.

Lemma output_iff_done_and_error_iff_error_witness :
  let j := current (run_job sample_world (new_job 0 "/tmp/in.pdf")
                      "/tmp/in.pdf" 60 1000 "general" (Some [2; 3; 9]) true) in
  status j = "done" /\ is_Some (output_buffer j) /\ ~ is_Some (error j).
Proof.
  intros j.
  assert (Hin : j ∈ lifetime sample_world (new_job 0 "/tmp/in.pdf")
                      "/tmp/in.pdf" 60 1000 "general" (Some [2; 3; 9]) true).
  { apply last_Some_elem_of. vm_compute. reflexivity. }
  destruct (proj1 (proj2 (proj2
    (output_iff_done_and_error_iff_error sample_world 0 "/tmp/in.pdf"
       "/tmp/in.pdf" 60 1000 "general" (Some [2; 3; 9]) true))) j Hin)
    as [H1 H2].
  split; [vm_compute; reflexivity|]. split.
  - apply H1. vm_compute. reflexivity.
  - intros H. apply H2 in H. vm_compute in H. discriminate H.
Defined.

(** ** Page selection *)

Lemma Good_set_status v lb ub s :
  v <> "done" -> v <> "error" -> Good lb ub s ->
  Good lb ub (snd (set_status v s)).
Proof. intros Hd He Hs. exact (triple_set_status v lb ub Hd He s Hs). Qed.

Lemma Good_set_progress v lb ub s :
  ub <= v <= 95 -> Good lb ub s -> Good v v (snd (set_progress v s)).
Proof. intros Hv Hs. exact (triple_set_progress v lb ub Hv s Hs). Qed.

Lemma body_selection_fails w job input_pdf q d mode extract_pages ex
    page_count e :
  fitz_open (fitz w) input_pdf = Returns page_count ->
  select_pages extract_pages page_count = Raises e ->
  run_job w job input_pdf q d mode extract_pages ex
  = snd (write (update_error e) (selecting job)).
Proof.
  intros Hopen Hsel.
  unfold run_job, try_except, process_job_body, assemble, selecting.
  unfold mbind, M_bind, call, set_status, set_progress, write. simpl.
  rewrite Hopen, Hsel. reflexivity.
Qed.

Lemma body_selection_succeeds w job input_pdf q d mode extract_pages ex
    page_count keep label :
  fitz_open (fitz w) input_pdf = Returns page_count ->
  select_pages extract_pages page_count = Returns (keep, label) ->
  process_job_body w input_pdf q d mode extract_pages ex (start_run job)
  = (build_work w keep q d mode ex
       ≫= fun pymupdf_bytes => distill_and_finish (tools w) pymupdf_bytes ex)
      (copying job label).
Proof.
  intros Hopen Hsel.
  unfold process_job_body, assemble, copying, selecting.
  unfold mbind, M_bind, call, set_status, set_progress, write. simpl.
  rewrite Hopen, Hsel. reflexivity.
Qed.

Lemma finishes_from_copying w keep q d mode ex :
  finishes 10 10
    (build_work w keep q d mode ex
       ≫= fun pymupdf_bytes => distill_and_finish (tools w) pymupdf_bytes ex).
Proof.
  eapply finishes_bind; [apply triple_build_work | lia | intros b].
  apply finishes_distill.
Qed.

Lemma Good_copying now inp_path label :
  label <> "done" -> label <> "error" ->
  Good 10 10 (copying (new_job now inp_path) label).
Proof.
  intros Hd He. unfold copying, selecting.
  apply (Good_set_progress 10 0 5); [lia|].
  apply Good_set_status; [assumption | assumption|].
  eapply Good_weaken with (lb := 5) (ub := 5); [|lia|lia].
  apply (Good_set_progress 5 0 0); [lia|].
  apply Good_set_status; [discriminate | discriminate|].
  apply new_job_Good.
Qed.

(** Once the pages are selected the job passes the checkpoint 10, whatever
    happens next. *)
Lemma run_after_selection w now inp_path input_pdf q d mode extract_pages ex
    page_count keep label :
  fitz_open (fitz w) input_pdf = Returns page_count ->
  select_pages extract_pages page_count = Returns (keep, label) ->
  10 <= progress (current (run_job w (new_job now inp_path) input_pdf q d
                             mode extract_pages ex)).
Proof.
  intros Hopen Hsel. unfold run_job, try_except.
  rewrite (body_selection_succeeds _ _ _ _ _ _ _ _ _ _ _ Hopen Hsel).
  destruct (select_pages_label _ _ _ _ Hsel) as [Hd He].
  pose proof (finishes_from_copying w keep q d mode ex _
                (Good_copying now inp_path label Hd He)) as H.
  destruct ((build_work w keep q d mode ex ≫= _) _) as [[[]|e] s'].
  - destruct H as (s0 & fb & _ & ->). simpl. lia.
  - simpl. apply H.
Qed.

Lemma select_pages_explicit p pages page_count :
  let keep := List.filter (fun i => (0 <=? i) && (i <? page_count))
                (map (fun p => p - 1) (p :: pages)) in
  (keep = [] ->
   select_pages (Some (p :: pages)) page_count
   = Raises (ValueError "No valid pages selected.")) /\
  (keep <> [] ->
   exists label, select_pages (Some (p :: pages)) page_count
                 = Returns (keep, label)).
Proof.
  intros keep.
  change (select_pages (Some (p :: pages)) page_count)
    with (match keep with
          | [] => Raises (ValueError "No valid pages selected.")
          | _ => Returns (keep, "Extracting " +:+ pretty (length keep)
                                  +:+ " selected pages...")
          end).
  clearbody keep. destruct keep as [|k ks].
  - split; [reflexivity | congruence].
  - split; [discriminate | intros _; eexists; reflexivity].
Qed.

Lemma range_spec page_count :
  length (range page_count) = Z.to_nat page_count /\
  forall i, (i < Z.to_nat page_count)%nat ->
    nth i (range page_count) (-1) = Z.of_nat i.
Proof.
  unfold range. split.
  - rewrite length_map, length_seq. reflexivity.
  - intros i Hi.
    rewrite (nth_indep _ (-1) (Z.of_nat 0)) by (rewrite length_map, length_seq; exact Hi).
    rewrite map_nth, seq_nth by exact Hi. reflexivity.
Qed.

(** C3. With the source open: a non-empty list of 1-based page numbers is
    shifted to 0-based and filtered to the pages of the source, and the job
    fails with the invalid-selection error exactly when nothing is left;
    with no list (or an empty one) all the pages are selected, in order. *)
Theorem page_selection w now inp_path input_pdf q d mode ex page_count :
  fitz_open (fitz w) input_pdf = Returns page_count ->
  (forall p pages,
     let keep := List.filter (fun i => (0 <=? i) && (i <? page_count))
                   (map (fun p => p - 1) (p :: pages)) in
     let r := run_job w (new_job now inp_path) input_pdf q d mode
                (Some (p :: pages)) ex in
     (forall i, In i keep <-> In (i + 1) (p :: pages) /\ 0 <= i < page_count) /\
     (keep = [] <->
      select_pages (Some (p :: pages)) page_count
      = Raises (ValueError "No valid pages selected.")) /\
     (keep <> [] <->
      exists label, select_pages (Some (p :: pages)) page_count
                    = Returns (keep, label)) /\
     (keep = [] <-> r = invalid_selection_failure (new_job now inp_path)) /\
     (status (current (invalid_selection_failure (new_job now inp_path)))
        = "error" /\
      error (current (invalid_selection_failure (new_job now inp_path)))
        = Some "No valid pages selected.")) /\
  (forall extract_pages,
     extract_pages = None \/ extract_pages = Some [] ->
     select_pages extract_pages page_count
     = Returns (range page_count, "Processing all pages...")) /\
  (length (range page_count) = Z.to_nat page_count /\
   forall i, (i < Z.to_nat page_count)%nat ->
     nth i (range page_count) (-1) = Z.of_nat i).
Proof.
  intros Hopen. split; [|split; [|apply range_spec]].
  - intros p pages keep r.
    destruct (select_pages_explicit p pages page_count) as [Hemp Hne].
    fold keep in Hemp, Hne.
    split; [|split; [|split; [|split; [|split; reflexivity]]]].
    + intros i. unfold keep. rewrite filter_In, in_map_iff. split.
      * intros [(x & Hx & Hin) Hb]. replace (i + 1) with x by lia.
        split; [exact Hin | lia].
      * intros [Hin Hb]. split; [exists (i + 1); split; [lia | exact Hin] | lia].
    + split; [exact Hemp|]. intros Hsel.
      destruct keep as [|k ks] eqn:E; [reflexivity|].
      destruct Hne as [label Hl]; [discriminate|]. congruence.
    + split; [exact Hne|]. intros [label Hl] ->.
      rewrite Hemp in Hl by reflexivity. discriminate.
    + split.
      * intros Hk. unfold r, invalid_selection_failure.
        apply (body_selection_fails _ _ _ _ _ _ _ _ _ _ Hopen (Hemp Hk)).
      * intros Hr. destruct keep as [|k ks] eqn:E; [reflexivity|].
        destruct Hne as [label Hl]; [discriminate|].
        pose proof (run_after_selection w now inp_path input_pdf q d mode
                      _ ex page_count _ label Hopen Hl) as H10.
        fold r in H10. rewrite Hr in H10. simpl in H10. lia.
  - intros extract_pages [-> | ->]; reflexivity.
Qed.

Lemma page_selection_witness :
  select_pages (Some [2; 3; 9]) 3 = Returns ([1; 2], "Extracting 2 selected pages...") /\
  run_job sample_world (new_job 0 "/tmp/in.pdf") "/tmp/in.pdf" 60 1000
    "general" (Some [0; 4; 9]) false
  = invalid_selection_failure (new_job 0 "/tmp/in.pdf").
Proof.
  pose proof (page_selection sample_world 0 "/tmp/in.pdf" "/tmp/in.pdf" 60
                1000 "general" false 3 eq_refl) as [H _].
  split.
  - reflexivity.
  - apply (proj1 (proj2 (proj2 (proj2 (H 0 [4; 9]))))). reflexivity.
Defined.

(** ** Page copy *)

Lemma copy_page_run f p s :
  events (snd (copy_page f p s)) = (rev (page_events f p) ++ events s)%list /\
  history (snd (copy_page f p s)) = history s /\
  current (snd (copy_page f p s)) = current s /\
  (if copy_fails f p
   then exists e, fst (copy_page f p s) = Raises e
   else fst (copy_page f p s) = Returns () /\
        work (snd (copy_page f p s))
        = {| doc_pages := (doc_pages (work s) ++ copies f p)%list;
             doc_cleaned := doc_cleaned (work s);
             doc_streams := doc_streams (work s) |}).
Proof.
  unfold copy_page, try_except_ValueError, copy_fails, page_events, copies,
    copied, raises.
  unfold mbind, M_bind, insert_page, emit, update_work, add_page. simpl.
  destruct (insert_pdf f p true) as [[]|[m|m]]; simpl.
  - repeat split.
  - destruct (leaves_page f p true);
      destruct (insert_pdf f p false) as [[]|e]; simpl;
      try destruct (leaves_page f p false); simpl; repeat split; eauto;
      rewrite <- ?app_assoc; reflexivity.
  - destruct (leaves_page f p true); simpl; repeat split; eauto.
Qed.

Lemma copy_pages_run f keep : forall s,
  events (snd (copy_pages f keep s))
  = (rev (flat_map (page_events f) (attempted f keep)) ++ events s)%list /\
  history (snd (copy_pages f keep s)) = history s /\
  current (snd (copy_pages f keep s)) = current s /\
  (if existsb (copy_fails f) keep
   then exists e, fst (copy_pages f keep s) = Raises e
   else fst (copy_pages f keep s) = Returns () /\
        doc_pages (work (snd (copy_pages f keep s)))
        = (doc_pages (work s) ++ flat_map (copies f) keep)%list).
Proof.
  induction keep as [|p rest IH]; intros s.
  - simpl. repeat split. rewrite app_nil_r. reflexivity.
  - simpl copy_pages. rewrite bind_unfold.
    destruct (copy_page_run f p s) as (He & Hh & Hc & Hr).
    simpl existsb. simpl attempted.
    destruct (copy_page f p s) as [r s1]. simpl in He, Hh, Hc, Hr.
    destruct (copy_fails f p).
    + destruct Hr as [e ->]. simpl. rewrite app_nil_r.
      repeat split; eauto.
    + destruct Hr as [-> Hw]. destruct (IH s1) as (He' & Hh' & Hc' & Hr').
      simpl flat_map. rewrite rev_app_distr, <- app_assoc, <- He.
      split; [exact He'|]. split; [congruence|]. split; [congruence|].
      destruct (existsb (copy_fails f) rest); [exact Hr'|].
      destruct Hr' as [Hret Hdoc]. split; [exact Hret|].
      rewrite Hdoc, Hw. simpl. rewrite <- app_assoc. reflexivity.
Qed.

Lemma copy_fails_spec f p :
  copy_fails f p = true <->
  (exists m, insert_pdf f p true = Raises (OtherError m)) \/
  (exists m e, insert_pdf f p true = Raises (ValueError m) /\
               insert_pdf f p false = Raises e).
Proof.
  unfold copy_fails, raises.
  destruct (insert_pdf f p true) as [[]|[m|m]].
  - split; [discriminate | intros [[? [=]] | (? & ? & [=] & _)]].
  - destruct (insert_pdf f p false) as [[]|e].
    + split; [discriminate | intros [[? [=]] | (? & ? & _ & [=])]].
    + split; [eauto 6 | reflexivity].
  - split; [eauto | reflexivity].
Qed.

Lemma eventless_bind {A B : Type} (m : M A) (f : A -> M B) :
  eventless m -> (forall a, eventless (f a)) -> eventless (m ≫= f).
Proof.
  intros Hm Hf s. rewrite bind_unfold. specialize (Hm s).
  destruct (m s) as [[a|e] s']; simpl in *; [|exact Hm].
  rewrite (Hf a s'). exact Hm.
Qed.

Lemma eventless_try_except {A : Type} (m : M A) (h : exn -> M A) :
  eventless m -> (forall e, eventless (h e)) -> eventless (try_except m h).
Proof.
  intros Hm Hh s. unfold try_except. specialize (Hm s).
  destruct (m s) as [[a|e] s']; simpl in *; [exact Hm|].
  rewrite (Hh e s'). exact Hm.
Qed.

Lemma eventless_ret {A : Type} (a : A) : eventless (mret a : M A).
Proof. intros s. reflexivity. Qed.

Lemma eventless_call {A : Type} (o : outcome A) : eventless (call o).
Proof. intros s. reflexivity. Qed.

Lemma eventless_write f : eventless (write f).
Proof. intros s. reflexivity. Qed.

Lemma eventless_update_work f : eventless (update_work f).
Proof. intros s. reflexivity. Qed.

Lemma eventless_get_work : eventless get_work.
Proof. intros s. reflexivity. Qed.

Ltac eventless_tac :=
  repeat match goal with
    | |- eventless (mbind _ _) => apply eventless_bind; [|intros ?]
    | |- eventless (try_except _ _) => apply eventless_try_except; [|intros ?]
    | |- eventless (set_status _) => apply eventless_write
    | |- eventless (set_progress _) => apply eventless_write
    | |- eventless (write _) => apply eventless_write
    | |- eventless (call _) => apply eventless_call
    | |- eventless (mret _) => apply eventless_ret
    | |- eventless get_work => apply eventless_get_work
    | |- eventless (update_work _) => apply eventless_update_work
    | |- eventless extreme_cleanup => apply eventless_update_work
    | |- eventless (match ?x with _ => _ end) => destruct x
    end.

Lemma eventless_image_loop w total d mode q ex xrefs :
  forall idx, eventless (image_loop w total idx xrefs d mode q ex).
Proof.
  induction xrefs as [|xref rest IH]; intros idx; simpl.
  - apply eventless_ret.
  - apply eventless_bind.
    + unfold recompress_image. eventless_tac.
    + intros updated. apply eventless_bind; [|intros _; apply IH].
      destruct updated; eventless_tac.
Qed.

Lemma eventless_after_copy w q d mode ex :
  eventless (recompress_and_save w q d mode ex
               ≫= fun pymupdf_bytes =>
                    distill_and_finish (tools w) pymupdf_bytes ex).
Proof.
  unfold recompress_and_save, images_and_save, distill_and_finish. cbv zeta.
  eventless_tac; apply eventless_image_loop.
Qed.

Lemma raises_above_bind_total {A B : Type} (m : M A) (f : A -> M B)
    b lb ub lb1 ub1 :
  total m -> triple lb ub m lb1 ub1 ->
  (forall a, raises_above b lb1 ub1 (f a)) ->
  raises_above b lb ub (m ≫= f).
Proof.
  intros Ht Hm Hf s Hs. rewrite bind_unfold. destruct (Ht s) as [a Ha].
  specialize (Hm s Hs). destruct (m s) as [[a'|e] s']; [|discriminate].
  apply (Hf a' s' Hm).
Qed.

Lemma raises_above_bind {A B : Type} (m : M A) (f : A -> M B)
    b lb ub lb1 ub1 :
  raises_above b lb ub m -> triple lb ub m lb1 ub1 ->
  (forall a, raises_above b lb1 ub1 (f a)) ->
  raises_above b lb ub (m ≫= f).
Proof.
  intros Hr Hm Hf s Hs. rewrite bind_unfold.
  specialize (Hm s Hs). specialize (Hr s Hs).
  destruct (m s) as [[a'|e] s']; [apply (Hf a' s' Hm) | exact Hr].
Qed.

Lemma raises_above_triple {A : Type} (m : M A) b lb ub lb1 ub1 :
  triple lb ub m lb1 ub1 -> b <= lb -> raises_above b lb ub m.
Proof.
  intros Hm Hb s Hs. specialize (Hm s Hs).
  destruct (m s) as [[a|e] s']; [exact I|]. destruct Hm as (_ & _ & _ & H). lia.
Qed.

Lemma raises_above_finishes {A : Type} (m : M A) b lb ub :
  finishes lb ub m -> b <= lb -> raises_above b lb ub m.
Proof.
  intros Hm Hb s Hs. specialize (Hm s Hs).
  destruct (m s) as [[a|e] s']; [exact I|]. destruct Hm as (_ & _ & _ & H). lia.
Qed.

Lemma total_write f : total (write f).
Proof. intros s. exists (). reflexivity. Qed.

Lemma total_ret {A : Type} (a : A) : total (mret a : M A).
Proof. intros s. exists a. reflexivity. Qed.

Lemma total_bind {A B : Type} (m : M A) (f : A -> M B) :
  total m -> (forall a, total (f a)) -> total (m ≫= f).
Proof.
  intros Hm Hf s. rewrite bind_unfold. destruct (Hm s) as [a Ha].
  destruct (m s) as [[a'|e] s']; [apply Hf | discriminate].
Qed.

Lemma total_cleanup_stage (ex : bool) :
  total (if ex then
           set_status "Cleaning annotations & attachments...";;
           set_progress 15;;
           extreme_cleanup
         else mret ()).
Proof.
  destruct ex; [|apply total_ret].
  apply total_bind; [apply total_write | intros _].
  apply total_bind; [apply total_write | intros _].
  intros s. exists (). reflexivity.
Qed.

(** Past the page copy a run can only fail at progress 20 or more. *)
Lemma raises_above_after_copy w q d mode ex :
  raises_above 20 10 10
    (recompress_and_save w q d mode ex
       ≫= fun pymupdf_bytes => distill_and_finish (tools w) pymupdf_bytes ex).
Proof.
  eapply raises_above_bind; [|apply triple_recompress_and_save|].
  - unfold recompress_and_save.
    eapply raises_above_bind_total;
      [apply total_cleanup_stage | apply triple_cleanup_stage | intros _].
    eapply raises_above_bind_total;
      [apply total_write | apply triple_set_status; discriminate | intros _].
    eapply raises_above_bind_total;
      [apply total_write | apply triple_set_progress; lia | intros _].
    eapply raises_above_triple; [apply triple_images_and_save | lia].
  - intros b. apply raises_above_finishes; [apply finishes_distill | lia].
Qed.

Lemma Good_same lb ub s s' :
  history s' = history s -> current s' = current s ->
  Good lb ub s -> Good lb ub s'.
Proof. unfold Good. intros -> ->. exact id. Qed.

Lemma finishes_after_copy w q d mode ex :
  finishes 10 10
    (recompress_and_save w q d mode ex
       ≫= fun pymupdf_bytes => distill_and_finish (tools w) pymupdf_bytes ex).
Proof.
  eapply finishes_bind; [apply triple_recompress_and_save | lia | intros b].
  apply finishes_distill.
Qed.

(** A run whose pages are selected, told from its page copy loop. *)
Lemma run_copy w now inp_path input_pdf q d mode extract_pages ex
    page_count keep label :
  fitz_open (fitz w) input_pdf = Returns page_count ->
  select_pages extract_pages page_count = Returns (keep, label) ->
  let job := new_job now inp_path in
  let r := run_job w job input_pdf q d mode extract_pages ex in
  let c := copy_pages (fitz w) keep (copying job label) in
  rev (events r)
  = flat_map (page_events (fitz w)) (attempted (fitz w) keep) /\
  (existsb (copy_fails (fitz w)) keep = true ->
   exists e, fst c = Raises e /\ r = snd (write (update_error e) (snd c))) /\
  (existsb (copy_fails (fitz w)) keep = false ->
   fst c = Returns () /\
   doc_pages (work (snd c)) = flat_map (copies (fitz w)) keep /\
   20 <= progress (current r)).
Proof.
  intros Hopen Hsel job r c.
  destruct (select_pages_label _ _ _ _ Hsel) as [Hd He].
  pose proof (Good_copying now inp_path label Hd He) as Hgood.
  destruct (copy_pages_run (fitz w) keep (copying job label))
    as (Hev & Hh & Hc & Hr).
  fold c in Hev, Hh, Hc, Hr.
  assert (Er : r = snd (try_except
            (build_work w keep q d mode ex
               ≫= fun b => distill_and_finish (tools w) b ex)
            (fun e => write (update_error e)) (copying job label))).
  { unfold r, run_job, try_except.
    rewrite (body_selection_succeeds _ _ _ _ _ _ _ _ _ _ _ Hopen Hsel).
    reflexivity. }
  unfold try_except, build_work in Er. rewrite !bind_unfold in Er.
  fold c in Er. clearbody r c.
  destruct c as [[[]|e] s1]; simpl fst in *; simpl snd in *;
    change (events (copying job label)) with (@nil Event) in Hev.
  - (* the copy loop returns *)
    destruct (existsb (copy_fails (fitz w)) keep) eqn:Ex;
      [destruct Hr as [? [=]]|].
    destruct Hr as [_ Hdoc].
    assert (Hs1 : Good 10 10 s1)
      by exact (Good_same 10 10 (copying job label) s1 Hh Hc Hgood).
    pose proof (finishes_after_copy w q d mode ex s1 Hs1) as Hfin.
    pose proof (raises_above_after_copy w q d mode ex s1 Hs1) as Hab.
    pose proof (eventless_after_copy w q d mode ex s1) as Hevl.
    rewrite bind_unfold in Hfin, Hab, Hevl.
    destruct (recompress_and_save w q d mode ex s1) as [[b|e] s2].
    + destruct (distill_and_finish (tools w) b ex s2) as [[[]|e] s3];
        simpl in Er, Hevl; subst r.
      * split; [rewrite Hevl, Hev, app_nil_r, rev_involutive; reflexivity|].
        split; [discriminate|]. intros _. split; [reflexivity|].
        split; [exact Hdoc|]. destruct Hfin as (s0 & fb & _ & ->). simpl. lia.
      * split; [simpl; rewrite Hevl, Hev, app_nil_r, rev_involutive; reflexivity|].
        split; [discriminate|]. intros _. split; [reflexivity|].
        split; [exact Hdoc | exact Hab].
    + simpl in Er, Hevl. subst r.
      split; [simpl; rewrite Hevl, Hev, app_nil_r, rev_involutive; reflexivity|].
      split; [discriminate|]. intros _. split; [reflexivity|].
      split; [exact Hdoc | exact Hab].
  - (* the copy loop raises *)
    simpl in Er. subst r.
    split; [simpl; rewrite Hev, app_nil_r, rev_involutive; reflexivity|].
    split; [intros _; exists e; split; reflexivity|].
    intros Ex. rewrite Ex in Hr. destruct Hr as [[=] _].
Qed.

(** C4, as the code has it.  Every page the loop reaches is first copied
    with its links; if that copy raises [ValueError], a warning is logged
    and the same page is copied without links.  The loop stops, and the job
    ends in status "error" (at progress 10), exactly when for some selected
    page the first copy raises an exception that is not a [ValueError], or
    raises [ValueError] and the copy without links raises too; otherwise
    every selected page enters the working document, in order, after the
    page that its plain copy left behind when it raised once the page was
    appended: such a page is then in the document twice. *)
Theorem page_copy_retries_on_ValueError
    w now inp_path input_pdf q d mode extract_pages ex page_count keep label :
  fitz_open (fitz w) input_pdf = Returns page_count ->
  select_pages extract_pages page_count = Returns (keep, label) ->
  let f := fitz w in
  let job := new_job now inp_path in
  let r := run_job w job input_pdf q d mode extract_pages ex in
  (forall p,
     (copy_fails f p = true <->
      (exists m, insert_pdf f p true = Raises (OtherError m)) \/
      (exists m e, insert_pdf f p true = Raises (ValueError m) /\
                   insert_pdf f p false = Raises e)) /\
     ((exists m, insert_pdf f p true = Raises (ValueError m) /\
                 page_events f p
                 = [InsertPdf p true; LinkWarning (p + 1) (ValueError m);
                    InsertPdf p false]) \/
      ((forall m, insert_pdf f p true <> Raises (ValueError m)) /\
       page_events f p = [InsertPdf p true]))) /\
  rev (events r) = flat_map (page_events f) (attempted f keep) /\
  (existsb (copy_fails f) keep = true <->
   status (current r) = "error" /\ progress (current r) = 10) /\
  (existsb (copy_fails f) keep = false ->
   attempted f keep = keep /\
   doc_pages (work (snd (copy_pages f keep (copying job label))))
   = flat_map (copies f) keep /\
   forall p,
     copies f p
     = if raises (insert_pdf f p true) && leaves_page f p true
       then [(p, false); (p, false)]
       else [(p, negb (raises (insert_pdf f p true)))]).
Proof.
  intros Hopen Hsel f job r.
  destruct (run_copy w now inp_path input_pdf q d mode extract_pages ex
              page_count keep label Hopen Hsel) as (Hev & Hfail & Hok).
  fold f job r in Hev, Hfail, Hok.
  split; [|split; [exact Hev | split]].
  - intros p. split; [apply copy_fails_spec|].
    unfold page_events. destruct (insert_pdf f p true) as [[]|[m|m]].
    + right. split; [discriminate | reflexivity].
    + left. exists m. split; reflexivity.
    + right. split; [discriminate | reflexivity].
  - split.
    + intros Hx. destruct (Hfail Hx) as (e & Hc & ->).
      destruct (copy_pages_run f keep (copying job label)) as (_ & _ & Hcur & _).
      simpl. rewrite Hcur. split; reflexivity.
    + intros [Hs Hp]. destruct (existsb (copy_fails f) keep) eqn:Hx;
        [reflexivity|]. destruct (Hok eq_refl) as (_ & _ & H20). lia.
  - intros Hx. destruct (Hok Hx) as (_ & Hdoc & _).
    split; [|split; [exact Hdoc|]].
    + clear -Hx. induction keep as [|p rest IH]; [reflexivity|].
      simpl in *. apply orb_false_iff in Hx as [Hp Hrest].
      rewrite Hp, (IH Hrest). reflexivity.
    + intros p. unfold copies, copied.
      destruct (raises (insert_pdf f p true)); [|reflexivity].
      destruct (leaves_page f p true); reflexivity.
Qed.

Lemma page_copy_retries_on_ValueError_witness :
  rev (events (run_job sample_world (new_job 0 "/tmp/in.pdf") "/tmp/in.pdf"
                 60 1000 "general" None false))
  = [InsertPdf 0 true;
     InsertPdf 1 true; LinkWarning 2 (ValueError "bad page number(s)");
     InsertPdf 1 false;
     InsertPdf 2 true] /\
  doc_pages (work (snd (copy_pages sample_fitz [0; 1; 2]
                          (copying (new_job 0 "/tmp/in.pdf")
                             "Processing all pages..."))))
  = [(0, true); (1, false); (1, false); (2, true)].
Proof.
  pose proof (page_copy_retries_on_ValueError sample_world 0
                "/tmp/in.pdf" "/tmp/in.pdf" 60 1000 "general" None
                false 3 [0; 1; 2] "Processing all pages..."
                eq_refl eq_refl) as (_ & Hev & _ & Hdoc).
  split; [exact Hev|].
  destruct (Hdoc eq_refl) as (_ & H & _). exact H.
Defined.

(** C4 as stated fails: the plain copy of a page fails, no copy without
    links is tried, and the job ends in error although no page fails both
    copies. *)
Lemma page_copy_claim_counterexample :
  let f := fitz broken_copy_world in
  let keep := range 3 in
  let r := run_job broken_copy_world (new_job 0 "/tmp/in.pdf") "/tmp/in.pdf"
             60 1000 "general" None false in
  ~ (forall p, In p keep -> raises (insert_pdf f p true) = true ->
               In (InsertPdf p false) (events r)) /\
  ~ (status (current r) = "error" <->
     exists p, In p keep /\ fails_both f p = true).
Proof.
  intros f keep r. split.
  - intros H. specialize (H 0 ltac:(left; reflexivity) eq_refl).
    vm_compute in H. destruct H as [[=] | []].
  - intros [H _]. destruct (H eq_refl) as (p & _ & Hp).
    unfold fails_both in Hp. apply andb_true_iff in Hp as [_ Hp].
    unfold f in Hp. simpl in Hp.
    destruct ((p =? 0) && false) eqn:E; [|discriminate].
    rewrite andb_false_r in E. discriminate.
Qed.

(** ** External tools *)

Lemma body_from_selecting w job input_pdf q d mode extract_pages ex :
  process_job_body w input_pdf q d mode extract_pages ex (start_run job)
  = (assemble w input_pdf q d mode extract_pages ex
       ≫= fun pymupdf_bytes => distill_and_finish (tools w) pymupdf_bytes ex)
      (selecting job).
Proof. reflexivity. Qed.

Lemma distill_and_finish_run t pymupdf_bytes ex s :
  fst (distill_and_finish t pymupdf_bytes ex s) = Returns () /\
  current (snd (distill_and_finish t pymupdf_bytes ex s))
  = update_done
      (pikepdf_optimize t (ghostscript_compress t pymupdf_bytes ex))
      (with_progress 95
         (with_status "Optimizing final PDF structure..."
            (with_progress 90
               (with_status "Applying Ghostscript compression..."
                  (current s))))).
Proof. split; reflexivity. Qed.

(** C5. Each transform returns its input when its tool fails: the
    re-distillation when no executable is found, when the subprocess cannot
    be run, when it exits with a non-zero code and when it writes nothing;
    the structural optimization when the pass raises.  So a job whose
    document was assembled and saved ends in status "done" whatever the
    tools do, and with both tools out of order its output is the saved
    intermediate itself. *)
Theorem tool_failures_fall_back_to_input
    w now inp_path input_pdf q d mode extract_pages ex :
  let t := tools w in
  let job := new_job now inp_path in
  (forall input_bytes extreme,
     (_find_ghostscript_exe t = None ->
      ghostscript_compress t input_bytes extreme = input_bytes) /\
     (forall gs_exe,
        _find_ghostscript_exe t = Some gs_exe ->
        let cmd := (gs_cmd gs_exe extreme ++ ["-"])%list in
        (forall e, run t cmd input_bytes = Raises e ->
           ghostscript_compress t input_bytes extreme = input_bytes) /\
        (forall returncode out err,
           run t cmd input_bytes = Returns (returncode, out, err) ->
           returncode <> 0 ->
           ghostscript_compress t input_bytes extreme = input_bytes) /\
        (forall returncode err,
           run t cmd input_bytes = Returns (returncode, [], err) ->
           ghostscript_compress t input_bytes extreme = input_bytes) /\
        (forall out err,
           run t cmd input_bytes = Returns (0, out, err) -> out <> [] ->
           ghostscript_compress t input_bytes extreme = out)) /\
     (forall e, pikepdf_pass t input_bytes = Raises e ->
        pikepdf_optimize t input_bytes = input_bytes)) /\
  (forall pymupdf_bytes s1,
     assemble w input_pdf q d mode extract_pages ex (selecting job)
     = (Returns pymupdf_bytes, s1) ->
     let j := current (run_job w job input_pdf q d mode extract_pages ex) in
     (status j = "done" /\ progress j = 100 /\ error j = None /\
      output_buffer j
      = Some (pikepdf_optimize t (ghostscript_compress t pymupdf_bytes ex))) /\
     (_find_ghostscript_exe t = None ->
      (exists e, pikepdf_pass t pymupdf_bytes = Raises e) ->
      output_buffer j = Some pymupdf_bytes)).
Proof.
  intros t job. split.
  - intros input_bytes extreme. split; [|split].
    + intros Hnone. unfold ghostscript_compress. rewrite Hnone. reflexivity.
    + intros gs_exe Hexe cmd. unfold ghostscript_compress. rewrite Hexe.
      fold cmd. repeat split.
      * intros e ->. reflexivity.
      * intros rc out err -> Hrc. apply Z.eqb_neq in Hrc. rewrite Hrc.
        reflexivity.
      * intros rc err ->. destruct (negb (rc =? 0)); reflexivity.
      * intros out err -> Hout. simpl. destruct out; [congruence | reflexivity].
    + intros e He. unfold pikepdf_optimize. rewrite He. reflexivity.
  - intros pymupdf_bytes s1 Hasm j.
    assert (Hj : j = update_done
              (pikepdf_optimize t (ghostscript_compress t pymupdf_bytes ex))
              (with_progress 95
                 (with_status "Optimizing final PDF structure..."
                    (with_progress 90
                       (with_status "Applying Ghostscript compression..."
                          (current s1)))))).
    { unfold j, run_job, try_except. rewrite body_from_selecting.
      rewrite bind_unfold, Hasm.
      destruct (distill_and_finish_run (tools w) pymupdf_bytes ex s1)
        as [Hret Hcur].
      destruct (distill_and_finish (tools w) pymupdf_bytes ex s1) as [o s2].
      simpl in Hret. subst o. exact Hcur. }
    split.
    + rewrite Hj. repeat split.
    + intros Hnone [e He]. rewrite Hj. simpl.
      unfold ghostscript_compress. rewrite Hnone.
      unfold pikepdf_optimize. rewrite He. reflexivity.
Qed.

Lemma tool_failures_fall_back_to_input_witness :
  let j := current (run_job sample_world (new_job 0 "/tmp/in.pdf")
                      "/tmp/in.pdf" 60 1000 "general" (Some [2; 3; 9]) true) in
  status j = "done" /\
  output_buffer j = Some [Byte.x25; Byte.x50; Byte.x44; Byte.x46].
Proof.
  intros j.
  pose proof (proj2 (tool_failures_fall_back_to_input sample_world 0
                "/tmp/in.pdf" "/tmp/in.pdf" 60 1000 "general"
                (Some [2; 3; 9]) true)
                [Byte.x25; Byte.x50; Byte.x44; Byte.x46]
                (snd (assemble sample_world "/tmp/in.pdf" 60 1000 "general"
                        (Some [2; 3; 9]) true
                        (selecting (new_job 0 "/tmp/in.pdf")))))
    as H.
  destruct H as [(Hs & _) Hout]; [vm_compute; reflexivity|].
  split; [exact Hs|].
  apply Hout; [reflexivity | eexists; reflexivity].
Defined.

(** ** Image recompression *)




Example resample_image_values :
  _resample_image sample_pil (mkImage 2000 1500 "RGB") 1000 "general" 60 false
  = Returns (mkEncoded (mkImage 1000 750 "L") (JPEG true 60)) /\
  _resample_image sample_pil (mkImage 800 600 "RGB") 1000 "mixed" 100 false
  = Returns (mkEncoded (mkImage 800 600 "RGB") (JPEG true 95)) /\
  _resample_image sample_pil (mkImage 800 600 "RGB") 1000 "line_art" 5 false
  = Returns (mkEncoded (mkImage 800 600 "1") (TIFF "group4")).
Proof. repeat split. Qed.

(** ** The page list of a submission *)

Lemma int_tokens_none tokens :
  Forall (fun p => isdigit (strip p) = false) tokens ->
  int_tokens tokens = Returns [].
Proof.
  induction 1 as [|p rest Hp _ IH]; simpl; [reflexivity|].
  rewrite Hp. exact IH.
Qed.

Lemma int_tokens_some tokens l :
  int_tokens tokens = Returns l -> l <> [] ->
  exists p, In p tokens /\ isdigit (strip p) = true.
Proof.
  revert l. induction tokens as [|p rest IH]; intros l; simpl.
  - intros [= <-] H. contradiction.
  - destruct (isdigit (strip p)) eqn:Hp.
    + intros _ _. exists p. split; [left; reflexivity | exact Hp].
    + intros H Hl. destruct (IH l H Hl) as (p' & Hin & Hd).
      exists p'. split; [right; exact Hin | exact Hd].
Qed.

Lemma digits_value_total s :
  all_digits s = true ->
  forall acc seen, (seen = true \/ s <> "") -> 0 <= acc ->
    exists v, digits_value acc seen s = Some v /\ 0 <= v.
Proof.
  induction s as [|c s IH]; intros Hd acc seen Hne Hacc; simpl in *.
  - destruct Hne as [-> | Hne]; [eauto | contradiction].
  - apply andb_true_iff in Hd as [Hc Hs]. rewrite Hc.
    apply IH; [exact Hs | left; reflexivity|].
    unfold is_digit, in_range in Hc. apply andb_true_iff in Hc as [Hlo _].
    apply N.leb_le in Hlo. lia.
Qed.

Lemma digit_not_sign c :
  is_digit c = true -> c <> "-"%char /\ c <> "+"%char.
Proof. intros H. split; intros ->; discriminate H. Qed.

Lemma compress_page_list env srv req job_id srv' args :
  Routes.compress env srv req = (JsonJobId job_id, srv', Some args) ->
  parse_extract_pages (strip (default "" (form req !! "extract_pages")))
  = Returns (arg_extract_pages args).
Proof.
  unfold Routes.compress. destruct (files req !! "file"); [|discriminate].
  destruct (_ || _); [discriminate|].
  unfold Routes.read_form.
  destruct (int_field (form req) "quality" 60); [|discriminate].
  destruct (int_field (form req) "max_dimension" 1000); [|discriminate].
  destruct (parse_extract_pages _) as [l|]; [|discriminate].
  destruct (save_upload env); [|discriminate].
  destruct (thread_start env); [|discriminate].
  intros [= _ _ <-]. reflexivity.
Qed.

(** With the source open, a run ends as an invalid-selection failure
    exactly when a non-empty list was given and no entry is a page of the
    source. *)
Lemma invalid_selection_iff w now inp_path input_pdf q d mode ex page_count l :
  fitz_open (fitz w) input_pdf = Returns page_count ->
  run_job w (new_job now inp_path) input_pdf q d mode (Some l) ex
  = invalid_selection_failure (new_job now inp_path) <->
  l <> [] /\ forall v, In v l -> ~ (1 <= v <= page_count).
Proof.
  intros Hopen.
  assert (Hpast : forall keep label,
            select_pages (Some l) page_count = Returns (keep, label) ->
            run_job w (new_job now inp_path) input_pdf q d mode (Some l) ex
            <> invalid_selection_failure (new_job now inp_path)).
  { intros keep label Hsel Hr.
    pose proof (run_after_selection w now inp_path input_pdf q d mode
                  (Some l) ex page_count keep label Hopen Hsel) as H10.
    rewrite Hr in H10. simpl in H10. lia. }
  destruct l as [|p pages].
  - split; [|intros [H _]; contradiction]. intros Hr. exfalso.
    eapply Hpast; [reflexivity | exact Hr].
  - destruct (select_pages_explicit p pages page_count) as [Hemp Hne].
    cbv zeta in Hemp, Hne.
    set (keep := List.filter (fun i => (0 <=? i) && (i <? page_count))
                   (map (fun p => p - 1) (p :: pages))) in *.
    assert (Hkeep : keep = [] <->
                    forall v, In v (p :: pages) -> ~ (1 <= v <= page_count)).
    { split.
      - intros Hk v Hin Hv.
        assert (Hin' : In (v - 1) keep).
        { unfold keep. apply filter_In. split.
          - apply in_map_iff. exists v. split; [reflexivity | exact Hin].
          - apply andb_true_iff. split; [apply Z.leb_le | apply Z.ltb_lt]; lia. }
        rewrite Hk in Hin'. exact Hin'.
      - intros Hall. destruct keep as [|k ks] eqn:E; [reflexivity|]. exfalso.
        assert (Hin : In k keep) by (rewrite E; left; reflexivity).
        unfold keep in Hin. apply filter_In in Hin as [Hin Hb].
        apply in_map_iff in Hin as (v & <- & Hv).
        apply andb_true_iff in Hb as [H0 H1].
        apply Z.leb_le in H0. apply Z.ltb_lt in H1.
        apply (Hall v Hv). lia. }
    split.
    + intros Hr. split; [discriminate|]. apply Hkeep.
      destruct keep as [|k ks] eqn:E; [reflexivity|]. exfalso.
      destruct Hne as [label Hl]; [discriminate|].
      eapply Hpast; [exact Hl | exact Hr].
    + intros [_ Hall]. apply Hkeep in Hall.
      apply (body_selection_fails _ _ _ _ _ _ _ _ _ _ Hopen (Hemp Hall)).
Qed.

(** C10. When no token of the [extract_pages] field is a digit string
    (blanks around a token set aside, as the code strips them), every token
    is dropped, the page list is empty and the job takes all the pages of
    the source instead of failing; a job fails with the invalid-selection
    error only when some token is a digit string and every page number read
    is outside the pages of the source. *)
Theorem non_digit_tokens_select_all_pages
    w now inp_path input_pdf q d mode ex page_count (field : string) :
  fitz_open (fitz w) input_pdf = Returns page_count ->
  let job := new_job now inp_path in
  let tokens := split "," (strip field) in
  (forall env srv req job_id srv' args,
     Routes.compress env srv req = (JsonJobId job_id, srv', Some args) ->
     form req !! "extract_pages" = Some field ->
     parse_extract_pages (strip field) = Returns (arg_extract_pages args)) /\
  (Forall (fun p => isdigit (strip p) = false) tokens ->
   parse_extract_pages (strip field) = Returns [] /\
   select_pages (Some []) page_count
   = Returns (range page_count, "Processing all pages...") /\
   run_job w job input_pdf q d mode (Some []) ex
   <> invalid_selection_failure job /\
   10 <= progress (current (run_job w job input_pdf q d mode (Some []) ex))) /\
  (forall l,
     parse_extract_pages (strip field) = Returns l ->
     run_job w job input_pdf q d mode (Some l) ex
     = invalid_selection_failure job ->
     (exists p, In p tokens /\ isdigit (strip p) = true) /\
     l <> [] /\ forall v, In v l -> ~ (1 <= v <= page_count)).
Proof.
  intros Hopen job tokens. split; [|split].
  - intros env srv req job_id srv' args Hc Hf.
    pose proof (compress_page_list env srv req job_id srv' args Hc) as H.
    rewrite Hf in H. exact H.
  - intros Hnone.
    assert (Hparse : parse_extract_pages (strip field) = Returns []).
    { unfold parse_extract_pages.
      destruct (String.eqb (strip field) ""); [reflexivity|].
      apply int_tokens_none, Hnone. }
    split; [exact Hparse|]. split; [reflexivity|]. split.
    + intros Hr.
      apply (invalid_selection_iff w now inp_path input_pdf q d mode ex
               page_count [] Hopen) in Hr as [Hne _]. contradiction.
    + apply (run_after_selection w now inp_path input_pdf q d mode (Some [])
               ex page_count (range page_count) "Processing all pages..."
               Hopen eq_refl).
  - intros l Hparse Hr.
    apply (invalid_selection_iff w now inp_path input_pdf q d mode ex
             page_count l Hopen) in Hr as [Hne Hall].
    split; [|split; assumption].
    unfold parse_extract_pages in Hparse.
    destruct (String.eqb (strip field) ""); [congruence|].
    apply (int_tokens_some _ l Hparse Hne).
Qed.

Lemma non_digit_tokens_select_all_pages_witness :
  parse_extract_pages (strip " a,b ") = Returns [] /\
  parse_extract_pages (strip "1.5") = Returns [] /\
  select_pages (Some []) 3 = Returns ([0; 1; 2], "Processing all pages...") /\
  (exists p, In p (split "," (strip "0, 7,x")) /\ isdigit (strip p) = true).
Proof.
  pose proof (non_digit_tokens_select_all_pages sample_world 0 "/tmp/in.pdf"
                "/tmp/in.pdf" 60 1000 "general" false 3) as H.
  split; [|split; [|split]].
  - apply (proj1 (proj2 (H " a,b " eq_refl))). repeat constructor.
  - apply (proj1 (proj2 (H "1.5" eq_refl))). repeat constructor.
  - apply (proj1 (proj2 (H "" eq_refl))). repeat constructor.
  - apply (proj2 (proj2 (H "0, 7,x" eq_refl)) [0; 7]); reflexivity.
Defined.

Example extract_pages_tokens :
  parse_extract_pages (strip "1 , 2,x,1.5,007") = Returns [1; 2; 7] /\
  parse_extract_pages (strip "") = Returns [] /\
  parse_extract_pages (strip "-1,+2,1_0") = Returns [].
Proof. repeat split. Qed.

(** ** The eviction sweep *)

Lemma cleanup_temp_file_spec fs path :
  undeletable (cleanup_temp_file fs (Some path)) = undeletable fs /\
  existing (cleanup_temp_file fs (Some path)) ⊆ existing fs /\
  (path ∈ existing (cleanup_temp_file fs (Some path)) ->
   path ∈ undeletable fs \/ path = "") /\
  (forall other, other ∈ existing fs ->
     other ∉ existing (cleanup_temp_file fs (Some path)) -> other = path).
Proof.
  unfold cleanup_temp_file, os_remove.
  destruct (String.eqb_spec path "") as [->|Hne].
  { repeat split; [reflexivity | auto | intros; contradiction]. }
  destruct (decide (path ∈ existing fs)) as [Hin|Hnin].
  - destruct (decide (path ∈ undeletable fs)) as [Hu|Hu]; simpl.
    + repeat split; [reflexivity | auto | intros; contradiction].
    + repeat split.
      * apply subseteq_difference_l. reflexivity.
      * intros H. apply elem_of_difference in H as [_ H].
        exfalso. apply H, elem_of_singleton. reflexivity.
      * intros other H1 H2. destruct (decide (other = path)); [assumption|].
        exfalso. apply H2, elem_of_difference. split; [exact H1|].
        intros H. apply elem_of_singleton in H. contradiction.
  - repeat split; [reflexivity | intros; contradiction | intros; contradiction].
Qed.

Lemma evict_jobs srv jid : jobs (evict srv jid) = delete jid (jobs srv).
Proof.
  unfold evict. destruct (jobs srv !! jid) eqn:E; [reflexivity|].
  symmetry. apply delete_id, E.
Qed.

Lemma to_remove_spec (registry : gmap string Job) now max_age_sec jid :
  In jid (to_remove registry now max_age_sec) <->
  exists j, registry !! jid = Some j /\ expired now max_age_sec j = true.
Proof.
  unfold to_remove. rewrite in_map_iff. split.
  - intros ([k j] & <- & Hin). apply filter_In in Hin as [Hin He].
    apply list_elem_of_In, elem_of_map_to_list in Hin. eauto.
  - intros (j & Hj & He). exists (jid, j). split; [reflexivity|].
    apply filter_In. split; [|exact He].
    apply list_elem_of_In, elem_of_map_to_list, Hj.
Qed.

(** The loop [for jid in to_remove], for any list of tokens. *)
Lemma sweep_spec (l : list string) : forall srv,
  (forall jid, (In jid l -> jobs (foldl evict srv l) !! jid = None) /\
               (~ In jid l ->
                jobs (foldl evict srv l) !! jid = jobs srv !! jid)) /\
  undeletable (disk (foldl evict srv l)) = undeletable (disk srv) /\
  existing (disk (foldl evict srv l)) ⊆ existing (disk srv) /\
  (forall jid j,
     In jid l -> jobs srv !! jid = Some j ->
     input_path j ∈ existing (disk (foldl evict srv l)) ->
     input_path j ∈ undeletable (disk srv) \/ input_path j = "") /\
  (forall path,
     path ∈ existing (disk srv) ->
     path ∉ existing (disk (foldl evict srv l)) ->
     exists jid j, In jid l /\ jobs srv !! jid = Some j /\
                   input_path j = path).
Proof.
  induction l as [|a rest IH]; intros srv.
  - simpl. repeat split; try tauto; try reflexivity.
  - simpl foldl. destruct (IH (evict srv a)) as (Hj & Hu & He & Hf & Hd).
    assert (Hdisk :
      undeletable (disk (evict srv a)) = undeletable (disk srv) /\
      existing (disk (evict srv a)) ⊆ existing (disk srv)).
    { unfold evict. destruct (jobs srv !! a) as [j|]; [|split; reflexivity].
      simpl.
      destruct (cleanup_temp_file_spec (disk srv) (input_path j))
        as (H1 & H2 & _). split; assumption. }
    destruct Hdisk as [Hu1 He1].
    split; [|split; [congruence | split; [etransitivity; eassumption | split]]].
    + intros jid. split.
      * intros Hin. destruct (in_dec string_dec jid rest) as [Hr|Hr].
        -- apply Hj, Hr.
        -- rewrite (proj2 (Hj jid) Hr), evict_jobs.
           destruct Hin as [->|Hin]; [apply lookup_delete_eq | contradiction].
      * intros Hnin. rewrite (proj2 (Hj jid)) by (intros H; apply Hnin; right; exact H).
        rewrite evict_jobs. apply lookup_delete_ne.
        intros ->. apply Hnin. left. reflexivity.
    + intros jid j Hin Hjob Hex.
      destruct (string_dec a jid) as [->|Hne].
      * assert (Hex1 : input_path j ∈ existing (disk (evict srv jid)))
          by (apply He, Hex).
        unfold evict in Hex1. rewrite Hjob in Hex1. simpl in Hex1.
        apply (cleanup_temp_file_spec (disk srv) (input_path j)), Hex1.
      * destruct Hin as [->|Hin]; [contradiction|].
        rewrite <- Hu1. apply (Hf jid j Hin); [|exact Hex].
        rewrite evict_jobs, lookup_delete_ne by exact Hne. exact Hjob.
    + intros path Hin Hnin.
      destruct (decide (path ∈ existing (disk (evict srv a)))) as [H1|H1].
      * destruct (Hd path H1 Hnin) as (jid & j & Hr & Hjob & Hp).
        rewrite evict_jobs in Hjob.
        apply lookup_delete_Some in Hjob as [_ Hjob].
        exists jid, j. split; [right; exact Hr | split; assumption].
      * unfold evict in H1. destruct (jobs srv !! a) as [j|] eqn:Ea;
          [|contradiction].
        simpl in H1.
        exists a, j. split; [left; reflexivity | split; [exact Ea|]].
        symmetry.
        apply (cleanup_temp_file_spec (disk srv) (input_path j)); assumption.
Qed.

(** C9, as the code has it.  After a sweep every job older than
    [max_age_sec] is gone from the registry, whatever its state, and its
    token is answered "not found" by the status and download routes; the
    removal of its input file is attempted, so that the file is gone unless
    the system refused the removal (which is only logged).  Younger jobs
    and their answers are unchanged, and only input files of evicted jobs
    are removed. *)
Theorem eviction_sweep now max_age_sec srv :
  let srv' := cleanup_old_jobs now max_age_sec srv in
  (forall jid j,
     jobs srv !! jid = Some j -> expired now max_age_sec j = true ->
     jobs srv' !! jid = None /\
     Routes.status srv' jid = JsonJobNotFound /\
     Routes.download srv' jid = JsonError 404 "File not ready or found" /\
     (input_path j ∈ existing (disk srv') ->
      input_path j ∈ undeletable (disk srv) \/ input_path j = "")) /\
  (forall jid j,
     jobs srv !! jid = Some j -> expired now max_age_sec j = false ->
     jobs srv' !! jid = Some j /\
     Routes.status srv' jid = Routes.status srv jid /\
     Routes.download srv' jid = Routes.download srv jid) /\
  (forall path,
     path ∈ existing (disk srv) -> path ∉ existing (disk srv') ->
     exists jid j, jobs srv !! jid = Some j /\
                   expired now max_age_sec j = true /\ input_path j = path) /\
  existing (disk srv') ⊆ existing (disk srv).
Proof.
  intros srv'. subst srv'. unfold cleanup_old_jobs.
  destruct (sweep_spec (to_remove (jobs srv) now max_age_sec) srv)
    as (Hj & _ & He & Hf & Hd).
  split; [|split; [|split; [|exact He]]].
  - intros jid j Hjob Hexp.
    assert (Hin : In jid (to_remove (jobs srv) now max_age_sec))
      by (apply to_remove_spec; eauto).
    pose proof (proj1 (Hj jid) Hin) as Hnone.
    unfold Routes.status, Routes.download. rewrite Hnone.
    repeat split. apply (Hf jid j Hin Hjob).
  - intros jid j Hjob Hexp.
    assert (Hnin : ~ In jid (to_remove (jobs srv) now max_age_sec)).
    { intros Hin. apply to_remove_spec in Hin as (j' & Hj' & He').
      congruence. }
    pose proof (proj2 (Hj jid) Hnin) as Hsame.
    unfold Routes.status, Routes.download. rewrite Hsame, Hjob.
    repeat split.
  - intros path Hin Hnin. destruct (Hd path Hin Hnin) as (jid & j & Hr & Hjob & Hp).
    apply to_remove_spec in Hr as (j' & Hj' & He').
    exists jid, j. repeat split; congruence.
Qed.

Lemma eviction_sweep_witness :
  let srv := {| jobs := {[ "5f0c" := new_job 0 "/tmp/tmpa1.pdf" ]};
                disk := {| existing := {[ "/tmp/tmpa1.pdf" ]};
                           undeletable := ∅ |} |} in
  let srv' := cleanup_old_jobs 4000 3600 srv in
  Routes.status srv' "5f0c" = JsonJobNotFound /\
  "/tmp/tmpa1.pdf" ∉ existing (disk srv').
Proof.
  intros srv srv'.
  destruct (proj1 (eviction_sweep 4000 3600 srv) "5f0c"
              (new_job 0 "/tmp/tmpa1.pdf") eq_refl eq_refl)
    as (_ & Hstatus & _ & Hfile).
  split; [exact Hstatus|].
  intros Hin. destruct (Hfile Hin) as [Hu | Hempty].
  - simpl in Hu. apply elem_of_empty in Hu. exact Hu.
  - discriminate Hempty.
Defined.

(** C9 as stated fails: a job older than the window is evicted, but its
    input file, whose removal the system refuses, is still there. *)
Lemma eviction_claim_counterexample :
  let srv' := cleanup_old_jobs 4000 3600 locked_server in
  ~ (forall jid j,
       jobs locked_server !! jid = Some j -> expired 4000 3600 j = true ->
       jobs srv' !! jid = None /\ input_path j ∉ existing (disk srv')).
Proof.
  intros srv' H.
  destruct (H "5f0c" (new_job 0 "/tmp/tmpa1.pdf") eq_refl eq_refl) as [_ Hgone].
  apply Hgone. vm_compute. reflexivity.
Qed.

(* ===================================================================== *)
(** * Part III: further properties of the code                            *)
(* ===================================================================== *)

(** ** The classifier *)

Lemma first_key_in {A : Type} (hit : A -> bool) table k :
  first_key hit table = Some k -> In k (map fst table).
Proof.
  intros H. apply first_key_Some_inv in H as (pre & v & post & -> & _ & _).
  rewrite map_app. apply in_or_app. right. left. reflexivity.
Qed.

Lemma classify_page_in_labels (p : Page) : In (classify_page p) labels.
Proof.
  assert (Hkeys : forall (A : Type) (hit : A -> bool) table k,
            first_key hit table = Some k ->
            (forall x, In x (map fst table) -> In x labels) -> In k labels).
  { intros A hit table k H Hall. apply Hall. eapply first_key_in, H. }
  unfold classify_page.
  destruct (first_key _ patterns) as [k1|] eqn:E1.
  { apply (Hkeys _ _ _ _ E1). simpl. tauto. }
  destruct (first_key (fun pat => re_search pat (full_text p)) patterns)
    as [k2|] eqn:E2.
  { apply (Hkeys _ _ _ _ E2). simpl. tauto. }
  destruct (first_key _ discipline_keywords) as [k3|] eqn:E3.
  { apply (Hkeys _ _ _ _ E3). simpl. tauto. }
  destruct (first_key _ general) as [k4|] eqn:E4.
  { apply (Hkeys _ _ _ _ E4). simpl. tauto. }
  simpl. tauto.
Qed.

(** X1. The classifier always answers with one of the twelve labels, and
    it answers "other" exactly when nothing matched: no pattern on the
    corner text, none on the full text, and no keyword of either table. *)
Theorem classify_page_labels (p : Page) :
  In (classify_page p) labels /\
  (classify_page p = "other" <->
   no_hit (fun r => re_search r (corner_text p)) patterns /\
   no_hit (fun r => re_search r (full_text p)) patterns /\
   no_hit (any_in (full_text p)) discipline_keywords /\
   no_hit (any_in (full_text p)) general).
Proof.
  assert (Hkeys : forall (A : Type) (hit : A -> bool) table k,
            first_key hit table = Some k ->
            (forall x, In x (map fst table) -> In x labels /\ x <> "other") ->
            In k labels /\ k <> "other").
  { intros A hit table k H Hall. apply Hall. eapply first_key_in, H. }
  assert (Hp : forall x, In x (map fst patterns) -> In x labels /\ x <> "other").
  { simpl. intros x H. repeat destruct H as [<- | H];
      try (split; [simpl; tauto | discriminate]); contradiction. }
  assert (Hd : forall x, In x (map fst discipline_keywords) ->
                         In x labels /\ x <> "other").
  { simpl. intros x H. repeat destruct H as [<- | H];
      try (split; [simpl; tauto | discriminate]); contradiction. }
  assert (Hg : forall x, In x (map fst general) -> In x labels /\ x <> "other").
  { simpl. intros x H. repeat destruct H as [<- | H];
      try (split; [simpl; tauto | discriminate]); contradiction. }
  rewrite <- !first_key_None. unfold classify_page.
  destruct (first_key _ patterns) as [k1|] eqn:E1.
  { destruct (Hkeys _ _ _ _ E1 Hp) as [Hin Hne].
    split; [exact Hin|]. split; [contradiction | intros [[=] _]]. }
  destruct (first_key (fun pat => re_search pat (full_text p)) patterns)
    as [k2|] eqn:E2.
  { destruct (Hkeys _ _ _ _ E2 Hp) as [Hin Hne].
    split; [exact Hin|]. split; [contradiction | intros (_ & [=] & _)]. }
  destruct (first_key _ discipline_keywords) as [k3|] eqn:E3.
  { destruct (Hkeys _ _ _ _ E3 Hd) as [Hin Hne].
    split; [exact Hin|]. split; [contradiction | intros (_ & _ & [=] & _)]. }
  destruct (first_key _ general) as [k4|] eqn:E4.
  { destruct (Hkeys _ _ _ _ E4 Hg) as [Hin Hne].
    split; [exact Hin|]. split; [contradiction | intros (_ & _ & _ & [=])]. }
  split; [simpl; tauto|]. split; [intros _; repeat split | reflexivity].
Qed.

Lemma upper_char_idem c : upper_char (upper_char c) = upper_char c.
Proof. destruct c as [[] [] [] [] [] [] [] []]; reflexivity. Qed.

Lemma upper_lower_char c : upper_char (lower_char c) = upper_char c.
Proof. destruct c as [[] [] [] [] [] [] [] []]; reflexivity. Qed.

Lemma upper_idem s : upper (upper s) = upper s.
Proof.
  induction s as [|c s IH]; simpl; [reflexivity|].
  rewrite upper_char_idem, IH. reflexivity.
Qed.

Lemma upper_lower s : upper (lower s) = upper s.
Proof.
  induction s as [|c s IH]; simpl; [reflexivity|].
  rewrite upper_lower_char, IH. reflexivity.
Qed.

(** X2. The classification does not depend on the case of the page text:
    the page gets the same label when its texts are put in upper case or in
    lower case. *)
Theorem classify_page_ignores_case (corner full : string) :
  classify_page (mkPage (Some (upper corner)) (Some (upper full)))
  = classify_page (mkPage (Some corner) (Some full)) /\
  classify_page (mkPage (Some (lower corner)) (Some (lower full)))
  = classify_page (mkPage (Some corner) (Some full)).
Proof.
  unfold classify_page, corner_text, full_text, page_texts. simpl.
  rewrite !upper_idem, !upper_lower. split; reflexivity.
Qed.

Lemma match_here_digit (r : regex) :
  In (One is_digit) r ->
  forall prev s, match_here r prev s = true ->
                 string_exists is_digit s = true.
Proof.
  induction r as [|a r IH]; intros Hin prev s H; [contradiction|].
  destruct a as [|cls|cls]; simpl in H.
  - destruct Hin as [[=]|Hin]. apply andb_true_iff in H as [_ H]. eauto.
  - destruct s as [|c s]; [discriminate|].
    apply andb_true_iff in H as [Hc H]. simpl.
    destruct Hin as [[= ->]|Hin]; [rewrite Hc; reflexivity|].
    rewrite (IH Hin _ _ H). apply orb_true_r.
  - destruct Hin as [[=]|Hin]. destruct s as [|c s]; [eauto|].
    apply orb_true_iff in H as [H|H]; [|eauto].
    apply andb_true_iff in H as [_ H]. simpl.
    rewrite (IH Hin _ _ H). apply orb_true_r.
Qed.

Lemma re_search_digit (r : regex) (text : string) :
  In (One is_digit) r -> re_search r text = true ->
  string_exists is_digit text = true.
Proof.
  intros Hin. unfold re_search. generalize (@None ascii) as prev.
  induction text as [|c text IH]; intros prev H; simpl in H.
  - rewrite orb_false_r in H. apply (match_here_digit r Hin _ _ H).
  - apply orb_true_iff in H as [H|H]; [apply (match_here_digit r Hin _ _ H)|].
    simpl. rewrite (IH _ H). apply orb_true_r.
Qed.

Lemma patterns_need_digit (text : string) :
  string_exists is_digit text = false ->
  no_hit (fun r => re_search r text) patterns.
Proof.
  intros Hno. unfold no_hit. apply Forall_forall. intros [k r] Hin.
  apply list_elem_of_In in Hin. simpl.
  destruct (re_search r text) eqn:E; [|reflexivity].
  apply re_search_digit in E; [congruence|].
  unfold patterns in Hin. simpl in Hin.
  repeat destruct Hin as [[= <- <-] | Hin]; try contradiction;
    simpl; tauto.
Qed.

(** X3. A sheet-number pattern needs a digit: when neither text of the
    page holds a digit no pattern matches, and the label is decided by the
    keyword tables alone. *)
Theorem digit_free_pages_go_by_keywords (p : Page) :
  string_exists is_digit (corner_text p) = false ->
  string_exists is_digit (full_text p) = false ->
  no_hit (fun r => re_search r (corner_text p)) patterns /\
  no_hit (fun r => re_search r (full_text p)) patterns /\
  classify_page p
  = default (default "other" (first_key (any_in (full_text p)) general))
      (first_key (any_in (full_text p)) discipline_keywords).
Proof.
  intros Hc Hf.
  pose proof (patterns_need_digit _ Hc) as H1.
  pose proof (patterns_need_digit _ Hf) as H2.
  split; [exact H1|]. split; [exact H2|].
  apply first_key_None in H1, H2. unfold classify_page. rewrite H1, H2.
  destruct (first_key _ discipline_keywords); [reflexivity|].
  destruct (first_key _ general); reflexivity.
Qed.

Lemma digit_free_pages_go_by_keywords_witness :
  classify_page (mkPage (Some "Sheet title") (Some "Planting and irrigation"))
  = "landscape".
Proof.
  exact (proj2 (proj2 (digit_free_pages_go_by_keywords
           (mkPage (Some "Sheet title") (Some "Planting and irrigation"))
           eq_refl eq_refl))).
Defined.

(** ** Page analysis *)

Lemma append_page_spec ptype n secs :
  NoDup (map fst secs) -> In ptype (map fst secs) ->
  append_page ptype n secs
  = Some (map (fun kl => (fst kl, if String.eqb (fst kl) ptype
                                  then (snd kl ++ [n])%list else snd kl))
            secs).
Proof.
  induction secs as [|[k l] rest IH]; intros Hnd Hin; [contradiction|].
  simpl in *. apply NoDup_cons in Hnd as [Hk Hnd].
  destruct (String.eqb_spec k ptype) as [->|Hne].
  - f_equal. f_equal. clear IH Hin Hnd.
    induction rest as [|[k' l'] rest IH]; [reflexivity|]. simpl in *.
    destruct (String.eqb_spec k' ptype) as [->|_].
    + exfalso. apply Hk. left.
    + rewrite <- IH; [destruct l'; reflexivity|].
      intros H. apply Hk. right. exact H.
  - destruct Hin as [->|Hin]; [contradiction|].
    rewrite (IH Hnd Hin). reflexivity.
Qed.

Lemma classify_pages_spec pages : forall start secs,
  NoDup (map fst secs) ->
  (forall k, In k labels -> In k (map fst secs)) ->
  classify_pages pages start secs
  = Some (map (fun kl => (fst kl,
                          (snd kl ++ pages_labelled (fst kl) pages start)%list))
            secs).
Proof.
  induction pages as [|page rest IH]; intros start secs Hnd Hall; simpl.
  - f_equal. induction secs as [|[k l] secs IHs]; [reflexivity|].
    simpl in *. apply NoDup_cons in Hnd as [_ Hnd].
    rewrite app_nil_r. f_equal.
    clear IHs Hall. induction secs as [|[k' l'] secs IHs]; [reflexivity|].
    simpl in *. apply NoDup_cons in Hnd as [_ Hnd].
    rewrite app_nil_r, <- IHs by exact Hnd. reflexivity.
  - rewrite append_page_spec;
      [|exact Hnd | apply Hall, classify_page_in_labels].
    rewrite IH.
    + f_equal. rewrite map_map. apply map_ext. intros [k l]. simpl.
      destruct (String.eqb k (classify_page page));
        [rewrite <- app_assoc|]; reflexivity.
    + rewrite map_map. simpl. exact Hnd.
    + intros k Hk. rewrite map_map. simpl. apply Hall, Hk.
Qed.

Lemma pages_labelled_In k pages : forall start n,
  In n (pages_labelled k pages start) <->
  exists i page, pages !! i = Some page /\ n = start + Z.of_nat i /\
                 k = classify_page page.
Proof.
  induction pages as [|page rest IH]; intros start n; simpl.
  - split; [contradiction | intros (i & p & H & _); discriminate].
  - assert (Hrest : In n (pages_labelled k rest (start + 1)) <->
              exists i p, (page :: rest) !! S i = Some p /\
                          n = start + Z.of_nat (S i) /\ k = classify_page p).
    { rewrite IH. split; intros (i & p & H1 & H2 & H3); exists i, p;
        (split; [exact H1 | split; [lia | exact H3]]). }
    destruct (String.eqb_spec k (classify_page page)) as [Hk|Hk]; simpl;
      rewrite Hrest; split.
    + intros [<- | (i & p & H)]; [exists 0%nat, page | exists (S i), p; exact H].
      repeat split; [lia | exact Hk].
    + intros ([|i] & p & H1 & H2 & H3); [left; lia | right; eauto].
    + intros (i & p & H). exists (S i), p. exact H.
    + intros ([|i] & p & H1 & H2 & H3); [|eauto].
      injection H1 as ->. contradiction.
Qed.

(** X4. The analysis of a document that opens never fails; it counts every
    page, keeps the twelve sections in their order, and lists under each
    label the numbers (from 1, increasing) of the pages the classifier gives
    that label: a page is listed under its own label and under no other. *)
Theorem analysis_partitions_pages (pages : list Page) :
  exists a,
    analyze_pdf_pages (Some pages) = Some a /\
    total_pages a = Z.of_nat (length pages) /\
    sections a
    = map (fun k => (k, pages_labelled k pages 1)) (map fst empty_sections) /\
    (forall i page k,
       pages !! i = Some page ->
       (In (Z.of_nat i + 1) (pages_labelled k pages 1) <->
        k = classify_page page)) /\
    (forall k n, In n (pages_labelled k pages 1) ->
                 1 <= n <= Z.of_nat (length pages)).
Proof.
  unfold analyze_pdf_pages.
  rewrite (classify_pages_spec pages 1 empty_sections).
  - eexists. split; [reflexivity|]. split; [reflexivity|].
    split; [reflexivity|]. split.
    + intros i page k Hi. rewrite pages_labelled_In. split.
      * intros (i' & page' & Hi' & Hn & Hk).
        assert (i' = i) by lia. subst i'. congruence.
      * intros ->. exists i, page. repeat split; [exact Hi | lia].
    + intros k n Hn. apply pages_labelled_In in Hn as (i & page & Hi & -> & _).
      apply lookup_lt_Some in Hi. lia.
  - apply (bool_decide_unpack _). vm_compute. exact I.
  - simpl. tauto.
Qed.

Lemma first_key_cons {A : Type} (hit : A -> bool) k v rest :
  first_key hit ((k, v) :: rest)
  = if hit v then Some k else first_key hit rest.
Proof. reflexivity. Qed.

Lemma append_assoc_str (a b c : string) : (a +:+ b) +:+ c = a +:+ (b +:+ c).
Proof.
  induction a as [|x a IH]; [reflexivity|].
  rewrite !append_cons, IH. reflexivity.
Qed.

Lemma str_in_trans (w' w s : string) :
  str_in w' w = true -> str_in w s = true -> str_in w' s = true.
Proof.
  rewrite !str_in_spec. intros (a' & b' & ->) (a & b & ->).
  exists (a +:+ a'), (b' +:+ b). rewrite !append_assoc_str. reflexivity.
Qed.

Lemma orb_absorb_sub (w' w s : string) (rest : bool) :
  str_in w' w = true ->
  str_in w' s || (str_in w s || rest) = str_in w' s || rest.
Proof.
  intros Hsub. destruct (str_in w' s) eqn:E1; [reflexivity|]. simpl.
  destruct (str_in w s) eqn:E2; [|reflexivity].
  rewrite (str_in_trans w' w s Hsub E2) in E1. discriminate.
Qed.

(** X5. In the administrative table the keywords "DOOR SCHEDULE", "WINDOW
    SCHEDULE", "FINISH SCHEDULE" and "SECTION DETAIL" never decide anything:
    each contains a shorter keyword of its own category, so the table gives
    the same answer on every text without them. *)
Theorem longer_keywords_are_redundant (text : string) :
  first_key (any_in text) general = first_key (any_in text) general_core /\
  (any_in text ["SCHEDULE"; "DOOR SCHEDULE"; "WINDOW SCHEDULE";
                "FINISH SCHEDULE"]
   = str_in "SCHEDULE" text).
Proof.
  assert (Hs : any_in text ["SCHEDULE"; "DOOR SCHEDULE"; "WINDOW SCHEDULE";
                            "FINISH SCHEDULE"]
               = any_in text ["SCHEDULE"]).
  { unfold any_in, existsb.
    rewrite (orb_absorb_sub "SCHEDULE" "DOOR SCHEDULE") by reflexivity.
    rewrite (orb_absorb_sub "SCHEDULE" "WINDOW SCHEDULE") by reflexivity.
    rewrite (orb_absorb_sub "SCHEDULE" "FINISH SCHEDULE") by reflexivity.
    reflexivity. }
  assert (Hd : any_in text ["DETAIL"; "CONNECTION"; "ASSEMBLY";
                            "SECTION DETAIL"]
               = any_in text ["DETAIL"; "CONNECTION"; "ASSEMBLY"]).
  { unfold any_in, existsb.
    destruct (str_in "DETAIL" text) eqn:E1; [reflexivity|]. simpl.
    destruct (str_in "CONNECTION" text); [reflexivity|]. simpl.
    destruct (str_in "ASSEMBLY" text); [reflexivity|]. simpl.
    destruct (str_in "SECTION DETAIL" text) eqn:E2; [|reflexivity].
    rewrite (str_in_trans "DETAIL" "SECTION DETAIL" text eq_refl E2) in E1.
    discriminate. }
  split.
  - unfold general, general_core. rewrite !first_key_cons, Hs, Hd.
    reflexivity.
  - rewrite Hs. unfold any_in. simpl. apply orb_false_r.
Qed.

(** ** External tools *)

Lemma first_path_spec which candidates :
  match first_path which candidates with
  | Some path =>
      path <> "" /\
      exists before c after,
        candidates = (before ++ c :: after)%list /\ which c = Some path /\
        Forall (fun c' => which c' = None \/ which c' = Some "") before
  | None => Forall (fun c => which c = None \/ which c = Some "") candidates
  end.
Proof.
  induction candidates as [|c rest IH]; simpl; [constructor|].
  destruct (which c) as [path|] eqn:Ec.
  - destruct (String.eqb_spec path "") as [->|Hne].
    + destruct (first_path which rest) as [p|].
      * destruct IH as (Hp & b & c' & a & -> & Hc' & Hb). split; [exact Hp|].
        exists (c :: b), c', a. repeat split; [exact Hc'|].
        constructor; [right; exact Ec | exact Hb].
      * constructor; [right; exact Ec | exact IH].
    + split; [exact Hne|]. exists [], c, rest. repeat split; [exact Ec|].
      constructor.
  - destruct (first_path which rest) as [p|].
    + destruct IH as (Hp & b & c' & a & -> & Hc' & Hb). split; [exact Hp|].
      exists (c :: b), c', a. repeat split; [exact Hc'|].
      constructor; [left; exact Ec | exact Hb].
    + constructor; [left; exact Ec | exact IH].
Qed.

(** X6. The Ghostscript executable is the first of "gs", "gswin64c",
    "gswin32c" that the search path resolves to a non-empty path: an earlier
    name wins over a later one, and there is no executable exactly when none
    of the three resolves. *)
Theorem ghostscript_lookup_order (t : Tools) :
  (forall path,
     _find_ghostscript_exe t = Some path ->
     path <> "" /\
     exists before c after,
       ["gs"; "gswin64c"; "gswin32c"] = (before ++ c :: after)%list /\
       which t c = Some path /\
       Forall (fun c' => which t c' = None \/ which t c' = Some "") before) /\
  (_find_ghostscript_exe t = None <->
   Forall (fun c => which t c = None \/ which t c = Some "")
     ["gs"; "gswin64c"; "gswin32c"]) /\
  (forall path, which t "gs" = Some path -> path <> "" ->
                _find_ghostscript_exe t = Some path).
Proof.
  unfold _find_ghostscript_exe.
  pose proof (first_path_spec (which t) ["gs"; "gswin64c"; "gswin32c"]) as H.
  split; [|split].
  - intros path E. rewrite E in H. exact H.
  - split.
    + intros E. rewrite E in H. exact H.
    + intros Hall. destruct (first_path _ _) as [p|]; [|reflexivity].
      destruct H as (Hp & b & c & a & Hl & Hc & _). exfalso.
      assert (Hin : In c ["gs"; "gswin64c"; "gswin32c"]).
      { rewrite Hl. apply in_or_app. right. left. reflexivity. }
      rewrite Forall_forall in Hall.
      destruct (Hall c (proj2 (list_elem_of_In _ _) Hin)) as [E|E];
        rewrite E in Hc; [discriminate | injection Hc as <-; contradiction].
  - intros path Hgs Hne. simpl. rewrite Hgs.
    destruct (String.eqb_spec path ""); [contradiction | reflexivity].
Qed.

(** X7. The re-distillation gives back either its input or the non-empty
    standard output of a Ghostscript run that exited with code 0, so it
    never turns a non-empty document into an empty one; the optimization
    gives back either its input or the result of the pikepdf pass. *)
Theorem transforms_return_input_or_tool_output
    (t : Tools) (input_bytes : bytes) (extreme : bool) :
  let out := ghostscript_compress t input_bytes extreme in
  (out = input_bytes \/
   exists gs_exe err,
     _find_ghostscript_exe t = Some gs_exe /\
     run t (gs_cmd gs_exe extreme ++ ["-"])%list input_bytes
     = Returns (0, out, err) /\ out <> []) /\
  (input_bytes <> [] -> out <> []) /\
  (pikepdf_optimize t input_bytes = input_bytes \/
   pikepdf_pass t input_bytes = Returns (pikepdf_optimize t input_bytes)).
Proof.
  intros out.
  assert (H : out = input_bytes \/
    exists gs_exe err,
      _find_ghostscript_exe t = Some gs_exe /\
      run t (gs_cmd gs_exe extreme ++ ["-"])%list input_bytes
      = Returns (0, out, err) /\ out <> []).
  { subst out. unfold ghostscript_compress.
    destruct (_find_ghostscript_exe t) as [gs_exe|]; [|left; reflexivity].
    destruct (run t _ input_bytes) as [[[rc o] err]|e] eqn:Er;
      [|left; reflexivity].
    destruct (Z.eqb_spec rc 0) as [->|Hrc]; simpl; [|left; reflexivity].
    destruct o as [|b o]; [left; reflexivity|].
    right. exists gs_exe, err. repeat split; [exact Er | discriminate]. }
  split; [exact H|]. split.
  - intros Hne. destruct H as [-> | (_ & _ & _ & _ & H)]; assumption.
  - unfold pikepdf_optimize. destruct (pikepdf_pass t input_bytes);
      [right | left]; reflexivity.
Qed.

(** ** Image recompression *)

Lemma resample_unfold pil img max_dim mode quality extreme :
  _resample_image pil img max_dim mode quality extreme
  = match (if Z.max (width (normalized pil img)) (height (normalized pil img))
              >? max_dim
           then thumbnail pil (normalized pil img) (max_dim, max_dim)
           else Returns (normalized pil img)) with
    | Raises e => Raises e
    | Returns sized =>
        if extreme || String.eqb mode "line_art"
        then Returns (save (convert sized "1") (TIFF "group4"))
        else Returns (save (if String.eqb mode "general"
                            then convert sized "L" else convert sized "RGB")
                        (JPEG true (Z.max 20 (Z.min 95 quality))))
    end.
Proof. reflexivity. Qed.

(** X8. What the recompressor does with settings off the beaten track: a
    drawing mode that is neither "line_art" nor "general" is treated as
    "mixed"; in extreme mode neither the drawing mode nor the quality
    matters; a quality below 20 counts as 20 and one above 95 as 95; and a
    failing orientation step leaves the image as it was. *)
Theorem resample_setting_fallbacks pil img max_dim mode quality extreme :
  (mode <> "line_art" -> mode <> "general" ->
   _resample_image pil img max_dim mode quality extreme
   = _resample_image pil img max_dim "mixed" quality extreme) /\
  (forall mode' quality',
     _resample_image pil img max_dim mode quality true
     = _resample_image pil img max_dim mode' quality' true) /\
  (quality <= 20 ->
   _resample_image pil img max_dim mode quality extreme
   = _resample_image pil img max_dim mode 20 extreme) /\
  (95 <= quality ->
   _resample_image pil img max_dim mode quality extreme
   = _resample_image pil img max_dim mode 95 extreme) /\
  (forall e, exif_transpose pil img = Raises e ->
     _resample_image pil img max_dim mode quality extreme
     = _resample_image
         {| exif_transpose := fun i => Returns i; thumbnail := thumbnail pil |}
         img max_dim mode quality extreme).
Proof.
  split; [|split; [|split; [|split]]].
  - intros H1 H2. rewrite !resample_unfold.
    apply String.eqb_neq in H1, H2. rewrite H1, H2. reflexivity.
  - intros mode' quality'. rewrite !resample_unfold. reflexivity.
  - intros Hq. rewrite !resample_unfold.
    replace (Z.max 20 (Z.min 95 quality)) with (Z.max 20 (Z.min 95 20)) by lia.
    reflexivity.
  - intros Hq. rewrite !resample_unfold.
    replace (Z.max 20 (Z.min 95 quality)) with (Z.max 20 (Z.min 95 95)) by lia.
    reflexivity.
  - intros e He. rewrite !resample_unfold. unfold normalized. simpl.
    rewrite He. reflexivity.
Qed.

Lemma collect_xrefs_returns f pages acc xrefs :
  collect_xrefs f pages acc = Returns xrefs ->
  Forall (fun page => raises (get_images f page) = false) pages /\
  forall x, x ∈ xrefs <->
    x ∈ acc \/
    exists page infos, In page pages /\ get_images f page = Returns infos /\
                       In x infos.
Proof.
  revert acc. induction pages as [|page rest IH]; simpl; intros acc H.
  - injection H as <-. split; [constructor|].
    intros x. split; [tauto|]. intros [?|(? & ? & [] & _)]. assumption.
  - destruct (get_images f page) as [infos|e] eqn:Hg; [|discriminate].
    destruct (IH _ H) as [Hall Hmem]. split.
    + constructor; [rewrite Hg; reflexivity | assumption].
    + intros x. rewrite Hmem, elem_of_union, elem_of_list_to_set. split.
      * intros [[Hx|Hx]|(pg & inf & Hin & Hpg & Hx)].
        -- right. exists page, infos. rewrite list_elem_of_In in Hx.
           split; [left; reflexivity | split; assumption].
        -- left. assumption.
        -- right. exists pg, inf. split; [right; assumption | split; assumption].
      * intros [Hx|(pg & inf & [<-|Hin] & Hpg & Hx)].
        -- left. right. assumption.
        -- rewrite Hg in Hpg. injection Hpg as <-.
           left. left. rewrite list_elem_of_In. assumption.
        -- right. exists pg, inf. auto.
Qed.

Lemma collect_xrefs_raises f pages acc e :
  collect_xrefs f pages acc = Raises e ->
  exists pre page post,
    pages = (pre ++ page :: post)%list /\
    Forall (fun page => raises (get_images f page) = false) pre /\
    get_images f page = Raises e.
Proof.
  revert acc. induction pages as [|page rest IH]; simpl; intros acc H;
    [discriminate|].
  destruct (get_images f page) as [infos|e'] eqn:Hg.
  - destruct (IH _ H) as (pre & pg & post & -> & Hpre & Hpg).
    exists (page :: pre), pg, post. split; [reflexivity|]. split; [|assumption].
    constructor; [rewrite Hg; reflexivity | assumption].
  - injection H as ->. exists [], page, rest. repeat split; [constructor | assumption].
Qed.

(** X10. The list of image xrefs of a document: when every page lists its
    images, the result has no duplicate and holds exactly the xrefs that
    some page lists; otherwise the call raises the error of the first page
    whose listing fails. *)
Theorem unique_image_xrefs_spec (f : Fitz) (doc : WorkDoc) :
  match _collect_unique_image_xrefs f doc with
  | Returns xrefs =>
      NoDup xrefs /\
      Forall (fun page => raises (get_images f page) = false) (doc_pages doc) /\
      forall x, In x xrefs <->
        exists page infos,
          In page (doc_pages doc) /\ get_images f page = Returns infos /\
          In x infos
  | Raises e =>
      exists pre page post,
        doc_pages doc = (pre ++ page :: post)%list /\
        Forall (fun page => raises (get_images f page) = false) pre /\
        get_images f page = Raises e
  end.
Proof.
  unfold _collect_unique_image_xrefs.
  destruct (collect_xrefs f (doc_pages doc) ∅) as [xrefs|e] eqn:H.
  - destruct (collect_xrefs_returns _ _ _ _ H) as [Hall Hmem].
    split; [apply NoDup_elements|]. split; [assumption|].
    intros x. rewrite <- list_elem_of_In, elem_of_elements, Hmem.
    split; [intros [Hx|Hx]; [set_solver|assumption] | auto].
  - apply (collect_xrefs_raises _ _ _ _ H).
Qed.

(** ** The outcome of a job *)

Lemma copy_page_error f p s e :
  fst (copy_page f p s) = Raises e -> copy_error f p e.
Proof.
  unfold copy_page, try_except_ValueError, copy_error.
  unfold mbind, M_bind, insert_page, emit, update_work. simpl.
  destruct (insert_pdf f p true) as [[]|[m|m]]; simpl; [discriminate| |].
  - destruct (insert_pdf f p false) as [[]|e']; simpl; [discriminate|].
    intros [= ->]. right. exists m. split; reflexivity.
  - intros [= <-]. left. split; reflexivity.
Qed.

Lemma copy_page_work f p s :
  doc_cleaned (work (snd (copy_page f p s))) = doc_cleaned (work s) /\
  doc_streams (work (snd (copy_page f p s))) = doc_streams (work s).
Proof.
  unfold copy_page, try_except_ValueError.
  unfold mbind, M_bind, insert_page, emit, update_work, add_page. simpl.
  destruct (insert_pdf f p true) as [[]|[m|m]]; simpl.
  - split; reflexivity.
  - destruct (leaves_page f p true);
      destruct (insert_pdf f p false) as [[]|e]; simpl;
      try destruct (leaves_page f p false); simpl; split; reflexivity.
  - destruct (leaves_page f p true); simpl; split; reflexivity.
Qed.

Lemma copy_pages_outcome f keep : forall s,
  history (snd (copy_pages f keep s)) = history s /\
  current (snd (copy_pages f keep s)) = current s /\
  match find (copy_fails f) keep with
  | Some p => exists e, fst (copy_pages f keep s) = Raises e /\ copy_error f p e
  | None =>
      fst (copy_pages f keep s) = Returns () /\
      work (snd (copy_pages f keep s))
      = {| doc_pages := (doc_pages (work s) ++ flat_map (copies f) keep)%list;
           doc_cleaned := doc_cleaned (work s);
           doc_streams := doc_streams (work s) |}
  end.
Proof.
  induction keep as [|p rest IH]; intros s.
  - simpl. rewrite app_nil_r. destruct (work s). repeat split.
  - simpl copy_pages. rewrite bind_unfold. simpl find.
    destruct (copy_page_run f p s) as (_ & Hh & Hc & Hr).
    pose proof (copy_page_error f p s) as Herr.
    pose proof (copy_page_work f p s) as [Hcl Hst].
    destruct (copy_page f p s) as [r s1]. simpl in Hh, Hc, Hr, Herr, Hcl, Hst.
    destruct (copy_fails f p).
    + destruct Hr as [e ->]. simpl. repeat split; try assumption.
      exists e. split; [reflexivity | apply Herr; reflexivity].
    + destruct Hr as [-> Hw]. destruct (IH s1) as (Hh' & Hc' & Hr').
      split; [congruence|]. split; [congruence|].
      destruct (find (copy_fails f) rest); [exact Hr'|].
      destruct Hr' as [Hret ->]. split; [exact Hret|].
      rewrite Hw. simpl. rewrite <- app_assoc. reflexivity.
Qed.

Lemma recompress_image_run w xref d mode q ex s :
  exists updated s',
    recompress_image w xref d mode q ex s = (Returns updated, s') /\
    history s' = history s /\ current s' = current s /\
    events s' = events s /\
    (work s' = work s \/
     exists enc, recompressed w d mode q ex xref enc /\
                 work s' = set_stream xref enc (work s)).
Proof.
  unfold recompress_image, try_except, recompressed.
  unfold mbind, M_bind, call, update_work. simpl.
  destruct (extract_image (fitz w) xref) as [[[|b bs]|]|e] eqn:Hx; simpl;
    try (eexists _, _; repeat split; left; reflexivity).
  destruct (image_open (fitz w) (b :: bs)) as [im|e] eqn:Ho; simpl;
    try (eexists _, _; repeat split; left; reflexivity).
  destruct (_resample_image (pil w) im d mode q ex) as [enc|e] eqn:Hr; simpl;
    try (eexists _, _; repeat split; left; reflexivity).
  destruct (update_stream (fitz w) xref enc) as [[]|e] eqn:Hu; simpl;
    try (eexists _, _; repeat split; left; reflexivity).
  eexists _, _. repeat split. right. exists enc. split; [|reflexivity].
  exists (b :: bs), im. repeat split; try assumption. discriminate.
Qed.

Lemma image_loop_run w total d mode q ex xrefs : forall idx s,
  exists s',
    image_loop w total idx xrefs d mode q ex s = (Returns (), s') /\
    events s' = events s /\
    doc_pages (work s') = doc_pages (work s) /\
    doc_cleaned (work s') = doc_cleaned (work s) /\
    exists added,
      doc_streams (work s') = (added ++ doc_streams (work s))%list /\
      sublist (map fst added) (rev xrefs) /\
      Forall (fun xe => recompressed w d mode q ex (fst xe) (snd xe)) added.
Proof.
  induction xrefs as [|xref rest IH]; intros idx s.
  - exists s. simpl. repeat split. exists []. repeat split; constructor.
  - simpl image_loop. rewrite bind_unfold.
    destruct (recompress_image_run w xref d mode q ex s)
      as (updated & s1 & -> & _ & _ & Hev & Hw).
    rewrite bind_unfold.
    set (s2 := snd ((if updated then set_progress (image_progress idx total)
                     else mret ()) s1)).
    assert (E2 : (if updated then set_progress (image_progress idx total)
                  else mret ()) s1 = (Returns (), s2))
      by (unfold s2; destruct updated; reflexivity).
    assert (W2 : work s2 = work s1 /\ events s2 = events s1)
      by (unfold s2; destruct updated; split; reflexivity).
    rewrite E2. destruct W2 as [W2 Ev2].
    destruct (IH (idx + 1) s2) as (s' & -> & Hev' & Hp & Hc & added & Hs & Hsub & Hall).
    exists s'. split; [reflexivity|]. rewrite Hp, Hc, Hs, Hev', Ev2, W2.
    simpl rev.
    destruct Hw as [-> | (enc & Hrec & ->)].
    + repeat split; try assumption. exists added. split; [reflexivity|].
      split; [|assumption]. apply sublist_inserts_r. assumption.
    + repeat split; try assumption. exists (added ++ [(xref, enc)])%list.
      split; [simpl; rewrite <- app_assoc; reflexivity|]. split.
      * rewrite map_app. simpl. apply sublist_app; [assumption | reflexivity].
      * apply Forall_app. split; [assumption|]. constructor; [exact Hrec | constructor].
Qed.

Lemma recompress_and_save_unfold w q d mode ex s :
  recompress_and_save w q d mode ex s
  = images_and_save w q d mode ex
      (snd (set_progress 20 (snd (set_status "Recompressing images..."
         (if ex
          then snd (extreme_cleanup
                 (snd (set_progress 15
                    (snd (set_status "Cleaning annotations & attachments..."
                            s)))))
          else s))))).
Proof. destruct ex; reflexivity. Qed.

Lemma images_and_save_run w q d mode ex s :
  match _collect_unique_image_xrefs (fitz w) (work s) with
  | Raises e => images_and_save w q d mode ex s = (Raises e, s)
  | Returns xrefs =>
      exists s4,
        events s4 = events s /\
        doc_pages (work s4) = doc_pages (work s) /\
        doc_cleaned (work s4) = doc_cleaned (work s) /\
        (exists added,
           doc_streams (work s4) = (added ++ doc_streams (work s))%list /\
           sublist (map fst added) (rev xrefs) /\
           Forall (fun xe => recompressed w d mode q ex (fst xe) (snd xe))
             added) /\
        images_and_save w q d mode ex s
        = (doc_save (fitz w) (work s4),
           snd (set_progress 82 (snd (set_status "Saving (PyMuPDF)..." s4))))
  end.
Proof.
  unfold images_and_save, mbind, M_bind, get_work, call.
  destruct (_collect_unique_image_xrefs (fitz w) (work s)) as [xrefs|e];
    [|reflexivity].
  destruct (image_loop_run w (Z.of_nat (length xrefs)) d mode q ex xrefs 1 s)
    as (s4 & Hloop & Hev & Hp & Hc & Hadded).
  exists s4. repeat split; try assumption.
  rewrite Hloop. reflexivity.
Qed.

Lemma unique_xrefs_NoDup f doc xrefs :
  _collect_unique_image_xrefs f doc = Returns xrefs -> NoDup xrefs.
Proof.
  unfold _collect_unique_image_xrefs.
  destruct (collect_xrefs f (doc_pages doc) ∅); [|discriminate].
  intros [= <-]. apply NoDup_elements.
Qed.

Lemma failed_at_handler e s :
  failed_at (current (snd (write (update_error e) s))) e (progress (current s)).
Proof. repeat split. Qed.

(** X11. What becomes of a fresh job, stage by stage.  It fails at
    progress 5 when the source cannot be opened or no valid page is
    selected, at 10 on the first page whose copy fails, at 20 when the
    images of a page cannot be listed, and at 82 when the working document
    cannot be saved, each time with the message of the exception; in every
    other case it ends in status "done".  The document that is saved holds
    what the copy loop left for the selected pages, in order (a page whose
    plain copy raised after the page was appended is there twice), was
    cleaned exactly in extreme mode, and has at most one stream replaced per
    image, each for a listed image that was recompressed successfully: a
    failure on an image or in an external tool never fails the job. *)
Theorem job_outcome w now inp_path input_pdf q d mode extract_pages ex :
  let f := fitz w in
  let j := current (run_job w (new_job now inp_path) input_pdf q d mode
                      extract_pages ex) in
  match fitz_open f input_pdf with
  | Raises e => failed_at j e 5
  | Returns page_count =>
      match select_pages extract_pages page_count with
      | Raises e => failed_at j e 5
      | Returns (keep, _) =>
          match find (copy_fails f) keep with
          | Some p => exists e, copy_error f p e /\ failed_at j e 10
          | None =>
              match _collect_unique_image_xrefs f (assembled f keep ex) with
              | Raises e => failed_at j e 20
              | Returns xrefs =>
                  exists doc,
                    doc_pages doc = flat_map (copies f) keep /\
                    doc_cleaned doc = ex /\
                    NoDup (map fst (doc_streams doc)) /\
                    Forall (fun xe => In (fst xe) xrefs /\
                                      recompressed w d mode q ex
                                        (fst xe) (snd xe))
                      (doc_streams doc) /\
                    match doc_save f doc with
                    | Raises e => failed_at j e 82
                    | Returns pymupdf_bytes =>
                        status j = "done" /\ progress j = 100 /\
                        error j = None /\
                        output_buffer j
                        = Some (pikepdf_optimize (tools w)
                                  (ghostscript_compress (tools w)
                                     pymupdf_bytes ex))
                    end
              end
          end
      end
  end.
Proof.
  intros f j.
  destruct (fitz_open f input_pdf) as [page_count|e] eqn:Hopen.
  2: { unfold j, run_job, try_except, process_job_body, assemble.
       unfold mbind, M_bind, call, set_status, set_progress, write. simpl.
       fold f. rewrite Hopen. repeat split. }
  destruct (select_pages extract_pages page_count) as [[keep label]|e] eqn:Hsel.
  2: { unfold j.
       rewrite (body_selection_fails _ _ _ _ _ _ _ _ _ _ Hopen Hsel).
       repeat split. }
  assert (Er : run_job w (new_job now inp_path) input_pdf q d mode
                 extract_pages ex
               = snd (try_except
                   (build_work w keep q d mode ex
                      ≫= fun b => distill_and_finish (tools w) b ex)
                   (fun e => write (update_error e))
                   (copying (new_job now inp_path) label))).
  { unfold run_job, try_except.
    rewrite (body_selection_succeeds _ _ _ _ _ _ _ _ _ _ _ Hopen Hsel).
    reflexivity. }
  unfold j. rewrite Er. clear Er j.
  unfold try_except, build_work. rewrite !bind_unfold. fold f.
  destruct (copy_pages_outcome f keep (copying (new_job now inp_path) label))
    as (_ & Hc & Hr).
  destruct (copy_pages f keep (copying (new_job now inp_path) label))
    as [r s1]. simpl fst in Hr. simpl snd in Hr, Hc.
  destruct (find (copy_fails f) keep) as [p|].
  - destruct Hr as (e & -> & Hcause). exists e. split; [exact Hcause|].
    pose proof (failed_at_handler e s1) as H. rewrite Hc in H. exact H.
  - destruct Hr as [-> Hw]. rewrite recompress_and_save_unfold.
    match goal with
    | |- context [images_and_save w q d mode ex ?s] => set (s3 := s)
    end.
    assert (Hw3 : work s3 = assembled f keep ex)
      by (unfold s3; destruct ex; simpl; rewrite Hw; reflexivity).
    assert (Hp3 : progress (current s3) = 20) by reflexivity.
    pose proof (images_and_save_run w q d mode ex s3) as Hrun.
    fold f in Hrun. rewrite Hw3 in Hrun. clearbody s3.
    destruct (_collect_unique_image_xrefs f (assembled f keep ex))
      as [xrefs|e] eqn:Hx.
    + destruct Hrun as (s4 & _ & Hp & Hcl & (added & Hs & Hsub & Hall) & ->).
      rewrite app_nil_r in Hs.
      exists (work s4). split; [exact Hp|]. split; [exact Hcl|].
      rewrite Hs. split; [|split].
      * eapply sublist_NoDup; [|exact Hsub].
        apply NoDup_ListNoDup, List.NoDup_rev, NoDup_ListNoDup.
        exact (unique_xrefs_NoDup _ _ _ Hx).
      * apply Forall_forall. intros xe Hxe. split.
        -- apply in_rev, list_elem_of_In.
           eapply elem_of_sublist; [|exact Hsub].
           apply list_elem_of_fmap. exists xe. split; [reflexivity | exact Hxe].
        -- revert xe Hxe. apply Forall_forall, Hall.
      * destruct (doc_save f (work s4)) as [b|e]; [|repeat split].
        destruct (distill_and_finish_run (tools w) b ex
                    (snd (set_progress 82
                            (snd (set_status "Saving (PyMuPDF)..." s4)))))
          as [Hret Hcur].
        destruct (distill_and_finish _ _ _ _) as [o s5].
        simpl in Hret. subst o. simpl snd in *. rewrite Hcur. repeat split.
    + rewrite Hrun. pose proof (failed_at_handler e s3) as H.
      rewrite Hp3 in H. exact H.
Qed.

(** ** The registry under a run *)

Section Keeps.
Context {X : Type} (f : Job -> X).
Hypothesis f_status : forall v j, f (with_status v j) = f j.
Hypothesis f_progress : forall v j, f (with_progress v j) = f j.

Lemma keeps_silent {A : Type} (m : M A) : silent m -> keeps f m.
Proof. intros H s. destruct (H s) as [_ ->]. reflexivity. Qed.

Lemma keeps_set_status v : keeps f (set_status v).
Proof. intros s. apply f_status. Qed.

Lemma keeps_set_progress v : keeps f (set_progress v).
Proof. intros s. apply f_progress. Qed.

Lemma keeps_bind {A B : Type} (m : M A) (k : A -> M B) :
  keeps f m -> (forall a, keeps f (k a)) -> keeps f (m ≫= k).
Proof.
  intros Hm Hk s. rewrite bind_unfold. specialize (Hm s).
  destruct (m s) as [[a|e] s']; simpl in *; [|exact Hm].
  rewrite Hk. exact Hm.
Qed.

Ltac keeps_tac :=
  repeat match goal with
    | |- keeps f (mbind _ _) => apply keeps_bind; [|intros ?]
    | |- keeps f (set_status _) => apply keeps_set_status
    | |- keeps f (set_progress _) => apply keeps_set_progress
    | |- keeps f (match ?x with _ => _ end) => destruct x
    | |- keeps f _ => solve [apply keeps_silent; silent_tac]
    end.

Lemma keeps_image_loop w total d mode q ex xrefs :
  forall idx, keeps f (image_loop w total idx xrefs d mode q ex).
Proof.
  induction xrefs as [|xref rest IH]; intros idx; simpl.
  - apply keeps_silent, silent_ret.
  - apply keeps_bind; [apply keeps_silent, silent_recompress_image|].
    intros updated. apply keeps_bind; [|intros _; apply IH].
    destruct updated; [apply keeps_set_progress | apply keeps_silent, silent_ret].
Qed.

Lemma keeps_assemble w input_pdf q d mode extract_pages ex :
  keeps f (assemble w input_pdf q d mode extract_pages ex).
Proof.
  unfold assemble, build_work, recompress_and_save, images_and_save.
  keeps_tac;
    first [apply keeps_image_loop | apply keeps_silent, silent_copy_pages].
Qed.

(** The last write of a run: the final update or the update of the
    handler, on a record that shows of the record the run found what [f]
    observes. *)
Lemma run_job_final w job input_pdf q d mode extract_pages ex :
  exists j0,
    f j0 = f job /\
    ((exists final_bytes,
        current (run_job w job input_pdf q d mode extract_pages ex)
        = update_done final_bytes j0) \/
     (exists e,
        current (run_job w job input_pdf q d mode extract_pages ex)
        = update_error e j0)).
Proof.
  unfold run_job, try_except. rewrite body_from_selecting, bind_unfold.
  pose proof (keeps_assemble w input_pdf q d mode extract_pages ex
                (selecting job)) as Hk.
  destruct (assemble w input_pdf q d mode extract_pages ex (selecting job))
    as [[b|e] s1]; simpl in Hk.
  - destruct (distill_and_finish_run (tools w) b ex s1) as [Hret Hcur].
    destruct (distill_and_finish (tools w) b ex s1) as [o s2].
    simpl in Hret, Hcur. subst o. simpl. rewrite Hcur.
    eexists. split; [|left; eexists; reflexivity].
    rewrite f_progress, f_status, f_progress, f_status, Hk.
    unfold selecting. simpl. rewrite f_progress, f_status. reflexivity.
  - simpl. exists (current s1). split; [|right; exists e; reflexivity].
    rewrite Hk. unfold selecting. simpl. rewrite f_progress, f_status.
    reflexivity.
Qed.

End Keeps.

(** X12. A run on the registry touches one record only.  With an unknown
    job id the registry stays as it was; otherwise the ids stay the same,
    every other record is untouched, and the record of the job keeps its
    creation time and its input path, and ends either in status "done"
    with progress 100, an output and no error, or in status "error" with an
    error message and the output it had before. *)
Theorem process_job_frame
    w (registry : gmap string Job) job_id input_pdf q d mode extract_pages ex :
  let registry' :=
    process_job w registry job_id input_pdf q d mode extract_pages ex in
  dom registry' = dom registry /\
  (forall other, other <> job_id -> registry' !! other = registry !! other) /\
  (registry !! job_id = None -> registry' = registry) /\
  (forall job, registry !! job_id = Some job ->
     exists job',
       registry' !! job_id = Some job' /\
       created_at job' = created_at job /\
       input_path job' = input_path job /\
       ((status job' = "done" /\ progress job' = 100 /\ error job' = None /\
         is_Some (output_buffer job')) \/
        (status job' = "error" /\ is_Some (error job') /\
         output_buffer job' = output_buffer job))).
Proof.
  intros registry'. subst registry'. unfold process_job.
  destruct (registry !! job_id) as [job|] eqn:Hjob.
  - split; [|split; [|split]].
    + apply dom_insert_lookup_L. rewrite Hjob. eexists. reflexivity.
    + intros other Hne. apply lookup_insert_ne. congruence.
    + discriminate.
    + intros job0 [= <-]. eexists. split; [apply lookup_insert_eq|].
      destruct (run_job_final
                  (fun j => (created_at j, input_path j, output_buffer j))
                  (fun _ _ => eq_refl) (fun _ _ => eq_refl)
                  w job input_pdf q d mode extract_pages ex)
        as (j0 & [= Hc Hi Ho] & [[fb ->] | [e ->]]); simpl.
      * split; [exact Hc|]. split; [exact Hi|]. left.
        repeat split. eexists. reflexivity.
      * split; [exact Hc|]. split; [exact Hi|]. right.
        split; [reflexivity|]. split; [eexists; reflexivity | exact Ho].
  - split; [reflexivity|]. split; [reflexivity|]. split; [reflexivity|].
    discriminate.
Qed.

(** ** The calls of the copy loop *)

Lemma attempted_incl f keep p : In p (attempted f keep) -> In p keep.
Proof.
  induction keep as [|k rest IH]; simpl; [tauto|].
  destruct (copy_fails f k); simpl; tauto.
Qed.

Lemma select_pages_in_range extract_pages page_count keep label p :
  select_pages extract_pages page_count = Returns (keep, label) ->
  In p keep ->
  0 <= p < page_count /\
  (forall pages, pages_given extract_pages = Some pages -> In (p + 1) pages).
Proof.
  unfold select_pages. destruct (pages_given extract_pages) as [pages|].
  - destruct (List.filter _ _) as [|k ks] eqn:E; [discriminate|].
    intros [= <- _] Hin. rewrite <- E in Hin.
    apply filter_In in Hin as [Hin Hb]. apply in_map_iff in Hin as (x & <- & Hx).
    split; [lia|]. intros pages' [= <-]. replace (x - 1 + 1) with x by lia.
    exact Hx.
  - intros [= <- _] Hin. unfold range in Hin.
    apply in_map_iff in Hin as (i & <- & Hi). apply in_seq in Hi.
    split; [lia | discriminate].
Qed.

(** X13. The copy loop only asks for pages that exist and were selected.
    When the source cannot be opened or the selection is invalid, no copy
    is attempted.  Otherwise every copy is of a page of the source, one of
    the requested pages when a list was given; a copy without links is
    made only of a page whose plain copy raised [ValueError], and every
    warning names such a page by its 1-based number. *)
Theorem copy_calls_stay_in_range
    w now inp_path input_pdf q d mode extract_pages ex :
  let f := fitz w in
  let r := run_job w (new_job now inp_path) input_pdf q d mode
             extract_pages ex in
  match fitz_open f input_pdf with
  | Raises _ => events r = []
  | Returns page_count =>
      (raises (select_pages extract_pages page_count) = true ->
       events r = []) /\
      (forall p links, In (InsertPdf p links) (events r) ->
         0 <= p < page_count /\
         (forall pages, pages_given extract_pages = Some pages ->
            In (p + 1) pages) /\
         (links = false ->
          exists m, insert_pdf f p true = Raises (ValueError m))) /\
      (forall n e, In (LinkWarning n e) (events r) ->
         1 <= n <= page_count /\
         insert_pdf f (n - 1) true = Raises e /\ is_ValueError e = true)
  end.
Proof.
  intros f r.
  destruct (fitz_open f input_pdf) as [page_count|e] eqn:Hopen.
  2: { unfold r, run_job, try_except, process_job_body, assemble.
       unfold mbind, M_bind, call, set_status, set_progress, write. simpl.
       fold f. rewrite Hopen. reflexivity. }
  destruct (select_pages extract_pages page_count) as [[keep label]|e] eqn:Hsel.
  2: { unfold r.
       rewrite (body_selection_fails _ _ _ _ _ _ _ _ _ _ Hopen Hsel).
       split; [reflexivity|]. split; intros ? ? []. }
  destruct (run_copy w now inp_path input_pdf q d mode extract_pages ex
              page_count keep label Hopen Hsel) as [Hev _].
  fold r f in Hev. split; [discriminate|].
  assert (Hin : forall ev, In ev (events r) ->
            exists p, In p keep /\ In ev (page_events f p)).
  { intros ev H. apply in_rev in H. rewrite Hev in H.
    apply in_flat_map in H as (p & Hp & H). exists p.
    split; [exact (attempted_incl _ _ _ Hp) | exact H]. }
  split.
  - intros p links H. destruct (Hin _ H) as (p0 & Hp0 & Hev0).
    destruct (select_pages_in_range _ _ _ _ _ Hsel Hp0) as [Hr Hreq].
    unfold page_events in Hev0.
    destruct (insert_pdf f p0 true) as [[]|[m|m]] eqn:Hi; simpl in Hev0.
    + destruct Hev0 as [[= <- <-]|[]]. repeat split; try lia; try exact Hreq;
        try discriminate.
    + destruct Hev0 as [[= <- <-]|[[=]|[[= <- <-]|[]]]].
      * repeat split; try lia; try exact Hreq; try discriminate.
      * repeat split; try lia; try exact Hreq. exists m. exact Hi.
    + destruct Hev0 as [[= <- <-]|[]]. repeat split; try lia; try exact Hreq;
        try discriminate.
  - intros n e H. destruct (Hin _ H) as (p0 & Hp0 & Hev0).
    destruct (select_pages_in_range _ _ _ _ _ Hsel Hp0) as [Hr _].
    unfold page_events in Hev0.
    destruct (insert_pdf f p0 true) as [[]|[m|m]] eqn:Hi; simpl in Hev0.
    + destruct Hev0 as [[=]|[]].
    + destruct Hev0 as [[=]|[[= <- <-]|[[=]|[]]]].
      replace (p0 + 1 - 1) with p0 by lia.
      split; [lia|]. split; [exact Hi | reflexivity].
    + destruct Hev0 as [[=]|[]].
Qed.

(** ** Progress as a percentage *)

(** X14. The life of a job starts with the queued record, has at least
    one more record, and every progress value it shows lies between 0 and
    100. *)
Theorem progress_within_0_100
    w now inp_path input_pdf q d mode extract_pages ex :
  let l := lifetime w (new_job now inp_path) input_pdf q d mode
             extract_pages ex in
  head l = Some (new_job now inp_path) /\
  (2 <= length l)%nat /\
  forall j, j ∈ l -> 0 <= progress j <= 100.
Proof.
  intros l.
  pose proof (run_job_first w (new_job now inp_path) input_pdf q d mode
                extract_pages ex) as Hhead.
  fold l in Hhead. subst l.
  destruct (lifetime_shape w now inp_path input_pdf q d mode extract_pages ex)
    as (s0 & final & Hg & Hl & _ & Hfin).
  rewrite Hl in Hhead |- *. clear Hl.
  destruct Hg as ([older E] & Hc & Hr & Hb).
  pose proof (chain_nondecreasing _ Hc) as Hsorted.
  assert (Hrun : forall j, j ∈ reverse (history s0) -> 0 <= progress j <= 95).
  { intros j Hj. split.
    - destruct (reverse (history s0)) as [|j1 tl] eqn:Erev.
      + apply elem_of_nil in Hj. destruct Hj.
      + simpl in Hhead. injection Hhead as ->.
        apply elem_of_cons in Hj as [-> | Hj]; [simpl; lia|].
        apply StronglySorted_inv in Hsorted as [_ Hall].
        rewrite Forall_forall in Hall. specialize (Hall j Hj). simpl in Hall.
        exact Hall.
    - rewrite elem_of_reverse in Hj. rewrite Forall_forall in Hr.
      destruct (Hr j Hj) as (_ & _ & _ & _ & H95). exact H95. }
  split; [exact Hhead|]. split.
  - rewrite length_app, length_reverse, E. simpl. lia.
  - intros j Hj. apply elem_of_app in Hj as [Hj | Hj].
    + specialize (Hrun j Hj). lia.
    + apply list_elem_of_singleton in Hj. subst j.
      assert (Hcur : 0 <= progress (current s0) <= 95).
      { apply Hrun. rewrite elem_of_reverse, E. apply elem_of_cons. left.
        reflexivity. }
      destruct Hfin as [[fb ->] | [e ->]]; simpl; lia.
Qed.

(** ** Rounding of quotients, differences and whole numbers *)

Section RoundingAll.
Local Open Scope Q_scope.

Lemma rn64_one_ge : 1 <= rn64 1.
Proof. apply Qle_bool_iff. vm_compute. reflexivity. Qed.

Lemma rn64_sixty_ge : 60 <= rn64 60.
Proof. apply Qle_bool_iff. vm_compute. reflexivity. Qed.

Lemma py_truediv_same (t : Z) : (1 <= t)%Z -> py_truediv t t == 1.
Proof.
  intros Ht. apply Qle_antisym; [apply py_truediv_le_one; lia|].
  eapply Qle_trans; [exact rn64_one_ge|].
  unfold py_truediv. apply rn64_mono; [lra|].
  assert (H : ~ inject_Z t == 0).
  { intros E. assert (0 < inject_Z t) by (rewrite <- (Zlt_Qlt 0); lia). lra. }
  unfold Qdiv. rewrite Qmult_inv_r by exact H. apply Qle_refl.
Qed.

Lemma rn64_nonpos q : q < 0 -> rn64 q <= 0.
Proof.
  intros Hq. unfold rn64. rewrite (proj1 (Qlt_alt q 0) Hq).
  assert (H : 0 <= round_pos (- q)) by (apply round_pos_nonneg; lra). lra.
Qed.

Lemma rn64_mono_all p q : p <= q -> rn64 p <= rn64 q.
Proof.
  intros Hpq. destruct (Qlt_le_dec p 0) as [Hp|Hp]; [|apply rn64_mono; assumption].
  destruct (Qlt_le_dec q 0) as [Hq|Hq].
  - unfold rn64. rewrite (proj1 (Qlt_alt p 0) Hp), (proj1 (Qlt_alt q 0) Hq).
    assert (H : round_pos (- q) <= round_pos (- p))
      by (apply round_pos_mono; lra).
    lra.
  - eapply Qle_trans; [apply rn64_nonpos, Hp | apply rn64_nonneg, Hq].
Qed.

Lemma rne_comp x y : x == y -> rne x = rne y.
Proof.
  intros E. apply Z.le_antisymm; apply rne_mono; rewrite E; apply Qle_refl.
Qed.

Lemma rn64_inject_Z (m : Z) :
  (0 <= m < 2 ^ 53)%Z -> rn64 (inject_Z m) == inject_Z m.
Proof.
  intros Hm. destruct (Z.eq_dec m 0%Z) as [->|Hne]; [reflexivity|].
  assert (Hpos : 0 < inject_Z m) by (rewrite <- (Zlt_Qlt 0); lia).
  unfold rn64. rewrite (proj1 (Qgt_alt (inject_Z m) 0) Hpos).
  unfold round_pos. set (c := cexp (inject_Z m)).
  assert (Hc : (c <= 0)%Z).
  { unfold c, cexp, prec, emin.
    destruct (mag_spec (inject_Z m) Hpos) as [Hlo _].
    assert (Hlt : pow2 (mag (inject_Z m) - 1) < pow2 53).
    { eapply Qle_lt_trans; [exact Hlo|].
      rewrite (pow2_inject 53) by lia. rewrite <- Zlt_Qlt. lia. }
    apply pow2_lt_inv in Hlt. lia. }
  assert (Hinv : / pow2 c == inject_Z (2 ^ (- c))).
  { rewrite <- pow2_inject by lia. unfold pow2. rewrite Qpower_opp.
    reflexivity. }
  assert (Hone : inject_Z (2 ^ (- c)) * pow2 c == 1).
  { rewrite <- Hinv. rewrite Qmult_comm. apply Qmult_inv_r.
    pose proof (pow2_pos c). lra. }
  assert (Hscaled : inject_Z m / pow2 c == inject_Z (m * 2 ^ (- c))).
  { unfold Qdiv. rewrite Hinv, inject_Z_mult. reflexivity. }
  rewrite (rne_comp _ _ Hscaled), rne_inject, inject_Z_mult.
  rewrite <- Qmult_assoc, Hone, Qmult_1_r. reflexivity.
Qed.

Lemma image_progress_last (total : Z) :
  (1 <= total)%Z -> image_progress total total = 80%Z.
Proof.
  intros Ht. unfold image_progress, py_fmul.
  rewrite Z.max_r by lia.
  pose proof (py_truediv_same total Ht) as E1.
  assert (E : rn64 (py_truediv total total * 60) == 60).
  { apply Qle_antisym.
    - eapply Qle_trans; [|exact rn64_sixty]. apply rn64_mono; lra.
    - eapply Qle_trans; [exact rn64_sixty_ge|]. apply rn64_mono; lra. }
  rewrite py_int_floor by lra. rewrite E. reflexivity.
Qed.

End RoundingAll.

(** X15. Progress of the image loop over [total] images: the value
    written after image [idx] lies between 20 and 80 and does not decrease
    with [idx], and the value written after the last image is exactly 80,
    whatever the rounding of the float quotient. *)
Theorem image_progress_ends_at_80 (total : Z) :
  1 <= total ->
  image_progress total total = 80 /\
  (forall idx, 1 <= idx <= total -> 20 <= image_progress idx total <= 80) /\
  (forall i j, 1 <= i <= j -> image_progress i total <= image_progress j total).
Proof.
  intros Ht. split; [apply image_progress_last, Ht|]. split.
  - intros idx Hidx. apply image_progress_bounds, Hidx.
  - intros i j Hij. apply image_progress_mono, Hij.
Qed.

Lemma image_progress_ends_at_80_witness :
  image_progress 7 7 = 80 /\ 20 <= image_progress 3 7 <= 80.
Proof.
  destruct (image_progress_ends_at_80 7 ltac:(lia)) as (H1 & H2 & _).
  split; [exact H1 | apply H2; lia].
Defined.

(** ** The sweep and the clock *)

Lemma expired_true now max_age_sec j :
  expired now max_age_sec j = true <->
  (inject_Z max_age_sec < py_fsub now (created_at j))%Q.
Proof.
  unfold expired. rewrite Qgt_alt.
  destruct (py_fsub now (created_at j) ?= inject_Z max_age_sec)%Q;
    split; congruence.
Qed.

Lemma sweep_keeps now max_age_sec srv jid j :
  jobs srv !! jid = Some j -> expired now max_age_sec j = false ->
  jobs (cleanup_old_jobs now max_age_sec srv) !! jid = Some j.
Proof.
  intros Hjob Hexp. unfold cleanup_old_jobs.
  destruct (sweep_spec (to_remove (jobs srv) now max_age_sec) srv)
    as (Hj & _).
  rewrite (proj2 (Hj jid)); [exact Hjob|].
  intros Hin. apply to_remove_spec in Hin as (j' & Hj' & He'). congruence.
Qed.

(** X16. Eviction follows the clock.  A job that is old enough at one
    time is old enough at any later time; and, for a window below 2^53
    seconds, a job whose exact age is at most the window is not expired,
    in spite of the rounding of the float difference, so the sweep keeps
    its record. *)
Theorem eviction_follows_the_clock now max_age_sec j :
  (forall later,
     (now <= later)%Q -> expired now max_age_sec j = true ->
     expired later max_age_sec j = true) /\
  (0 <= max_age_sec < 2 ^ 53 ->
   (now - created_at j <= inject_Z max_age_sec)%Q ->
   expired now max_age_sec j = false /\
   forall srv jid,
     jobs srv !! jid = Some j ->
     jobs (cleanup_old_jobs now max_age_sec srv) !! jid = Some j).
Proof.
  split.
  - intros later Hle. rewrite !expired_true. intros H.
    eapply Qlt_le_trans; [exact H|]. unfold py_fsub. apply rn64_mono_all.
    lra.
  - intros Hm Hage.
    assert (Hexp : expired now max_age_sec j = false).
    { destruct (expired now max_age_sec j) eqn:E; [|reflexivity].
      apply expired_true in E. unfold py_fsub in E.
      pose proof (rn64_mono_all _ _ Hage) as H.
      rewrite (rn64_inject_Z max_age_sec Hm) in H. lra. }
    split; [exact Hexp|]. intros srv jid Hjob.
    exact (sweep_keeps now max_age_sec srv jid j Hjob Hexp).
Qed.

Lemma to_remove_nil (registry : gmap string Job) now max_age_sec :
  (forall jid j, registry !! jid = Some j -> expired now max_age_sec j = false) ->
  to_remove registry now max_age_sec = [].
Proof.
  intros H. destruct (to_remove registry now max_age_sec) as [|jid l] eqn:E;
    [reflexivity|].
  assert (Hin : In jid (to_remove registry now max_age_sec))
    by (rewrite E; left; reflexivity).
  apply to_remove_spec in Hin as (j & Hj & He).
  rewrite (H jid j Hj) in He. discriminate.
Qed.

(** X17. A sweep leaves nothing for a second sweep at the same time: no
    record of the registry it returns is expired, so sweeping again
    changes neither the registry nor the files; and a sweep of a registry
    without expired jobs changes nothing. *)
Theorem sweep_is_idempotent now max_age_sec srv :
  let srv' := cleanup_old_jobs now max_age_sec srv in
  (forall jid j, jobs srv' !! jid = Some j -> expired now max_age_sec j = false) /\
  cleanup_old_jobs now max_age_sec srv' = srv' /\
  ((forall jid j, jobs srv !! jid = Some j -> expired now max_age_sec j = false) ->
   srv' = srv).
Proof.
  intros srv'.
  assert (Hclean : forall jid j,
            jobs srv' !! jid = Some j -> expired now max_age_sec j = false).
  { intros jid j Hj. unfold srv', cleanup_old_jobs in Hj.
    destruct (sweep_spec (to_remove (jobs srv) now max_age_sec) srv)
      as (Hspec & _).
    destruct (in_dec string_dec jid (to_remove (jobs srv) now max_age_sec))
      as [Hin|Hnin].
    - rewrite (proj1 (Hspec jid) Hin) in Hj. discriminate.
    - rewrite (proj2 (Hspec jid) Hnin) in Hj.
      destruct (expired now max_age_sec j) eqn:E; [|reflexivity].
      exfalso. apply Hnin, to_remove_spec. eauto. }
  split; [exact Hclean|]. split.
  - unfold cleanup_old_jobs at 1. rewrite (to_remove_nil _ _ _ Hclean).
    reflexivity.
  - intros H. unfold srv', cleanup_old_jobs. rewrite (to_remove_nil _ _ _ H).
    reflexivity.
Qed.

(** ** The form of a submission *)

Lemma space_without_FS_US c :
  in_range 28 31 c = false -> is_space c = is_int_space c.
Proof.
  destruct c as [[] [] [] [] [] [] [] []]; intros H; try reflexivity;
    discriminate H.
Qed.

Lemma digit_no_space c :
  is_digit c = true -> is_space c = false /\ is_int_space c = false.
Proof.
  destruct c as [[] [] [] [] [] [] [] []]; intros H;
    try discriminate H; split; reflexivity.
Qed.

Lemma lstrip_plain s :
  string_exists (in_range 28 31) s = false -> lstrip s = int_lstrip s.
Proof.
  induction s as [|c s IH]; simpl; [reflexivity|]. intros H.
  apply orb_false_iff in H as [Hc Hs].
  rewrite (space_without_FS_US c Hc), (IH Hs). reflexivity.
Qed.

Lemma lstrip_exists f s :
  string_exists f s = false -> string_exists f (lstrip s) = false.
Proof.
  induction s as [|c s IH]; simpl; [reflexivity|]. intros H.
  destruct (is_space c); [|exact H].
  apply orb_false_iff in H as [_ H]. exact (IH H).
Qed.

Lemma rstrip_empty s : rstrip s = "" -> lstrip s = "".
Proof.
  induction s as [|c s IH]; simpl; [reflexivity|].
  destruct (is_space c); simpl; [|discriminate].
  destruct (String.eqb_spec (rstrip s) ""); [auto | discriminate].
Qed.

(** On a text whose stripped form is a digit string, the scan stops at
    the blanks that follow the digits. *)
Lemma scan_rstrip t :
  string_exists (in_range 28 31) t = false ->
  all_digits (rstrip t) = true ->
  exists rest, scan_digits t = (rstrip t, rest) /\ int_lstrip rest = "".
Proof.
  induction t as [|c t IH]; intros Hfs Hd.
  - exists "". split; reflexivity.
  - simpl in Hfs. apply orb_false_iff in Hfs as [Hc Hfs].
    simpl rstrip in *.
    destruct (is_space c && String.eqb (rstrip t) "") eqn:E.
    + apply andb_true_iff in E as [Hsp Hemp].
      apply String.eqb_eq, rstrip_empty in Hemp.
      assert (Hnd : is_digit c || Ascii.eqb c "_" = false).
      { destruct c as [[] [] [] [] [] [] [] []]; try reflexivity;
          discriminate Hsp. }
      exists (String c t). simpl. rewrite Hnd. split; [reflexivity|].
      rewrite <- (space_without_FS_US c Hc), Hsp.
      rewrite <- (lstrip_plain t Hfs). exact Hemp.
    + simpl in Hd. apply andb_true_iff in Hd as [Hdc Hdt].
      destruct (IH Hfs Hdt) as (rest & Hscan & Hrest).
      exists rest. simpl. rewrite Hdc, Hscan. split; [reflexivity | exact Hrest].
Qed.

Lemma rstrip_digits d : all_digits d = true -> rstrip d = d.
Proof.
  induction d as [|c d IH]; simpl; [reflexivity|]. intros H.
  apply andb_true_iff in H as [Hc Hd]. rewrite (IH Hd).
  destruct (digit_no_space c Hc) as [-> _]. reflexivity.
Qed.

Lemma strip_digits d : isdigit d = true -> strip d = d /\ int_lstrip d = d.
Proof.
  unfold isdigit. intros H. apply andb_true_iff in H as [Hne Hd].
  destruct d as [|c d]; [discriminate|].
  assert (Hc : is_digit c = true).
  { simpl in Hd. apply andb_true_iff in Hd. apply Hd. }
  destruct (digit_no_space c Hc) as [H1 H2].
  unfold strip. simpl lstrip. simpl int_lstrip. rewrite H1, H2.
  split; [apply rstrip_digits, Hd | reflexivity].
Qed.

Lemma scan_all_digits d : all_digits d = true -> scan_digits d = (d, "").
Proof.
  induction d as [|c d IH]; simpl; [reflexivity|]. intros H.
  apply andb_true_iff in H as [-> Hd]. rewrite (IH Hd). reflexivity.
Qed.

Lemma digit_count_digits d :
  all_digits d = true -> digit_count d = String.length d.
Proof.
  induction d as [|c d IH]; simpl; [reflexivity|]. intros H.
  apply andb_true_iff in H as [-> Hd]. rewrite (IH Hd). reflexivity.
Qed.

Lemma unsigned_body c t :
  is_digit c = true \/ in_range 28 31 c = true ->
  (match String c t with
   | String "-" r => (true, r)
   | String "+" r => (false, r)
   | _ => (false, String c t)
   end) = (false, String c t).
Proof.
  destruct c as [[] [] [] [] [] [] [] []]; intros [H|H]; try reflexivity;
    discriminate H.
Qed.

(** The value of a digit string, within the conversion limit or not. *)
Lemma int_of_digits d :
  isdigit d = true ->
  exists v,
    0 <= v /\
    int_of_str d
    = if (max_str_digits <? String.length d)%nat
      then Raises (ValueError
             ("Exceeds the limit (4300 digits) for integer string conversion: value has "
              +:+ pretty (String.length d)
              +:+ " digits; use sys.set_int_max_str_digits() to increase the limit"))
      else Returns v.
Proof.
  intros H. destruct (strip_digits d H) as [_ Hs].
  unfold isdigit in H. apply andb_true_iff in H as [Hne Hd].
  destruct d as [|c t]; [discriminate|].
  assert (Hc : is_digit c = true).
  { simpl in Hd. apply andb_true_iff in Hd. apply Hd. }
  destruct (digits_value_total (String c t) Hd 0 false) as (v & Hv & Hpos);
    [right; discriminate | lia |].
  exists v. split; [exact Hpos|].
  unfold int_of_str. rewrite Hs, (unsigned_body c t (or_introl Hc)).
  rewrite (scan_all_digits _ Hd), Hv, (digit_count_digits _ Hd).
  reflexivity.
Qed.

Lemma int_of_str_token p :
  isdigit (strip p) = true -> plain_token p = true ->
  exists v, int_of_str p = Returns v /\ 0 <= v.
Proof.
  intros Hd Hp. unfold plain_token in Hp.
  apply andb_true_iff in Hp as [Hfs Hlen].
  apply negb_true_iff in Hfs. apply Nat.leb_le in Hlen.
  unfold isdigit in Hd. apply andb_true_iff in Hd as [Hne Hd].
  unfold strip in *.
  destruct (scan_rstrip (lstrip p) (lstrip_exists _ p Hfs) Hd)
    as (rest & Hscan & Hrest).
  destruct (rstrip (lstrip p)) as [|c t] eqn:E; [discriminate|].
  assert (Hc : is_digit c = true).
  { simpl in Hd. apply andb_true_iff in Hd. apply Hd. }
  destruct (digits_value_total (String c t) Hd 0 false) as (v & Hv & Hpos);
    [right; discriminate | lia |].
  exists v. split; [|exact Hpos].
  (* the first character of the text without its leading blanks *)
  destruct (lstrip p) as [|c' t'] eqn:El; [discriminate E|].
  assert (Hc' : c' = c).
  { simpl in E. destruct (is_space c' && String.eqb (rstrip t') "");
      [discriminate E | injection E as -> _; reflexivity]. }
  subst c'.
  unfold int_of_str. rewrite <- (lstrip_plain p Hfs), El.
  rewrite (unsigned_body c t' (or_introl Hc)), Hscan, Hv.
  rewrite (digit_count_digits _ Hd).
  assert (Hlt : (max_str_digits <? String.length (String c t))%nat = false)
    by (apply Nat.ltb_ge; exact Hlen).
  rewrite Hlt, Hrest. reflexivity.
Qed.

Lemma int_tokens_exact tokens :
  Forall (fun p => plain_token p = true) tokens ->
  exists l,
    int_tokens tokens = Returns l /\
    Forall2 (fun p v => int_of_str p = Returns v /\ 0 <= v)
      (List.filter (fun p => isdigit (strip p)) tokens) l.
Proof.
  induction 1 as [|p rest Hplain _ (l & IH & Hall)]; simpl.
  - exists []. split; [reflexivity | constructor].
  - destruct (isdigit (strip p)) eqn:Hp.
    + destruct (int_of_str_token p Hp Hplain) as (v & Hv & Hpos).
      rewrite Hv, IH. exists (v :: l). split; [reflexivity|].
      constructor; [split; assumption | exact Hall].
    + exists l. split; [exact IH | exact Hall].
Qed.

Lemma int_of_str_raises s e : int_of_str s = Raises e -> is_ValueError e = true.
Proof.
  unfold int_of_str.
  destruct (match int_lstrip s with
            | String "-" r => (true, r)
            | String "+" r => (false, r)
            | _ => (false, int_lstrip s)
            end) as [negative body].
  destruct (scan_digits body) as [lit rest].
  destruct (digits_value 0 false lit);
    [destruct (max_str_digits <? digit_count lit)%nat;
       [|destruct (String.eqb (int_lstrip rest) "")]|];
    try discriminate; intros [= <-]; reflexivity.
Qed.

Lemma int_tokens_raises tokens e :
  int_tokens tokens = Raises e ->
  is_ValueError e = true /\
  exists p, In p tokens /\ isdigit (strip p) = true /\ int_of_str p = Raises e.
Proof.
  induction tokens as [|p rest IH]; simpl; [discriminate|].
  destruct (isdigit (strip p)) eqn:Hp.
  - destruct (int_of_str p) as [v|e'] eqn:Hv.
    + destruct (int_tokens rest) as [vs|e'']; [discriminate|].
      intros [= ->]. destruct (IH eq_refl) as (H1 & q & Hq & H2).
      split; [exact H1|]. exists q. split; [right; exact Hq | exact H2].
    + intros [= ->]. split; [exact (int_of_str_raises _ _ Hv)|].
      exists p. split; [left; reflexivity | split; assumption].
  - intros H. destruct (IH H) as (H1 & q & Hq & H2).
    split; [exact H1|]. exists q. split; [right; exact Hq | exact H2].
Qed.

(** X18. When the page field fails a submission.  A token of the
    [extract_pages] field passes the filter on its stripped form but is
    read by [int] unstripped.  A token that passes, holds none of the
    characters FS..US and has at most 4300 digits is read as a number that
    is not negative, so a field of such tokens gives the list of the
    numbers of its digit tokens, in order.  But a digit string behind one
    of the characters FS..US passes the filter and is refused by [int], and
    so is a digit string of more than 4300 digits: such a token fails the
    whole form with a [ValueError].  A form is refused only for its
    [quality], [max_dimension] or [extract_pages] field. *)
Theorem page_field_failures :
  (forall p,
     is_ascii p = true -> isdigit (strip p) = true -> plain_token p = true ->
     exists v, int_of_str p = Returns v /\ 0 <= v) /\
  (forall c d,
     in_range 28 31 c = true -> isdigit d = true ->
     isdigit (strip (String c d)) = true /\
     int_of_str (String c d)
     = Raises (ValueError ("invalid literal for int() with base 10: "
                           +:+ String.substring 0 200 (py_repr (String c d))))) /\
  (forall d,
     isdigit d = true -> (max_str_digits < String.length d)%nat ->
     isdigit (strip d) = true /\
     exists e, int_of_str d = Raises e /\ is_ValueError e = true) /\
  (forall field,
     is_ascii field = true ->
     Forall (fun p => plain_token p = true) (split "," field) ->
     exists l,
       parse_extract_pages field = Returns l /\
       Forall (fun v => 0 <= v) l /\
       (field <> "" ->
        Forall2 (fun p v => int_of_str p = Returns v)
          (List.filter (fun p => isdigit (strip p)) (split "," field)) l)) /\
  (forall field e,
     parse_extract_pages field = Raises e ->
     is_ValueError e = true /\
     exists p, In p (split "," field) /\ isdigit (strip p) = true /\
               plain_token p = false /\ int_of_str p = Raises e) /\
  (forall form e,
     Routes.read_form form = Raises e ->
     is_ValueError e = true /\
     (int_field form "quality" 60 = Raises e \/
      int_field form "max_dimension" 1000 = Raises e \/
      parse_extract_pages (strip (default "" (form !! "extract_pages")))
      = Raises e)).
Proof.
  split; [|split; [|split; [|split; [|split]]]].
  - intros p _ Hd Hp. exact (int_of_str_token p Hd Hp).
  - intros c d Hc Hd.
    destruct (strip_digits d Hd) as [Hs Hi].
    assert (Hsp : is_space c = true /\ is_int_space c = false /\
                  is_digit c || Ascii.eqb c "_" = false).
    { destruct c as [[] [] [] [] [] [] [] []]; try discriminate Hc;
        repeat split. }
    destruct Hsp as (Hs1 & Hs2 & Hs3).
    assert (Hstrip : strip (String c d) = d).
    { unfold strip. simpl lstrip. rewrite Hs1.
      unfold strip in Hs. exact Hs. }
    split; [rewrite Hstrip; exact Hd|].
    unfold int_of_str. simpl int_lstrip. rewrite Hs2.
    rewrite (unsigned_body c d (or_intror Hc)).
    simpl scan_digits. rewrite Hs3. reflexivity.
  - intros d Hd Hlen. destruct (strip_digits d Hd) as [Hs _].
    split; [rewrite Hs; exact Hd|].
    destruct (int_of_digits d Hd) as (v & _ & Hv).
    apply Nat.ltb_lt in Hlen. rewrite Hlen in Hv.
    eexists. split; [exact Hv | reflexivity].
  - intros field _ Hplain. unfold parse_extract_pages.
    destruct (String.eqb_spec field "") as [->|Hne].
    + exists []. split; [reflexivity|]. split; [constructor | congruence].
    + destruct (int_tokens_exact (split "," field) Hplain) as (l & Hl & Hall).
      exists l. split; [exact Hl|]. split.
      * clear Hl. induction Hall as [|p v ps vs [_ Hv] _ IH];
          constructor; assumption.
      * intros _. clear Hl. induction Hall as [|p v ps vs [Hv _] _ IH];
          constructor; assumption.
  - intros field e. unfold parse_extract_pages.
    destruct (String.eqb field ""); [discriminate|]. intros H.
    destruct (int_tokens_raises _ _ H) as (H1 & p & Hin & Hd & Hr).
    split; [exact H1|]. exists p. repeat split; try assumption.
    destruct (plain_token p) eqn:Hp; [|reflexivity].
    destruct (int_of_str_token p Hd Hp) as (v & Hv & _). congruence.
  - intros form e. unfold Routes.read_form, int_field.
    set (field := strip (default "" (form !! "extract_pages"))).
    assert (Hpage : forall e', parse_extract_pages field = Raises e' ->
                               is_ValueError e' = true).
    { intros e'. unfold parse_extract_pages.
      destruct (String.eqb field ""); [discriminate|]. intros H.
      apply (int_tokens_raises _ _ H). }
    destruct (match form !! "quality" with
              | Some v => int_of_str v
              | None => Returns 60
              end) as [quality|eq] eqn:Hq.
    + destruct (match form !! "max_dimension" with
                | Some v => int_of_str v
                | None => Returns 1000
                end) as [max_dimension|em] eqn:Hm.
      * destruct (parse_extract_pages field) as [l|ep] eqn:Hp; [discriminate|].
        intros [= <-]. split; [exact (Hpage _ eq_refl)|]. right. right.
        reflexivity.
      * intros [= <-]. split; [|right; left; reflexivity].
        destruct (form !! "max_dimension"); [|discriminate].
        exact (int_of_str_raises _ _ Hm).
    + intros [= <-]. split; [|left; reflexivity].
      destruct (form !! "quality"); [|discriminate].
      exact (int_of_str_raises _ _ Hq).
Qed.

Lemma page_field_failures_witness :
  let token := String "031" "2" in
  isdigit (strip token) = true /\
  int_of_str token
  = Raises (ValueError "invalid literal for int() with base 10: '\x1f2'") /\
  parse_extract_pages (String "1" (String "," token))
  = Raises (ValueError "invalid literal for int() with base 10: '\x1f2'").
Proof.
  intros token.
  destruct (proj1 (proj2 page_field_failures) "031"%char "2" eq_refl eq_refl)
    as [H1 H2].
  split; [exact H1|]. split; [exact H2|].
  destruct (proj1 (proj2 (proj2 (proj2 (proj2 page_field_failures))))
              (String "1" (String "," token))
              (ValueError "invalid literal for int() with base 10: '\x1f2'")
              eq_refl) as [_ _].
  reflexivity.
Defined.

(** ** Submissions *)

(** X19. The ways a submission ends.  Refused, it is answered with an
    error of code 400 (no file, or a name that does not end in ".pdf",
    whatever the case) or 500, and starts no thread; of the files only the
    temporary one can differ, and it is left behind only if its removal is
    refused.  A refusal leaves the registry as it was, with one exception:
    when everything succeeded up to the start of the thread and the start
    itself raises, the answer is an error 500 with the message of the
    exception, but the queued record is already registered under the fresh
    token and stays there, for an input file that has just been removed.
    Accepted, the submission is answered with the fresh token, registers
    under it one queued record with progress 0 for the saved file, and
    starts one thread on that token and that file with the values read from
    the form. *)
Theorem submission_outcomes env srv req :
  let registered :=
    <[uuid4_hex env := new_job (time_now env) (tmp_name env)]> (jobs srv) in
  match Routes.compress env srv req with
  | (resp, srv', None) =>
      (exists code msg,
         resp = JsonError code msg /\ (code = 400 \/ code = 500) /\
         (code = 400 <-> pdf_upload req = false)) /\
      (jobs srv' = jobs srv \/
       exists e, thread_start env = Raises e /\
                 resp = JsonError 500 (str_exn e) /\ jobs srv' = registered) /\
      (forall e v,
         pdf_upload req = true ->
         Routes.read_form (form req) = Returns v ->
         save_upload env = Returns () ->
         thread_start env = Raises e ->
         resp = JsonError 500 (str_exn e) /\ jobs srv' = registered) /\
      ((pdf_upload req = false \/
        (exists e, Routes.read_form (form req) = Raises e) \/
        (exists e, save_upload env = Raises e)) ->
       jobs srv' = jobs srv) /\
      (forall path, path ∈ existing (disk srv') ->
         path ∈ existing (disk srv) \/
         (path = tmp_name env /\
          (path ∈ undeletable (disk srv) \/ path = ""))) /\
      (forall path, path ∈ existing (disk srv) -> path <> tmp_name env ->
         path ∈ existing (disk srv'))
  | (resp, srv', Some args) =>
      save_upload env = Returns () /\
      thread_start env = Returns () /\
      resp = JsonJobId (uuid4_hex env) /\
      jobs srv' = registered /\
      existing (disk srv') = {[tmp_name env]} ∪ existing (disk srv) /\
      arg_job_id args = uuid4_hex env /\
      arg_input_pdf args = tmp_name env /\
      Routes.read_form (form req)
      = Returns (arg_quality args, arg_max_dimension args,
                 arg_drawing_mode args, arg_extract_pages args,
                 arg_extreme_compression args)
  end.
Proof.
  intros registered. subst registered. unfold Routes.compress, pdf_upload.
  assert (Hdisk :
    (forall path,
       path ∈ existing (cleanup_temp_file
                          (add_file (tmp_name env) (disk srv))
                          (Some (tmp_name env))) ->
       path ∈ existing (disk srv) \/
       (path = tmp_name env /\
        (path ∈ undeletable (disk srv) \/ path = ""))) /\
    (forall path, path ∈ existing (disk srv) -> path <> tmp_name env ->
       path ∈ existing (cleanup_temp_file
                          (add_file (tmp_name env) (disk srv))
                          (Some (tmp_name env))))).
  { destruct (cleanup_temp_file_spec (add_file (tmp_name env) (disk srv))
                (tmp_name env)) as (_ & Hsub & Hleft & Hgone).
    split.
    - intros path Hin. destruct (decide (path = tmp_name env)) as [->|Hne].
      + right. split; [reflexivity|]. apply Hleft in Hin. exact Hin.
      + left. apply Hsub in Hin. simpl in Hin.
        apply elem_of_union in Hin as [Hin|Hin]; [|exact Hin].
        apply elem_of_singleton in Hin. contradiction.
    - intros path Hin Hne.
      destruct (decide (path ∈ existing (cleanup_temp_file
                  (add_file (tmp_name env) (disk srv)) (Some (tmp_name env)))))
        as [H|H]; [exact H|].
      exfalso. apply Hne, Hgone; [|exact H].
      simpl. apply elem_of_union. right. exact Hin. }
  destruct Hdisk as [Hd1 Hd2].
  destruct (files req !! "file") as [f|].
  2: { split; [exists 400, "No file part"; repeat split; auto|].
       split; [left; reflexivity|]. split; [discriminate|].
       split; [reflexivity|]. split; intros; auto. }
  destruct (String.eqb_spec (filename f) "") as [E|E]; simpl orb.
  { assert (Hpdf : endswith (lower (filename f)) ".pdf" = false)
      by (rewrite E; reflexivity).
    rewrite Hpdf.
    split; [exists 400, "Please upload a PDF file"; repeat split; auto|].
    split; [left; reflexivity|]. split; [discriminate|].
    split; [reflexivity|]. split; intros; auto. }
  destruct (endswith (lower (filename f)) ".pdf") eqn:Hpdf; simpl negb; cbv iota.
  2: { split; [exists 400, "Please upload a PDF file"; repeat split; auto|].
       split; [left; reflexivity|]. split; [discriminate|].
       split; [reflexivity|]. split; intros; auto. }
  destruct (Routes.read_form (form req))
    as [[[[[quality max_dimension] drawing_mode] extract_pages] ex]|e].
  2: { split; [exists 500, (str_exn e); split; [reflexivity|];
               split; [right; reflexivity|]; split; discriminate|].
       split; [left; reflexivity|]. split; [discriminate|].
       split; [reflexivity|]. split; intros; auto. }
  destruct (save_upload env) as [[]|e].
  - destruct (thread_start env) as [[]|e].
    + repeat split.
    + split; [exists 500, (str_exn e); split; [reflexivity|];
              split; [right; reflexivity|]; split; discriminate|].
      split; [right; exists e; repeat split|].
      split; [intros e' v _ _ _ [= <-]; split; reflexivity|].
      split; [|split; [exact Hd1 | exact Hd2]].
      intros [H | [[e' H] | [e' H]]]; discriminate H.
  - split; [exists 500, (str_exn e); split; [reflexivity|];
            split; [right; reflexivity|]; split; discriminate|].
    split; [left; reflexivity|]. split; [discriminate|].
    split; [reflexivity|]. split; [exact Hd1 | exact Hd2].
Qed.

Lemma submission_outcomes_witness :
  let env := {| tmp_name := "/tmp/tmpc3.pdf"; save_upload := Returns ();
                uuid4_hex := "7a2b"; time_now := 100;
                thread_start := Raises (OtherError "can't start new thread") |} in
  let req := {| files := {[ "file" := {| filename := "plans.pdf" |} ]};
                form := ∅ |} in
  let srv := {| jobs := ∅; disk := {| existing := ∅; undeletable := ∅ |} |} in
  match Routes.compress env srv req with
  | (resp, srv', _) =>
      resp = JsonError 500 "can't start new thread" /\
      jobs srv' !! "7a2b" = Some (new_job 100 "/tmp/tmpc3.pdf")
  end.
Proof.
  intros env req srv.
  pose proof (submission_outcomes env srv req) as H. cbv zeta in H.
  destruct (Routes.compress env srv req) as [[resp srv'] [args|]].
  - destruct H as (_ & Hstart & _). discriminate Hstart.
  - destruct H as (_ & _ & H & _).
    destruct (H (OtherError "can't start new thread")
                (60, 1000, "general", [], false)
                eq_refl eq_refl eq_refl eq_refl) as [-> ->].
    split; [reflexivity | apply lookup_insert_eq].
Defined.

Lemma compress_accepted env srv req job_id srv1 args :
  Routes.compress env srv req = (JsonJobId job_id, srv1, Some args) ->
  jobs srv1 = <[job_id := new_job (time_now env) (tmp_name env)]> (jobs srv) /\
  arg_job_id args = job_id /\ arg_input_pdf args = tmp_name env.
Proof.
  unfold Routes.compress. destruct (files req !! "file"); [|discriminate].
  destruct (_ || _); [discriminate|].
  destruct (Routes.read_form (form req)) as [[[[[? ?] ?] ?] ?]|]; [|discriminate].
  destruct (save_upload env); [|discriminate].
  destruct (thread_start env); [|discriminate].
  intros [= <- <- <-]. repeat split.
Qed.

(** X20. From submission to download.  Right after an accepted
    submission the token is answered "queued" with progress 0 and has no
    file; once its thread has run, either the status is "done" with
    progress 100 and the download sends a file, or the status is "error"
    with a message and a progress of at most 95 and the download is still
    refused.  Every other token is answered as before the submission, and
    the run removes no file. *)
Theorem submitted_job_can_be_polled w env srv req job_id srv1 args :
  Routes.compress env srv req = (JsonJobId job_id, srv1, Some args) ->
  let srv2 := run_thread w srv1 args in
  Routes.status srv1 job_id = JsonStatus "queued" 0 None /\
  Routes.download srv1 job_id = JsonError 404 "File not ready or found" /\
  ((exists data,
      Routes.status srv2 job_id = JsonStatus "done" 100 None /\
      Routes.download srv2 job_id = SendFile data) \/
   (exists p msg,
      Routes.status srv2 job_id = JsonStatus "error" p (Some msg) /\
      0 <= p <= 95 /\
      Routes.download srv2 job_id
      = JsonError 404 "File not ready or found")) /\
  (forall other, other <> job_id ->
     Routes.status srv2 other = Routes.status srv other /\
     Routes.download srv2 other = Routes.download srv other) /\
  disk srv2 = disk srv1.
Proof.
  intros Hc srv2.
  destruct (compress_accepted env srv req job_id srv1 args Hc)
    as (Hjobs & Hid & Hpath).
  assert (H1 : jobs srv1 !! job_id
               = Some (new_job (time_now env) (tmp_name env)))
    by (rewrite Hjobs; apply lookup_insert_eq).
  assert (H2 : jobs srv2
               = <[job_id := current (run_job w
                    (new_job (time_now env) (tmp_name env))
                    (arg_input_pdf args) (arg_quality args)
                    (arg_max_dimension args) (arg_drawing_mode args)
                    (Some (arg_extract_pages args))
                    (arg_extreme_compression args))]> (jobs srv1)).
  { unfold srv2, run_thread, process_job. simpl. rewrite Hid, H1.
    reflexivity. }
  split; [unfold Routes.status; rewrite H1; reflexivity|].
  split; [unfold Routes.download; rewrite H1; reflexivity|].
  split; [|split; [|reflexivity]].
  - unfold Routes.status, Routes.download. rewrite H2, lookup_insert_eq.
    destruct (run_job_shape w (time_now env) (tmp_name env)
                (arg_input_pdf args) (arg_quality args)
                (arg_max_dimension args) (arg_drawing_mode args)
                (Some (arg_extract_pages args)) (arg_extreme_compression args))
      as (s0 & Hg & [[fb ->] | [e ->]]).
    + left. exists fb. split; reflexivity.
    + right. exists (progress (current s0)), (str_exn e).
      pose proof (Good_current_Running _ _ _ Hg) as (_ & _ & _ & Hout & _).
      destruct Hg as (_ & _ & _ & Hb).
      simpl. rewrite Hout. repeat split; lia.
  - intros other Hne. unfold Routes.status, Routes.download.
    rewrite H2, Hjobs, !lookup_insert_ne by congruence. split; reflexivity.
Qed.

Lemma submitted_job_can_be_polled_witness :
  let env := {| tmp_name := "/tmp/tmpb2.pdf"; save_upload := Returns ();
                uuid4_hex := "9d1e"; time_now := 100;
                thread_start := Returns () |} in
  let req := {| files := {[ "file" := {| filename := "Plans.PDF" |} ]};
                form := {[ "extract_pages" := "2, 3" ]} |} in
  exists srv1 args,
    Routes.compress env locked_server req = (JsonJobId "9d1e", srv1, Some args) /\
    Routes.status srv1 "9d1e" = JsonStatus "queued" 0 None /\
    Routes.status (run_thread sample_world srv1 args) "5f0c"
    = Routes.status locked_server "5f0c".
Proof.
  intros env req. eexists _, _. split; [reflexivity|].
  match goal with
  | |- Routes.status ?srv1 _ = _ /\ Routes.status (run_thread _ _ ?args) _ = _ =>
      pose proof (submitted_job_can_be_polled sample_world env locked_server
                    req "9d1e" srv1 args eq_refl) as (H1 & _ & _ & H4 & _)
  end.
  split; [exact H1|]. apply (H4 "5f0c"). discriminate.
Defined.

(** ** The analysis route *)

Lemma analyze_pdf_pages_Some (pages : list Page) :
  analyze_pdf_pages (Some pages)
  = Some {| total_pages := Z.of_nat (length pages);
            sections := map (fun k => (k, pages_labelled k pages 1))
                          (map fst empty_sections) |}.
Proof.
  unfold analyze_pdf_pages.
  rewrite (classify_pages_spec pages 1 empty_sections); [reflexivity| |].
  - apply (bool_decide_unpack _). vm_compute. exact I.
  - simpl. tauto.
Qed.

(** X21. The analysis route leaves no trace.  It never touches the
    registry, and of the files only its temporary one can differ
    afterwards, which stays behind only if its removal is refused: the file
    is cleaned up whether the analysis succeeds, fails, or the upload
    cannot be saved.  The answer is the analysis exactly when the upload is
    named as a PDF, is saved and opens; it is an error 400 for any other
    upload, an error 500 when the document cannot be read, and the view
    raises when the upload cannot be saved. *)
Theorem analysis_leaves_no_trace env open_doc srv req :
  let tmp := tmp_name env in
  match analyze env open_doc srv req with
  | (resp, srv') =>
      jobs srv' = jobs srv /\
      undeletable (disk srv') = undeletable (disk srv) /\
      (forall path, path ∈ existing (disk srv') ->
         path ∈ existing (disk srv) \/
         (path = tmp /\ (path ∈ undeletable (disk srv) \/ path = ""))) /\
      (forall path, path ∈ existing (disk srv) -> path <> tmp ->
         path ∈ existing (disk srv')) /\
      match resp with
      | Returns (AnalysisJson a) =>
          pdf_upload req = true /\ save_upload env = Returns () /\
          exists pages,
            open_doc tmp = Some pages /\
            total_pages a = Z.of_nat (length pages) /\
            sections a = map (fun k => (k, pages_labelled k pages 1))
                           (map fst empty_sections)
      | Returns (AnalyzeError code msg) =>
          (code = 400 /\ pdf_upload req = false /\ srv' = srv) \/
          (code = 500 /\ pdf_upload req = true /\
           save_upload env = Returns () /\ open_doc tmp = None)
      | Raises e => pdf_upload req = true /\ save_upload env = Raises e
      end
  end.
Proof.
  intros tmp. unfold analyze, pdf_upload.
  destruct (files req !! "file") as [f|].
  2: { repeat split; auto. }
  destruct (String.eqb_spec (filename f) "") as [E|E]; simpl orb.
  { repeat split; auto. left. rewrite E. repeat split. }
  destruct (endswith (lower (filename f)) ".pdf") eqn:Hpdf; simpl negb; cbv iota.
  2: { repeat split; auto. }
  fold tmp.
  destruct (cleanup_temp_file_spec (add_file tmp (disk srv)) tmp)
    as (Hund & Hsub & Hleft & Hgone).
  split; [reflexivity|]. split; [exact Hund|]. cbn [disk]. split; [|split].
  - intros path Hin. destruct (decide (path = tmp)) as [->|Hne].
    + right. split; [reflexivity|]. apply Hleft in Hin. exact Hin.
    + left. apply Hsub in Hin. simpl in Hin.
      apply elem_of_union in Hin as [Hin|Hin]; [|exact Hin].
      apply elem_of_singleton in Hin. contradiction.
  - intros path Hin Hne.
    destruct (decide (path ∈ existing (cleanup_temp_file
                (add_file tmp (disk srv)) (Some tmp)))) as [H|H]; [exact H|].
    exfalso. apply Hne, Hgone; [|exact H].
    simpl. apply elem_of_union. right. exact Hin.
  - destruct (save_upload env) as [[]|e]; [|split; reflexivity].
    destruct (open_doc tmp) as [pages|] eqn:Hopen.
    + rewrite analyze_pdf_pages_Some. split; [reflexivity|].
      split; [reflexivity|]. exists pages. repeat split.
    + simpl. right. repeat split.
Qed.

(** ** Successive sweeps *)

Lemma sweep_lookup now max_age_sec srv jid :
  jobs (cleanup_old_jobs now max_age_sec srv) !! jid
  = match jobs srv !! jid with
    | Some j => if expired now max_age_sec j then None else Some j
    | None => None
    end.
Proof.
  unfold cleanup_old_jobs.
  destruct (sweep_spec (to_remove (jobs srv) now max_age_sec) srv) as (Hj & _).
  destruct (jobs srv !! jid) as [j|] eqn:Hjob.
  - destruct (expired now max_age_sec j) eqn:He.
    + apply Hj, to_remove_spec. eauto.
    + rewrite (proj2 (Hj jid)); [exact Hjob|].
      intros Hin. apply to_remove_spec in Hin as (j' & Hj' & He'). congruence.
  - rewrite (proj2 (Hj jid)); [exact Hjob|].
    intros Hin. apply to_remove_spec in Hin as (j' & Hj' & He'). congruence.
Qed.

Lemma expired_later now later max_age_sec j :
  (now <= later)%Q -> expired now max_age_sec j = true ->
  expired later max_age_sec j = true.
Proof.
  intros Hle. rewrite !expired_true. intros H.
  eapply Qlt_le_trans; [exact H|]. unfold py_fsub. apply rn64_mono_all.
  lra.
Qed.

Lemma sweeps_disk times max_age_sec : forall srv,
  existing (disk (sweeps times max_age_sec srv)) ⊆ existing (disk srv).
Proof.
  induction times as [|t ts IH]; intros srv; [reflexivity|].
  unfold sweeps in *. simpl. etransitivity; [apply IH|].
  unfold cleanup_old_jobs.
  destruct (sweep_spec (to_remove (jobs srv) t max_age_sec) srv)
    as (_ & _ & He & _).
  exact He.
Qed.

(** X22. Successive sweeps add up to the last one.  After sweeps at
    readings of the clock that do not exceed a last reading, followed by
    the sweep at that last reading, the registry is the one the last sweep
    alone would have left: an earlier sweep only evicts jobs that the last
    one evicts as well.  No sweep ever creates a file. *)
Theorem sweeps_add_up times last max_age_sec srv :
  Forall (fun t => (t <= last)%Q) times ->
  jobs (cleanup_old_jobs last max_age_sec (sweeps times max_age_sec srv))
  = jobs (cleanup_old_jobs last max_age_sec srv) /\
  existing (disk (cleanup_old_jobs last max_age_sec
                    (sweeps times max_age_sec srv)))
  ⊆ existing (disk srv).
Proof.
  intros Hall. split.
  - revert srv. induction Hall as [|t ts Ht _ IH]; intros srv; [reflexivity|].
    unfold sweeps in *. simpl. rewrite IH.
    apply map_eq. intros jid. rewrite !sweep_lookup.
    destruct (jobs srv !! jid) as [j|]; [|reflexivity].
    destruct (expired t max_age_sec j) eqn:Et; [|reflexivity].
    rewrite (expired_later t last max_age_sec j Ht Et). reflexivity.
  - etransitivity; [|apply (sweeps_disk times max_age_sec srv)].
    unfold cleanup_old_jobs at 1.
    match goal with
    | |- context [foldl evict ?s ?l] =>
        destruct (sweep_spec l s) as (_ & _ & He & _)
    end.
    exact He.
Qed.

Lemma sweeps_add_up_witness :
  jobs (cleanup_old_jobs 4200 3600 (sweeps [600%Q; 1200%Q; 3700%Q] 3600 locked_server))
  = jobs (cleanup_old_jobs 4200 3600 locked_server).
Proof.
  apply (sweeps_add_up [600%Q; 1200%Q; 3700%Q] 4200 3600 locked_server).
  repeat constructor; apply Qle_bool_iff; reflexivity.
Defined.

(** ** The separator of a sheet number *)

(** X23. The class [[ -.]] of the sheet-number patterns is a range: any
    of the fifteen characters from the blank to the full stop (among them
    the comma, the hash and the dollar sign) is accepted between the prefix
    letter and the digit, so a title block that reads a prefix letter, such
    a character and a digit gets the label of the letter, whatever the page
    text.  A slash, a colon or an underscore in that place is not accepted:
    with nothing else on the page the label is "other". *)
Theorem separator_class_is_a_range (sep d : ascii) (full : string) :
  is_digit d = true ->
  (in_range 32 46 sep = true ->
   Forall (fun kl =>
             classify_page (mkPage (Some (sheet_number (snd kl) sep d))
                              (Some full)) = fst kl)
     sheet_letters) /\
  Forall (fun kl =>
            Forall (fun other =>
                      classify_page (mkPage (Some (sheet_number (snd kl) other d))
                                       (Some "")) = "other")
              ["/"%char; ":"%char; "_"%char])
    sheet_letters.
Proof.
  intros Hd.
  destruct d as [[] [] [] [] [] [] [] []]; vm_compute in Hd;
    try discriminate Hd; clear Hd.
  all: split;
    [ intros Hs;
      destruct sep as [[] [] [] [] [] [] [] []]; vm_compute in Hs;
        try discriminate Hs; clear Hs;
      repeat constructor
    | repeat constructor ].
Qed.

Lemma separator_class_is_a_range_witness :
  classify_page (mkPage (Some "E,5") (Some "GENERAL NOTES")) = "electrical" /\
  classify_page (mkPage (Some "E/5") (Some "")) = "other".
Proof.
  destruct (separator_class_is_a_range "," "5" "GENERAL NOTES" eq_refl)
    as [H1 _].
  destruct (separator_class_is_a_range "/" "5" "" eq_refl) as [_ H2].
  split.
  - specialize (H1 eq_refl). rewrite Forall_forall in H1.
    apply (H1 ("electrical", "E"%char)).
    apply list_elem_of_In. simpl. tauto.
  - rewrite Forall_forall in H2.
    specialize (H2 ("electrical", "E"%char)).
    rewrite Forall_forall in H2. apply H2.
    + apply list_elem_of_In. simpl. tauto.
    + apply list_elem_of_In. simpl. tauto.
Defined.
